(** * go-chi-restful: a shallow embedding of the server and its test fixtures

    The development follows the two Go files of the repository:
    - [main.go]: port selection from the environment, the chi router with
      the root route and the [/posts] mount;
    - [routes/posts_test.go]: the records [Post] and [PostWithoutId], the
      fixtures [JsonPlaceholderMock.GetPosts] and
      [JsonPlaceholderMock.CreatePost], and the two handler tests.

    Go strings and byte slices are sequences of bytes: they are modelled by
    [string] (a list of 8-bit [ascii] characters).  A Go [int] is a 64-bit
    signed integer, modelled by [Z] together with the range [int64_range].
    The calls into [encoding/json], [unicode/utf8], [strconv], [net/http],
    [httptest] and [chi] are modelled by the definitions of the modules
    [utf8], [strconv], [json], [http] and [chi] below. *)

From Stdlib Require Import ZArith String Ascii List Lia Bool.
From stdpp Require Import gmap strings.
Import ListNotations.
Open Scope string_scope.
Open Scope Z_scope.

(** ** Bytes *)

(** The numeric value of a byte, and the byte of a value below 256. *)
Definition code (c : ascii) : Z := Z.of_N (N_of_ascii c).
Definition chr (z : Z) : ascii := ascii_of_N (Z.to_N z).

(** Go's conversion [byte(x)] of an integer keeps the low eight bits. *)
Definition to_byte (z : Z) : Z := z mod 256.

(** What follows [pre] in [s], when [s] starts with [pre]. *)
Fixpoint strip_prefix (pre s : string) : option string :=
  match pre, s with
  | EmptyString, _ => Some s
  | String a pre', String b s' => if (a =? b)%char then strip_prefix pre' s' else None
  | String _ _, EmptyString => None
  end.

(** ** unicode/utf8 *)

Module utf8.

Definition RuneError : Z := 0xFFFD.
Definition RuneSelf : Z := 0x80.
Definition MaxRune : Z := 0x10FFFF.
Definition surrogateMin : Z := 0xD800.
Definition surrogateMax : Z := 0xDFFF.

Definition t2 : Z := 0xC0.
Definition t3 : Z := 0xE0.
Definition t4 : Z := 0xF0.
Definition tx : Z := 0x80.
Definition maskx : Z := 0x3F.
Definition mask2 : Z := 0x1F.
Definition mask3 : Z := 0x0F.
Definition mask4 : Z := 0x07.
Definition locb : Z := 0x80.
Definition hicb : Z := 0xBF.

Definition rune1Max : Z := 0x7F.
Definition rune2Max : Z := 0x7FF.
Definition rune3Max : Z := 0xFFFF.

(** The table [first]: what the first byte of a sequence announces.
    [as] is an ASCII byte, [xx] an invalid first byte, and
    [sz n lo hi] a sequence of [n] bytes whose second byte lies in
    [lo..hi] (the table [acceptRanges]). *)
Inductive firstInfo : Type :=
| as_
| xx
| sz (n : nat) (lo hi : Z).

Definition first (p0 : Z) : firstInfo :=
  if p0 <? 0x80 then as_
  else if p0 <? 0xC2 then xx
  else if p0 <? 0xE0 then sz 2 locb hicb
  else if p0 =? 0xE0 then sz 3 0xA0 hicb
  else if p0 <? 0xED then sz 3 locb hicb
  else if p0 =? 0xED then sz 3 locb 0x9F
  else if p0 <? 0xF0 then sz 3 locb hicb
  else if p0 =? 0xF0 then sz 4 0x90 hicb
  else if p0 <? 0xF4 then sz 4 locb hicb
  else if p0 =? 0xF4 then sz 4 locb 0x8F
  else xx.

(** [utf8.DecodeRune]: the first rune of [p] and its width in bytes;
    [(RuneError, 1)] for an invalid or truncated sequence and
    [(RuneError, 0)] for the empty input. *)
Definition DecodeRune (p : string) : Z * nat :=
  match p with
  | EmptyString => (RuneError, 0%nat)
  | String c0 r0 =>
      let p0 := code c0 in
      match first p0 with
      | as_ => (p0, 1%nat)
      | xx => (RuneError, 1%nat)
      | sz n lo hi =>
          if (String.length p <? n)%nat then (RuneError, 1%nat) else
          match r0 with
          | EmptyString => (RuneError, 1%nat)
          | String c1 r1 =>
              let b1 := code c1 in
              if (b1 <? lo) || (hi <? b1) then (RuneError, 1%nat) else
              if (n <=? 2)%nat then
                (Z.lor (Z.shiftl (Z.land p0 mask2) 6) (Z.land b1 maskx), 2%nat)
              else
              match r1 with
              | EmptyString => (RuneError, 1%nat)
              | String c2 r2 =>
                  let b2 := code c2 in
                  if (b2 <? locb) || (hicb <? b2) then (RuneError, 1%nat) else
                  if (n <=? 3)%nat then
                    (Z.lor (Z.lor (Z.shiftl (Z.land p0 mask3) 12)
                                  (Z.shiftl (Z.land b1 maskx) 6))
                           (Z.land b2 maskx), 3%nat)
                  else
                  match r2 with
                  | EmptyString => (RuneError, 1%nat)
                  | String c3 _ =>
                      let b3 := code c3 in
                      if (b3 <? locb) || (hicb <? b3) then (RuneError, 1%nat) else
                      (Z.lor (Z.lor (Z.lor (Z.shiftl (Z.land p0 mask4) 18)
                                           (Z.shiftl (Z.land b1 maskx) 12))
                                    (Z.shiftl (Z.land b2 maskx) 6))
                             (Z.land b3 maskx), 4%nat)
                  end
              end
          end
      end
  end.

(** The three-byte form shared by the [fallthrough] in [utf8.AppendRune]. *)
Definition encode3 (r : Z) : string :=
  String (chr (Z.lor t3 (to_byte (Z.shiftr r 12))))
 (String (chr (Z.lor tx (Z.land (to_byte (Z.shiftr r 6)) maskx)))
 (String (chr (Z.lor tx (Z.land (to_byte r) maskx))) EmptyString)).

(** [utf8.AppendRune] on an empty buffer ([utf8.EncodeRune]): the UTF-8
    encoding of [r]; a surrogate or a value above [MaxRune] is encoded as
    [RuneError]. *)
Definition EncodeRune (r : Z) : string :=
  let i := r mod 2 ^ 32 in   (* uint32(r) *)
  if i <=? rune1Max then String (chr (to_byte r)) EmptyString
  else if i <=? rune2Max then
    String (chr (Z.lor t2 (to_byte (Z.shiftr r 6))))
   (String (chr (Z.lor tx (Z.land (to_byte r) maskx))) EmptyString)
  else if (MaxRune <? i) || ((surrogateMin <=? i) && (i <=? surrogateMax)) then
    encode3 RuneError
  else if i <=? rune3Max then encode3 r
  else
    String (chr (Z.lor t4 (to_byte (Z.shiftr r 18))))
   (String (chr (Z.lor tx (Z.land (to_byte (Z.shiftr r 12)) maskx)))
   (String (chr (Z.lor tx (Z.land (to_byte (Z.shiftr r 6)) maskx)))
   (String (chr (Z.lor tx (Z.land (to_byte r) maskx))) EmptyString))).

(** A Unicode scalar value: a code point that is not a surrogate. *)
Definition scalar (r : Z) : Prop :=
  0 <= r <= MaxRune /\ ~ (surrogateMin <= r <= surrogateMax).

(** [utf8.ValidString]: [s] consists of valid UTF-8 sequences only.  The
    loop advances by the width [DecodeRune] reports. *)
Fixpoint ValidString (s : string) : bool :=
  match s with
  | EmptyString => true
  | String c r =>
      if code c <? RuneSelf then ValidString r
      else
        match DecodeRune s, r with
        | (_, 2%nat), String _ r1 => ValidString r1
        | (_, 3%nat), String _ (String _ r2) => ValidString r2
        | (_, 4%nat), String _ (String _ (String _ r3)) => ValidString r3
        | _, _ => false
        end
  end.

End utf8.

(** ** unicode/utf16 *)

Module utf16.

Definition surr1 : Z := 0xD800.
Definition surr2 : Z := 0xDC00.
Definition surr3 : Z := 0xE000.
Definition surrSelf : Z := 0x10000.
Definition replacementChar : Z := 0xFFFD.

(** [utf16.IsSurrogate]. *)
Definition IsSurrogate (r : Z) : bool := (surr1 <=? r) && (r <? surr3).

(** [utf16.DecodeRune]: the code point of a surrogate pair, or U+FFFD when
    the pair is not valid. *)
Definition DecodeRune (r1 r2 : Z) : Z :=
  if (surr1 <=? r1) && (r1 <? surr2) && (surr2 <=? r2) && (r2 <? surr3) then
    Z.lor (Z.shiftl (r1 - surr1) 10) (r2 - surr2) + surrSelf
  else replacementChar.

End utf16.

(** ** strconv *)

Module strconv.

(** The decimal digit of a value below ten. *)
Definition digit (d : Z) : ascii := chr (code "0" + d).

Definition isDigit (c : ascii) : bool := (code "0" <=? code c) && (code c <=? code "9").

(** The digit loop of [formatBits] in base ten: the digits of [u], most
    significant first, in front of [acc].  A [uint64] has at most twenty
    digits, which bounds the loop. *)
Fixpoint formatBits (fuel : nat) (u : Z) (acc : string) : string :=
  match fuel with
  | O => acc
  | S fuel' =>
      let acc' := String (digit (u mod 10)) acc in
      if u <? 10 then acc' else formatBits fuel' (u / 10) acc'
  end.

(** [strconv.FormatInt(i, 10)], which is what [json.Marshal] prints for an
    [int]. *)
Definition FormatInt (i : Z) : string :=
  if i <? 0 then String "-" (formatBits 20 (- i) EmptyString)
  else formatBits 20 i EmptyString.

Fixpoint parseDigits (s : string) (acc : Z) : option Z :=
  match s with
  | EmptyString => Some acc
  | String c r =>
      if isDigit c then parseDigits r (acc * 10 + (code c - code "0")) else None
  end.

(** [strconv.ParseUint(s, 10, 64)] before its range check: [None] is a
    syntax error. *)
Definition ParseUint (s : string) : option Z :=
  match s with
  | EmptyString => None
  | _ => parseDigits s 0
  end.

(** [strconv.ParseInt(s, 10, 64)]: [None] stands for both of its errors,
    the syntax error and the range error. *)
Definition ParseInt (s : string) : option Z :=
  match s with
  | EmptyString => None
  | String c r =>
      let neg := (c =? "-")%char in
      let s' := if (c =? "+")%char || neg then r else s in
      match ParseUint s' with
      | None => None
      | Some un =>
          let cutoff := 2 ^ 63 in
          if negb neg && (cutoff <=? un) then None
          else if neg && (cutoff <? un) then None
          else Some (if neg then - un else un)
      end
  end.

End strconv.

(** The range of a Go [int] on a 64-bit platform. *)
Definition int64_range (z : Z) : Prop := - 2 ^ 63 <= z < 2 ^ 63.

(** ** Results of Go calls *)

(** The [error] values the program meets. *)
Inductive error : Type :=
| EOF                                (* io.EOF *)
| SyntaxError                        (* *json.SyntaxError *)
| UnmarshalTypeError                 (* *json.UnmarshalTypeError *)
| UnsupportedTypeError               (* *json.UnsupportedTypeError *)
| TransportError (msg : string).     (* an error of the HTTP client *)

(** A call that returns [(x, err)]: [Ok x] when [err == nil]. *)
Inductive result (A : Type) : Type :=
| Ok (a : A)
| Err (e : error).
Arguments Ok {A} a.
Arguments Err {A} e.

(** The values the program panics with: the message of
    [log.Panicf(format, e)], and the panic of [WriteHeader] on a status code
    outside 100..999. *)
Inductive panic : Type :=
| Panicf (format : string) (e : error)
| InvalidWriteHeaderCode (code : Z).

(** A call that either returns or panics. *)
Inductive exec (A : Type) : Type :=
| Done (a : A)
| Panic (p : panic).
Arguments Done {A} a.
Arguments Panic {A} p.

#[global] Instance exec_ret : MRet exec := fun A a => Done a.
#[global] Instance exec_bind : MBind exec := fun A B k m =>
  match m with
  | Done a => k a
  | Panic p => Panic p
  end.

(** ** The records of package routes *)

Module PostWithoutId.
Record t : Type := mk { UserId : Z; Title : string; Body : string }.
(** The zero value of the struct. *)
Definition zero : t := mk 0 EmptyString EmptyString.
End PostWithoutId.

Module Post.
Record t : Type := mk { Id : Z; UserId : Z; Title : string; Body : string }.
Definition zero : t := mk 0 0 EmptyString EmptyString.
End Post.

(** ** encoding/json *)

Module json.

(** A JSON text as the scanner delimits it.  A number keeps its literal,
    a string its unquoted contents. *)
#[local] Unset Elimination Schemes.
Inductive value : Type :=
| Null
| Bool (b : bool)
| Number (lit : string)
| Str (s : string)
| Array (elems : list value)
| Object (members : list (string * value)).
#[local] Set Elimination Schemes.

Definition dquote : ascii := "034"%char.
Definition backslash : ascii := "092"%char.

(** [isSpace] of scanner.go. *)
Definition isSpace (c : ascii) : bool :=
  (code c <=? 0x20) &&
  ((code c =? 0x20) || (code c =? 0x09) || (code c =? 0x0D) || (code c =? 0x0A)).

Fixpoint skip_space (s : string) : string :=
  match s with
  | EmptyString => EmptyString
  | String c r => if isSpace c then skip_space r else s
  end.

(** *** Strings: decoding *)

(** The one-character escapes the scanner accepts after a backslash
    ([stateInStringEsc]) and the byte [unquoteBytes] writes for each. *)
Definition unescape (e : ascii) : option ascii :=
  if (e =? dquote)%char then Some dquote
  else if (e =? backslash)%char then Some backslash
  else if (e =? "/")%char then Some "/"%char
  else if (e =? "b")%char then Some "008"%char
  else if (e =? "f")%char then Some "012"%char
  else if (e =? "n")%char then Some "010"%char
  else if (e =? "r")%char then Some "013"%char
  else if (e =? "t")%char then Some "009"%char
  else None.

Definition hexval (c : ascii) : option Z :=
  let b := code c in
  if (code "0" <=? b) && (b <=? code "9") then Some (b - code "0")
  else if (code "a" <=? b) && (b <=? code "f") then Some (b - code "a" + 10)
  else if (code "A" <=? b) && (b <=? code "F") then Some (b - code "A" + 10)
  else None.

(** [getu4]: the value of the four hexadecimal digits of a [\uXXXX]
    escape; [None] where Go returns -1. *)
Definition getu4 (h1 h2 h3 h4 : ascii) : option Z :=
  match hexval h1, hexval h2, hexval h3, hexval h4 with
  | Some a, Some b, Some c, Some d => Some (((a * 16 + b) * 16 + c) * 16 + d)
  | _, _, _, _ => None
  end.

Definition prepend (pre : string) (res : option (string * string))
  : option (string * string) :=
  match res with
  | Some (s, rest) => Some (pre ++ s, rest)
  | None => None
  end.

(** The contents of a string literal, read from just after its opening
    quote: the unquoted bytes and the input after the closing quote.  The
    function joins what the scanner checks ([stateInString] and its escape
    states: no control character, only the escapes above) with what
    [unquoteBytes] computes for a literal the scanner accepted: escapes are
    replaced, surrogate pairs combined, and invalid UTF-8 is coerced to
    U+FFFD. *)
Fixpoint parse_string (s : string) : option (string * string) :=
  match s with
  | EmptyString => None
  | String c r =>
      if (c =? dquote)%char then Some (EmptyString, r)
      else if (c =? backslash)%char then
        match r with
        | EmptyString => None
        | String e r1 =>
            match unescape e with
            | Some d => prepend (String d EmptyString) (parse_string r1)
            | None =>
                if (e =? "u")%char then
                  match r1 with
                  | String h1 (String h2 (String h3 (String h4 r2))) =>
                      match getu4 h1 h2 h3 h4 with
                      | None => None
                      | Some rr =>
                          if utf16.IsSurrogate rr then
                            match r2 with
                            | String b (String u (String g1 (String g2
                                (String g3 (String g4 r3))))) =>
                                match (if (b =? backslash)%char && (u =? "u")%char
                                       then getu4 g1 g2 g3 g4 else None) with
                                | Some rr1 =>
                                    let dec := utf16.DecodeRune rr rr1 in
                                    if dec =? utf16.replacementChar then
                                      prepend (utf8.EncodeRune utf16.replacementChar)
                                              (parse_string r2)
                                    else
                                      prepend (utf8.EncodeRune dec) (parse_string r3)
                                | None =>
                                    prepend (utf8.EncodeRune utf16.replacementChar)
                                            (parse_string r2)
                                end
                            | _ =>
                                prepend (utf8.EncodeRune utf16.replacementChar)
                                        (parse_string r2)
                            end
                          else prepend (utf8.EncodeRune rr) (parse_string r2)
                      end
                  | _ => None
                  end
                else None
            end
        end
      else if code c <? 0x20 then None
      else if code c <? utf8.RuneSelf then
        prepend (String c EmptyString) (parse_string r)
      else
        let '(rr, size) := utf8.DecodeRune s in
        prepend (utf8.EncodeRune rr)
          match size, r with
          | 2%nat, String _ r1 => parse_string r1
          | 3%nat, String _ (String _ r2) => parse_string r2
          | 4%nat, String _ (String _ (String _ r3)) => parse_string r3
          | _, _ => parse_string r
          end
  end.

(** *** Numbers *)

Fixpoint span_digits (s : string) : string * string :=
  match s with
  | EmptyString => (EmptyString, EmptyString)
  | String c r =>
      if strconv.isDigit c then
        let '(ds, rest) := span_digits r in (String c ds, rest)
      else (EmptyString, s)
  end.

(** The integer part: [0], or a non-zero digit followed by digits
    ([stateNeg], [state0], [state1]). *)
Definition scan_int (s : string) : option (string * string) :=
  match s with
  | EmptyString => None
  | String c r =>
      if (c =? "0")%char then Some (String c EmptyString, r)
      else if strconv.isDigit c then
        let '(ds, rest) := span_digits r in Some (String c ds, rest)
      else None
  end.

(** The optional fraction ([stateDot], [stateDot0]). *)
Definition scan_frac (s : string) : option (string * string) :=
  match s with
  | String c r =>
      if (c =? ".")%char then
        match span_digits r with
        | (EmptyString, _) => None
        | (ds, rest) => Some (String c ds, rest)
        end
      else Some (EmptyString, s)
  | EmptyString => Some (EmptyString, s)
  end.

(** The optional exponent ([stateE], [stateESign], [stateE0]). *)
Definition scan_exp (s : string) : option (string * string) :=
  match s with
  | String c r =>
      if (c =? "e")%char || (c =? "E")%char then
        let '(sign, r') :=
          match r with
          | String g r1 =>
              if (g =? "+")%char || (g =? "-")%char then (String g EmptyString, r1)
              else (EmptyString, r)
          | EmptyString => (EmptyString, r)
          end in
        match span_digits r' with
        | (EmptyString, _) => None
        | (ds, rest) => Some (String c (sign ++ ds), rest)
        end
      else Some (EmptyString, s)
  | EmptyString => Some (EmptyString, s)
  end.

(** A number literal at the head of [s]: the literal and what follows. *)
Definition scan_number (s : string) : option (string * string) :=
  let '(sign, s1) :=
    match s with
    | String c r => if (c =? "-")%char then (String c EmptyString, r) else (EmptyString, s)
    | EmptyString => (EmptyString, s)
    end in
  match scan_int s1 with
  | None => None
  | Some (ip, s2) =>
      match scan_frac s2 with
      | None => None
      | Some (fp, s3) =>
          match scan_exp s3 with
          | None => None
          | Some (ep, s4) => Some (sign ++ ip ++ fp ++ ep, s4)
          end
      end
  end.

(** *** Values *)

Definition maxNestingDepth : Z := 10000.

(** One JSON value at the head of [s], after optional space, and the input
    that follows it.  [depth] counts the enclosing arrays and objects, as
    the scanner's [parseState] does; [fuel] bounds the recursion and is
    consumed once per nested value or member. *)
Fixpoint parse_value (fuel : nat) (depth : Z) (s : string) : option (value * string) :=
  match fuel with
  | O => None
  | S fuel' =>
      match skip_space s with
      | EmptyString => None
      | String c r =>
          if (c =? "{")%char then
            if maxNestingDepth <? depth + 1 then None
            else
              match skip_space r with
              | EmptyString => None
              | String c' r' =>
                  if (c' =? "}")%char then Some (Object [], r')
                  else parse_members fuel' (depth + 1) (String c' r') []
              end
          else if (c =? "[")%char then
            if maxNestingDepth <? depth + 1 then None
            else
              match skip_space r with
              | EmptyString => None
              | String c' r' =>
                  if (c' =? "]")%char then Some (Array [], r')
                  else parse_elements fuel' (depth + 1) (String c' r') []
              end
          else if (c =? dquote)%char then
            match parse_string r with
            | Some (str, r') => Some (Str str, r')
            | None => None
            end
          else if (c =? "t")%char then
            match strip_prefix "rue" r with
            | Some r' => Some (Bool true, r')
            | None => None
            end
          else if (c =? "f")%char then
            match strip_prefix "alse" r with
            | Some r' => Some (Bool false, r')
            | None => None
            end
          else if (c =? "n")%char then
            match strip_prefix "ull" r with
            | Some r' => Some (Null, r')
            | None => None
            end
          else
            match scan_number (String c r) with
            | Some (lit, r') => Some (Number lit, r')
            | None => None
            end
      end
  end
with parse_members (fuel : nat) (depth : Z) (s : string) (acc : list (string * value))
  : option (value * string) :=
  match fuel with
  | O => None
  | S fuel' =>
      match skip_space s with
      | EmptyString => None
      | String c r =>
          if (c =? dquote)%char then
            match parse_string r with
            | None => None
            | Some (k, r1) =>
                match skip_space r1 with
                | EmptyString => None
                | String c1 r2 =>
                    if (c1 =? ":")%char then
                      match parse_value fuel' depth r2 with
                      | None => None
                      | Some (v, r3) =>
                          match skip_space r3 with
                          | EmptyString => None
                          | String c3 r4 =>
                              if (c3 =? ",")%char then
                                parse_members fuel' depth r4 (acc ++ [(k, v)])
                              else if (c3 =? "}")%char then
                                Some (Object (acc ++ [(k, v)]), r4)
                              else None
                          end
                      end
                    else None
                end
            end
          else None
      end
  end
with parse_elements (fuel : nat) (depth : Z) (s : string) (acc : list value)
  : option (value * string) :=
  match fuel with
  | O => None
  | S fuel' =>
      match parse_value fuel' depth s with
      | None => None
      | Some (v, r1) =>
          match skip_space r1 with
          | EmptyString => None
          | String c r2 =>
              if (c =? ",")%char then parse_elements fuel' depth r2 (acc ++ [v])
              else if (c =? "]")%char then Some (Array (acc ++ [v]), r2)
              else None
          end
      end
  end.

(** The first value of [data].  Every nested call comes after at least one
    consumed byte, so the length of [data] is fuel enough. *)
Definition parse (data : string) : option (value * string) :=
  parse_value (S (String.length data)) 0 data.

(** [checkValid]: [data] is one JSON value, with nothing but space after
    it. *)
Definition checkValid (data : string) : bool :=
  match parse data with
  | Some (_, rest) =>
      match skip_space rest with
      | EmptyString => true
      | _ => false
      end
  | None => false
  end.

(** *** Strings: encoding *)

(** [htmlSafeSet]: the ASCII bytes [appendString] copies unescaped when
    [escapeHTML] is set, as it is for [json.Marshal]. *)
Definition htmlSafeSet (b : Z) : bool :=
  (0x20 <=? b) && (b <? utf8.RuneSelf) &&
  negb ((b =? code dquote) || (b =? code "&") || (b =? code "<") ||
        (b =? code ">") || (b =? code backslash)).

Definition hex (n : Z) : ascii :=
  if n <? 10 then chr (code "0" + n) else chr (code "a" + (n - 10)).

(** The escape [appendString] writes for an ASCII byte outside
    [htmlSafeSet]. *)
Definition escape (c : ascii) : string :=
  let b := code c in
  if (b =? code backslash) || (b =? code dquote) then String backslash (String c EmptyString)
  else if b =? 0x08 then String backslash "b"
  else if b =? 0x0C then String backslash "f"
  else if b =? 0x0A then String backslash "n"
  else if b =? 0x0D then String backslash "r"
  else if b =? 0x09 then String backslash "t"
  else String backslash
         (String "u" (String "0" (String "0"
            (String (hex (Z.shiftr b 4)) (String (hex (Z.land b 0xF)) EmptyString))))).

(** The loop of [appendString]: the bytes of [src] between the quotes. *)
Fixpoint appendString_loop (src : string) : string :=
  match src with
  | EmptyString => EmptyString
  | String c r =>
      let b := code c in
      if b <? utf8.RuneSelf then
        if htmlSafeSet b then String c (appendString_loop r)
        else escape c ++ appendString_loop r
      else
        let '(rr, size) := utf8.DecodeRune src in
        if (rr =? utf8.RuneError) && (size =? 1)%nat then
          String backslash "ufffd" ++ appendString_loop r
        else
          (if (rr =? 0x2028) || (rr =? 0x2029) then
             String backslash "u202" ++ String (hex (Z.land rr 0xF)) EmptyString
           else substring 0 size src)
          ++ match size, r with
             | 2%nat, String _ r1 => appendString_loop r1
             | 3%nat, String _ (String _ r2) => appendString_loop r2
             | 4%nat, String _ (String _ (String _ r3)) => appendString_loop r3
             | _, _ => appendString_loop r
             end
  end.

(** [appendString(nil, src, true)]: [src] as a JSON string literal. *)
Definition appendString (src : string) : string :=
  String dquote (appendString_loop src ++ String dquote EmptyString).

(** *** Marshal *)

(** A struct field is printed under its Go name: the structs carry no
    [json] tags. *)
Definition key (name : string) : string := appendString name ++ ":".

Definition encode_PostWithoutId (p : PostWithoutId.t) : string :=
  "{" ++ key "UserId" ++ strconv.FormatInt (PostWithoutId.UserId p)
  ++ "," ++ key "Title" ++ appendString (PostWithoutId.Title p)
  ++ "," ++ key "Body" ++ appendString (PostWithoutId.Body p) ++ "}".

Definition encode_Post (p : Post.t) : string :=
  "{" ++ key "Id" ++ strconv.FormatInt (Post.Id p)
  ++ "," ++ key "UserId" ++ strconv.FormatInt (Post.UserId p)
  ++ "," ++ key "Title" ++ appendString (Post.Title p)
  ++ "," ++ key "Body" ++ appendString (Post.Body p) ++ "}".

Fixpoint encode_elems (ps : list Post.t) : string :=
  match ps with
  | [] => EmptyString
  | [p] => encode_Post p
  | p :: ps' => encode_Post p ++ "," ++ encode_elems ps'
  end.

(** A list stands for a non-nil slice ([Marshal] prints the nil slice as
    [null]; the program marshals no nil slice). *)
Definition encode_Posts (ps : list Post.t) : string :=
  "[" ++ encode_elems ps ++ "]".

(** [json.Marshal] at the three types the program uses.  It has no error
    for them: ints and strings are always encodable. *)
Definition Marshal_PostWithoutId (p : PostWithoutId.t) : result string :=
  Ok (encode_PostWithoutId p).
Definition Marshal_Post (p : Post.t) : result string := Ok (encode_Post p).
Definition Marshal_Posts (ps : list Post.t) : result string := Ok (encode_Posts ps).

(** *** Unmarshal *)

(** [foldRune] on the runes outside ASCII: the smallest rune of the
    case-folding orbit.  Two orbits reach into ASCII, the long s (U+017F)
    with [S] and the Kelvin sign (U+212A) with [K]; every other rune outside
    ASCII folds to a rune outside ASCII and is left as it is here, which is
    all a comparison with the ASCII field names depends on. *)
Definition foldRune (r : Z) : Z :=
  if r =? 0x17F then code "S"
  else if r =? 0x212A then code "K"
  else r.

(** [foldName]: the key under which [byFoldedName] looks a field up. *)
Fixpoint foldName (s : string) : string :=
  match s with
  | EmptyString => EmptyString
  | String c r =>
      let b := code c in
      if b <? utf8.RuneSelf then
        String (if (code "a" <=? b) && (b <=? code "z")
                then chr (b - (code "a" - code "A")) else c)
               (foldName r)
      else
        let '(rr, size) := utf8.DecodeRune s in
        utf8.EncodeRune (foldRune rr)
        ++ match size, r with
           | 2%nat, String _ r1 => foldName r1
           | 3%nat, String _ (String _ r2) => foldName r2
           | 4%nat, String _ (String _ (String _ r3)) => foldName r3
           | _, _ => foldName r
           end
  end.

(** The field an object key addresses: the field of that exact name, or
    else the field of that name up to case. *)
Definition findField {F : Type} (fields : list (string * F)) (k : string) : option F :=
  match List.find (fun nf => String.eqb (fst nf) k) fields with
  | Some (_, f) => Some f
  | None =>
      match List.find (fun nf => String.eqb (foldName (fst nf)) (foldName k)) fields with
      | Some (_, f) => Some f
      | None => None
      end
  end.

(** Storing a value into a field of type [int]: [null] leaves the field,
    a number literal must be a decimal integer in range, anything else is
    an [UnmarshalTypeError] ([None]). *)
Definition store_int (v : value) (old : Z) : option Z :=
  match v with
  | Null => Some old
  | Number lit => strconv.ParseInt lit
  | _ => None
  end.

(** Storing a value into a field of type [string]. *)
Definition store_string (v : value) (old : string) : option string :=
  match v with
  | Null => Some old
  | Str s => Some s
  | _ => None
  end.

Definition fields_PostWithoutId
  : list (string * (value -> PostWithoutId.t -> option PostWithoutId.t)) :=
  [ ("UserId", fun v p =>
       n ← store_int v (PostWithoutId.UserId p);
       Some (PostWithoutId.mk n (PostWithoutId.Title p) (PostWithoutId.Body p)));
    ("Title", fun v p =>
       s ← store_string v (PostWithoutId.Title p);
       Some (PostWithoutId.mk (PostWithoutId.UserId p) s (PostWithoutId.Body p)));
    ("Body", fun v p =>
       s ← store_string v (PostWithoutId.Body p);
       Some (PostWithoutId.mk (PostWithoutId.UserId p) (PostWithoutId.Title p) s)) ].

Definition fields_Post : list (string * (value -> Post.t -> option Post.t)) :=
  [ ("Id", fun v p =>
       n ← store_int v (Post.Id p);
       Some (Post.mk n (Post.UserId p) (Post.Title p) (Post.Body p)));
    ("UserId", fun v p =>
       n ← store_int v (Post.UserId p);
       Some (Post.mk (Post.Id p) n (Post.Title p) (Post.Body p)));
    ("Title", fun v p =>
       s ← store_string v (Post.Title p);
       Some (Post.mk (Post.Id p) (Post.UserId p) s (Post.Body p)));
    ("Body", fun v p =>
       s ← store_string v (Post.Body p);
       Some (Post.mk (Post.Id p) (Post.UserId p) (Post.Title p) s)) ].

(** [decodeState.object] into a struct: the members are stored in their
    order, a later member overwrites an earlier one, a key that addresses no
    field is skipped.  Go records the first [UnmarshalTypeError], goes on
    and returns it at the end; the callers here only look at the value when
    there is no error, so the first error ends the decoding ([None]). *)
Fixpoint object {T : Type} (fields : list (string * (value -> T -> option T)))
    (ms : list (string * value)) (p : T) : option T :=
  match ms with
  | [] => Some p
  | (k, v) :: ms' =>
      match findField fields k with
      | Some set =>
          match set v p with
          | Some p' => object fields ms' p'
          | None => None
          end
      | None => object fields ms' p
      end
  end.

(** A value stored into a struct: an object fills it, [null] leaves it. *)
Definition decode_struct {T : Type} (fields : list (string * (value -> T -> option T)))
    (v : value) (p : T) : option T :=
  match v with
  | Object ms => object fields ms p
  | Null => Some p
  | _ => None
  end.

Fixpoint decode_elems {T : Type} (fields : list (string * (value -> T -> option T)))
    (zero : T) (vs : list value) : option (list T) :=
  match vs with
  | [] => Some []
  | v :: vs' =>
      match decode_struct fields v zero with
      | Some x =>
          match decode_elems fields zero vs' with
          | Some xs => Some (x :: xs)
          | None => None
          end
      | None => None
      end
  end.

(** A value stored into a nil slice of structs: an array gives one element
    per value, each decoded into a zero struct; [null] leaves the slice
    nil (of length 0). *)
Definition decode_slice {T : Type} (fields : list (string * (value -> T -> option T)))
    (zero : T) (v : value) : option (list T) :=
  match v with
  | Array vs => decode_elems fields zero vs
  | Null => Some []
  | _ => None
  end.

(** [json.Unmarshal(data, &x)]: [checkValid] first, then the value is
    stored. *)
Definition Unmarshal {T : Type} (decode : value -> option T) (data : string) : result T :=
  match parse data with
  | Some (v, rest) =>
      match skip_space rest with
      | EmptyString =>
          match decode v with
          | Some x => Ok x
          | None => Err UnmarshalTypeError
          end
      | _ => Err SyntaxError
      end
  | None => Err SyntaxError
  end.

(** [json.NewDecoder(r).Decode(&x)] on a fresh decoder: the first value of
    the stream is stored, what follows it stays unread (the scanner
    complains about it on the next call only); an empty stream is
    [io.EOF]. *)
Definition Decode {T : Type} (decode : value -> option T) (stream : string) : result T :=
  match skip_space stream with
  | EmptyString => Err EOF
  | _ =>
      match parse stream with
      | Some (v, _) =>
          match decode v with
          | Some x => Ok x
          | None => Err UnmarshalTypeError
          end
      | None => Err SyntaxError
      end
  end.

(** [var x PostWithoutId; json.Unmarshal(data, &x)] and its like. *)
Definition Unmarshal_PostWithoutId : string -> result PostWithoutId.t :=
  Unmarshal (fun v => decode_struct fields_PostWithoutId v PostWithoutId.zero).
Definition Unmarshal_Post : string -> result Post.t :=
  Unmarshal (fun v => decode_struct fields_Post v Post.zero).
Definition Unmarshal_Posts : string -> result (list Post.t) :=
  Unmarshal (decode_slice fields_Post Post.zero).
Definition Decode_Post : string -> result Post.t :=
  Decode (fun v => decode_struct fields_Post v Post.zero).
Definition Decode_Posts : string -> result (list Post.t) :=
  Decode (decode_slice fields_Post Post.zero).

End json.

(** ** net/http and net/http/httptest *)

Module http.

Definition StatusOK : Z := 200.
Definition StatusBadRequest : Z := 400.
Definition StatusNotFound : Z := 404.
Definition StatusMethodNotAllowed : Z := 405.
Definition StatusInternalServerError : Z := 500.

(** [http.Response], reduced to the two fields the fixtures fill in.
    [Body] is a stream in Go; it is modelled by the bytes a reader gets
    from it. *)
Module Response.
Record t : Type := mk { StatusCode : Z; Body : string }.
End Response.

(** chi's routing context, which travels in the request's context:
    the path left to route and the value of the wildcard parameter. *)
Module Context.
Record t : Type := mk { RoutePath : string; wildcard : string }.
End Context.

(** [http.Request]: method, URL path, header and body, and the routing
    context once a router has attached one. *)
Module Request.
Record t : Type := mk {
  Method : string;
  Path : string;
  Header : gmap string string;
  Body : string;
  RouteCtx : option Context.t
}.
End Request.

(** [http.NewRequest(method, url, body)]. *)
Definition NewRequest (method path body : string) : Request.t :=
  Request.mk method path ∅ body None.

(** [req.Header.Set(k, v)]. *)
Definition SetRequestHeader (k v : string) (r : Request.t) : Request.t :=
  Request.mk (Request.Method r) (Request.Path r) (<[k := v]> (Request.Header r))
             (Request.Body r) (Request.RouteCtx r).

Definition WithContext (ctx : Context.t) (r : Request.t) : Request.t :=
  Request.mk (Request.Method r) (Request.Path r) (Request.Header r)
             (Request.Body r) (Some ctx).

(** [httptest.ResponseRecorder], the [http.ResponseWriter] of the tests;
    the writer of a served connection records the same three things. *)
Module ResponseRecorder.
Record t : Type := mk {
  Code : Z;
  HeaderMap : gmap string string;
  Body : string;
  wroteHeader : bool
}.
End ResponseRecorder.

(** [httptest.NewRecorder()]. *)
Definition NewRecorder : ResponseRecorder.t :=
  ResponseRecorder.mk 200 ∅ EmptyString false.

(** [w.Header().Set(k, v)]. *)
Definition SetHeader (k v : string) (w : ResponseRecorder.t) : ResponseRecorder.t :=
  ResponseRecorder.mk (ResponseRecorder.Code w) (<[k := v]> (ResponseRecorder.HeaderMap w))
                      (ResponseRecorder.Body w) (ResponseRecorder.wroteHeader w).

(** [w.WriteHeader(code)]: only the first call counts, and a code outside
    100..999 panics. *)
Definition WriteHeader (code : Z) (w : ResponseRecorder.t) : exec ResponseRecorder.t :=
  if ResponseRecorder.wroteHeader w then Done w
  else if (code <? 100) || (999 <? code) then Panic (InvalidWriteHeaderCode code)
  else Done (ResponseRecorder.mk code (ResponseRecorder.HeaderMap w)
                                 (ResponseRecorder.Body w) true).

(** [w.Write(buf)]: the first write sends status 200 when no header was
    written before. *)
Definition Write (buf : string) (w : ResponseRecorder.t) : exec ResponseRecorder.t :=
  w' ← WriteHeader StatusOK w;
  Done (ResponseRecorder.mk (ResponseRecorder.Code w') (ResponseRecorder.HeaderMap w')
                            (ResponseRecorder.Body w' ++ buf) true).

Definition HandlerFunc : Type := ResponseRecorder.t -> Request.t -> exec ResponseRecorder.t.

Definition newline : string := String "010"%char EmptyString.

(** [http.Error(w, msg, code)]. *)
Definition Error (w : ResponseRecorder.t) (msg : string) (code : Z) : exec ResponseRecorder.t :=
  let w := SetHeader "Content-Type" "text/plain; charset=utf-8" w in
  let w := SetHeader "X-Content-Type-Options" "nosniff" w in
  w ← WriteHeader code w;
  Write (msg ++ newline) w.

(** [http.NotFound]. *)
Definition NotFound : HandlerFunc :=
  fun w _ => Error w "404 page not found" StatusNotFound.

End http.

(** ** github.com/go-chi/chi *)

Module chi.
Import http.

(** The methods of chi's [methodMap]. *)
Inductive methodTyp : Type :=
| mCONNECT | mDELETE | mGET | mHEAD | mOPTIONS | mPATCH | mPOST | mPUT | mTRACE.

#[global] Instance methodTyp_eq_dec : EqDecision methodTyp.
Proof. solve_decision. Defined.

Definition methodMap (m : string) : option methodTyp :=
  if (m =? "CONNECT")%string then Some mCONNECT
  else if (m =? "DELETE")%string then Some mDELETE
  else if (m =? "GET")%string then Some mGET
  else if (m =? "HEAD")%string then Some mHEAD
  else if (m =? "OPTIONS")%string then Some mOPTIONS
  else if (m =? "PATCH")%string then Some mPATCH
  else if (m =? "POST")%string then Some mPOST
  else if (m =? "PUT")%string then Some mPUT
  else if (m =? "TRACE")%string then Some mTRACE
  else None.

Definition mALL : list methodTyp :=
  [mCONNECT; mDELETE; mGET; mHEAD; mOPTIONS; mPATCH; mPOST; mPUT; mTRACE].

(** An endpoint of the routing tree.  The patterns this program registers
    are static paths and paths that end in the wildcard [*]; patterns with
    named parameters are not modelled. *)
Record route : Type := mkRoute {
  methods : list methodTyp;
  pattern : string;
  endpoint : HandlerFunc
}.

Record Mux : Type := mkMux {
  middlewares : list (HandlerFunc -> HandlerFunc);
  tree : list route
}.

(** [chi.NewRouter()]. *)
Definition NewRouter : Mux := mkMux [] [].

(** [mx.Use(mw)]. *)
Definition Use (mw : HandlerFunc -> HandlerFunc) (mx : Mux) : Mux :=
  mkMux (middlewares mx ++ [mw]) (tree mx).

Definition handle (ms : list methodTyp) (pat : string) (h : HandlerFunc) (mx : Mux) : Mux :=
  mkMux (middlewares mx) (tree mx ++ [mkRoute ms pat h]).

(** [mx.Get(pattern, h)] and [mx.Post(pattern, h)]. *)
Definition Get (pat : string) (h : HandlerFunc) (mx : Mux) : Mux := handle [mGET] pat h mx.
Definition Post (pat : string) (h : HandlerFunc) (mx : Mux) : Mux := handle [mPOST] pat h mx.

(** The part of a pattern in front of its final wildcard [*], when it
    has one. *)
Definition wildcardPrefix (pat : string) : option string :=
  match String.rev pat with
  | String c rp => if (c =? "*")%char then Some (String.rev rp) else None
  | EmptyString => None
  end.

Definition isWildcard (pat : string) : bool :=
  match wildcardPrefix pat with
  | Some _ => true
  | None => false
  end.

(** Matching a path against a pattern: [Some w] when it matches, where [w]
    is what the final wildcard stands for (empty for a static pattern). *)
Definition match_pattern (pat path : string) : option string :=
  match wildcardPrefix pat with
  | Some pre => strip_prefix pre path
  | None => if (pat =? path)%string then Some EmptyString else None
  end.

(** The search of [FindRoute] over a list of endpoints: the first endpoint
    that matches the path and carries the method; the flag reports that
    some endpoint matched the path without carrying the method
    ([rctx.methodNotAllowed]). *)
Fixpoint search (rs : list route) (m : methodTyp) (path : string)
  : option (HandlerFunc * string) * bool :=
  match rs with
  | [] => (None, false)
  | r :: rs' =>
      match match_pattern (pattern r) path with
      | Some w =>
          if bool_decide (m ∈ methods r) then (Some (endpoint r, w), false)
          else (fst (search rs' m path), true)
      | None => search rs' m path
      end
  end.

(** [tree.FindRoute]: static endpoints are tried before wildcard ones. *)
Definition FindRoute (mx : Mux) (m : methodTyp) (path : string)
  : option (HandlerFunc * string) * bool :=
  search (filter (fun r => negb (isWildcard (pattern r))) (tree mx)
          ++ filter (fun r => isWildcard (pattern r)) (tree mx)) m path.

(** The default [MethodNotAllowedHandler] and [NotFoundHandler]. *)
Definition methodNotAllowedHandler : HandlerFunc :=
  fun w _ => w ← WriteHeader StatusMethodNotAllowed w; Write EmptyString w.
Definition notFoundHandler : HandlerFunc := NotFound.

(** [mx.routeHTTP]: a method outside [methodMap] is not allowed, whatever
    the path; otherwise the endpoint found is called, and when none is
    found the answer is 405 if the path is known under another method
    and 404 if not. *)
Definition routeHTTP (mx : Mux) : HandlerFunc :=
  fun w r =>
    let rctx := default (Context.mk EmptyString EmptyString) (Request.RouteCtx r) in
    let routePath :=
      if (Context.RoutePath rctx =? "")%string then Request.Path r
      else Context.RoutePath rctx in
    match methodMap (Request.Method r) with
    | None => methodNotAllowedHandler w r
    | Some method =>
        match FindRoute mx method routePath with
        | (Some (h, wild), _) =>
            h w (WithContext (Context.mk (Context.RoutePath rctx) wild) r)
        | (None, true) => methodNotAllowedHandler w r
        | (None, false) => notFoundHandler w r
        end
    end.

(** [chain(middlewares, endpoint)]: the first middleware is outermost. *)
Definition chain (mws : list (HandlerFunc -> HandlerFunc)) (h : HandlerFunc) : HandlerFunc :=
  fold_right (fun mw acc => mw acc) h mws.

(** [mx.ServeHTTP]: a mux without routes answers not-found; a request that
    comes without routing context gets a fresh one. *)
Definition ServeHTTP (mx : Mux) : HandlerFunc :=
  fun w r =>
    match tree mx with
    | [] => notFoundHandler w r
    | _ =>
        match Request.RouteCtx r with
        | Some _ => chain (middlewares mx) (routeHTTP mx) w r
        | None =>
            chain (middlewares mx) (routeHTTP mx) w
                  (WithContext (Context.mk EmptyString EmptyString) r)
        end
    end.

(** [mx.nextRoutePath]: the path a mounted handler routes. *)
Definition nextRoutePath (rctx : Context.t) : string := "/" ++ Context.wildcard rctx.

Definition endsWithSlash (pat : string) : bool :=
  match String.rev pat with
  | String c _ => (c =? "/")%char
  | EmptyString => false
  end.

(** The handler [Mount] registers: it hands the request to the mounted
    handler, with the rest of the path as the path to route. *)
Definition mountHandler (handler : HandlerFunc) : HandlerFunc :=
  fun w r =>
    let rctx := default (Context.mk EmptyString EmptyString) (Request.RouteCtx r) in
    handler w (WithContext (Context.mk (nextRoutePath rctx) EmptyString) r).

(** [mx.Mount(pattern, handler)]: the handler answers, for every method,
    [pattern], [pattern/] and everything below. *)
Definition Mount (pat : string) (handler : HandlerFunc) (mx : Mux) : Mux :=
  let '(mx, pat) :=
    if endsWithSlash pat then (mx, pat)
    else (handle mALL (pat ++ "/") (mountHandler handler)
                 (handle mALL pat (mountHandler handler) mx),
          pat ++ "/") in
  handle mALL (pat ++ "*") (mountHandler handler) mx.

End chi.

(** [middleware.Logger]: writes one line per request to the log and passes
    request and response on untouched. *)
Module middleware.
Definition Logger (next : http.HandlerFunc) : http.HandlerFunc := fun w r => next w r.
End middleware.

(** ** Package routes *)

Module routes.
Import http.

(** The package-level variables [GetPosts] and [CreatePost]: the two
    upstream calls, late bound so that a test can install a fixture. *)
Record Package : Type := mkPackage {
  GetPosts : unit -> exec (result Response.t);
  CreatePost : string -> exec (result Response.t)
}.

(** *** The fixtures of posts_test.go *)

Module JsonPlaceholderMock.

(** The method [GetPosts] of [*JsonPlaceholderMock]. *)
Definition GetPosts (_ : unit) : exec (result Response.t) :=
  let mockedPosts := [ Post.mk 1 2 "Hello World" "Foo Bar" ] in
  match json.Marshal_Posts mockedPosts with
  | Err err => Panic (Panicf "Error reading mocked response data: %v" err)
  | Ok respBody => Done (Ok (Response.mk StatusOK respBody))
  end.

(** The method [CreatePost] of [*JsonPlaceholderMock]: [buffer.ReadFrom(body)] reads
    the whole stream, so [buffer.Bytes()] is [body]. *)
Definition CreatePost (body : string) : exec (result Response.t) :=
  let buffer := body in
  match json.Unmarshal_PostWithoutId buffer with
  | Err err => Panic (Panicf "Error decoding request body: %v" err)
  | Ok reqPost =>
      let newPost :=
        Post.mk 101 (PostWithoutId.UserId reqPost) (PostWithoutId.Title reqPost)
                (PostWithoutId.Body reqPost) in
      match json.Marshal_Post newPost with
      | Err err => Panic (Panicf "Error reading mocked response data: %v" err)
      | Ok respBody => Done (Ok (Response.mk StatusOK respBody))
      end
  end.

End JsonPlaceholderMock.

(** *** The handlers *)

Module PostsResource.

(** Modelled from the spec: [PostsResource.List] (routes/posts.go is not
    among the sources).  The handler calls the upstream [GetPosts], reads
    the body of its response, decodes it as a sequence of [Post] records
    to check that it is well formed, and writes the body to the client
    under the upstream status code with a JSON content type.  A transport
    error of the upstream call and a body that does not decode are
    answered with a 5xx status; 500 is taken. *)
Definition List (pkg : Package) : HandlerFunc :=
  fun w _ =>
    up ← GetPosts pkg tt;
    match up with
    | Err _ => Error w "upstream request failed" StatusInternalServerError
    | Ok resp =>
        match json.Unmarshal_Posts (Response.Body resp) with
        | Err _ => Error w "malformed upstream response" StatusInternalServerError
        | Ok _ =>
            let w := SetHeader "Content-Type" "application/json" w in
            w ← WriteHeader (Response.StatusCode resp) w;
            Write (Response.Body resp) w
        end
    end.

(** Modelled from the spec: [PostsResource.Create] (routes/posts.go is
    not among the sources).  The handler reads the request body, decodes
    it into [PostWithoutId], forwards the bytes to the upstream
    [CreatePost], decodes the created [Post] from the response and writes
    it, encoded again, with status 200.  A request body that does not
    decode is answered with a 400-class status (400 is taken), an
    upstream failure with a 5xx status (500 is taken). *)
Definition Create (pkg : Package) : HandlerFunc :=
  fun w r =>
    match json.Unmarshal_PostWithoutId (Request.Body r) with
    | Err _ => Error w "malformed request body" StatusBadRequest
    | Ok _ =>
        up ← CreatePost pkg (Request.Body r);
        match up with
        | Err _ => Error w "upstream request failed" StatusInternalServerError
        | Ok resp =>
            match json.Unmarshal_Post (Response.Body resp) with
            | Err _ => Error w "malformed upstream response" StatusInternalServerError
            | Ok post =>
                match json.Marshal_Post post with
                | Err _ => Error w "encoding failed" StatusInternalServerError
                | Ok out =>
                    let w := SetHeader "Content-Type" "application/json" w in
                    w ← WriteHeader StatusOK w;
                    Write out w
                end
            end
        end
    end.

(** Modelled from the spec: [PostsResource.Routes] (routes/posts.go is
    not among the sources): a router with [GET /] bound to [List] and
    [POST /] bound to [Create], relative to the mount point. *)
Definition Routes (pkg : Package) : chi.Mux :=
  let r := chi.NewRouter in
  let r := chi.Get "/" (List pkg) r in
  let r := chi.Post "/" (Create pkg) r in
  r.

End PostsResource.

(** *** The tests of posts_test.go *)

(** A test yields the package variables as it leaves them and the messages
    it reported with [t.Errorf]; it passes when there is none. *)

(** [TestGetPostsHandler]. *)
Definition TestGetPostsHandler (pkg : Package) : exec (Package * list string) :=
  let pkg := mkPackage JsonPlaceholderMock.GetPosts (CreatePost pkg) in
  let req := NewRequest "GET" "/posts" EmptyString in
  let rr := NewRecorder in
  rr ← PostsResource.List pkg rr req;
  let e1 :=
    if negb (ResponseRecorder.Code rr =? StatusOK)
    then ["Handler returned wrong status code. Expected: %d. Got: %d."] else [] in
  let '(posts, e2) :=
    match json.Decode_Posts (ResponseRecorder.Body rr) with
    | Err _ => ([], ["Error decoding response body: %v"])
    | Ok posts => (posts, [])
    end in
  let resultTotal := Z.of_nat (List.length posts) in
  let expectedTotal := 1 in
  let e3 := if negb (resultTotal =? expectedTotal) then ["Expected: %d. Got: %d."] else [] in
  Done (pkg, (e1 ++ e2 ++ e3)%list).

(** [TestCreatePost]. *)
Definition TestCreatePost (pkg : Package) : exec (Package * list string) :=
  let pkg := mkPackage (GetPosts pkg) JsonPlaceholderMock.CreatePost in
  let postWithoutId := PostWithoutId.mk 1 "Hello World" "Foo Bar" in
  match json.Marshal_PostWithoutId postWithoutId with
  | Err err => Panic (Panicf "Error reading mocked request data: %v" err)
  | Ok reqBody =>
      let req := NewRequest "POST" "/posts" reqBody in
      let req := SetRequestHeader "Content-Type" "application/json" req in
      let rr := NewRecorder in
      rr ← PostsResource.Create pkg rr req;
      let e1 :=
        if negb (ResponseRecorder.Code rr =? StatusOK)
        then ["Handler returned wrong status code. Expected: %d. Got: %d."] else [] in
      let '(post, e2) :=
        match json.Decode_Post (ResponseRecorder.Body rr) with
        | Err _ => (Post.zero, ["Error decoding response body: %v"])
        | Ok post => (post, [])
        end in
      let resultId := Post.Id post in
      let expectedId := 101 in
      let e3 := if negb (resultId =? expectedId) then ["Expected: %d. Got: %d."] else [] in
      Done (pkg, (e1 ++ e2 ++ e3)%list)
  end.

End routes.

(** ** Package main *)

Module os.
(** [os.Getenv]: the value of the variable, empty when it is not set. *)
Definition Getenv (env : gmap string string) (k : string) : string :=
  default EmptyString (env !! k).
End os.

(** What [main] hands to [http.ListenAndServe]: the address and the
    handler. *)
Record Server : Type := mkServer {
  Addr : string;
  Handler : chi.Mux
}.

(** The port [main] selects. *)
Definition port_of (env : gmap string string) : string :=
  let port := "8080" in
  let fromEnv := os.Getenv env "PORT" in
  if negb (fromEnv =? "")%string then fromEnv else port.

(** [main]: the line it logs and the server it starts.  [pkg] holds the
    upstream calls of package routes. *)
Definition main (pkg : routes.Package) (env : gmap string string) : string * Server :=
  let port := port_of env in
  let logged := "Starting up on http://localhost:" ++ port in
  let r := chi.NewRouter in
  let r := chi.Use middleware.Logger r in
  let r := chi.Get "/" (fun w _ => http.Write "Hello World!" w) r in
  let r := chi.Mount "/posts" (chi.ServeHTTP (routes.PostsResource.Routes pkg)) r in
  (logged, mkServer (":" ++ port) r).

(** One request served: the handler runs on a fresh response writer and on
    the request as it came in, without routing context. *)
Definition serve (srv : Server) (method path : string) (header : gmap string string)
    (body : string) : exec http.ResponseRecorder.t :=
  chi.ServeHTTP (Handler srv) http.NewRecorder
    (http.Request.mk method path header body None).


(** ** Response bodies as readers *)

(** The upstream calls return an [*http.Response] whose [Body] is a reader
    over a buffer, and reading consumes it.  [routes.Package] holds a call
    by what a handler has after it read the body to the end; the
    definitions below derive that from the call itself, run on the buffers
    of the process, so that requests served one after the other share
    them. *)

Module bytes.

(** [bytes.Buffer]: its bytes and the number of them already read. *)
Record Buffer : Type := mkBuffer { buf : string; off : nat }.

(** [bytes.NewBuffer(b)]. *)
Definition NewBuffer (b : string) : Buffer := mkBuffer b 0.

(** [Buffer.Bytes]: the bytes not read yet. *)
Definition Bytes (b : Buffer) : string :=
  substring (off b) (String.length (buf b) - off b) (buf b).

(** Reading to the end: the unread bytes, and the buffer with nothing
    left to read. *)
Definition ReadAll (b : Buffer) : string * Buffer :=
  (Bytes b, mkBuffer (buf b) (String.length (buf b))).

End bytes.

Module stream.
Import http.

(** The buffers the process has allocated; a reader is the index of its
    buffer. *)
Definition Heap : Type := list bytes.Buffer.

(** [*http.Response] with the reader of its body. *)
Record Response : Type := mkResponse { StatusCode : Z; Body : nat }.

(** An upstream call on the buffers of the process. *)
Definition Call : Type := Heap -> exec (result Response * Heap).

(** [io.ReadAll(resp.Body)]. *)
Definition ReadAll (h : Heap) (r : nat) : string * Heap :=
  match h !! r with
  | Some b => let '(s, b') := bytes.ReadAll b in (s, <[r := b']> h)
  | None => (EmptyString, h)
  end.

(** What a handler has after it called [up] and read the body of the
    response to the end, in the form [routes.Package] holds it, and the
    buffers as the call and the reading leave them. *)
Definition received (up : Call) (h : Heap) : exec (result http.Response.t) * Heap :=
  match up h with
  | Panic p => (Panic p, h)
  | Done (Err e, h') => (Done (Err e), h')
  | Done (Ok resp, h') =>
      let '(s, h'') := ReadAll h' (Body resp) in
      (Done (Ok (http.Response.mk (StatusCode resp) s)), h'')
  end.

Module JsonPlaceholderMock.

(** The method [GetPosts] of [*JsonPlaceholderMock] with the reader it
    returns: [io.NopCloser(bytes.NewBuffer(respBody))] is a new buffer
    at every call. *)
Definition GetPosts : Call := fun h =>
  let mockedPosts := [ Post.mk 1 2 "Hello World" "Foo Bar" ] in
  match json.Marshal_Posts mockedPosts with
  | Err err => Panic (Panicf "Error reading mocked response data: %v" err)
  | Ok respBody =>
      let body := List.length h in
      Done (Ok (mkResponse StatusOK body), (h ++ [bytes.NewBuffer respBody])%list)
  end.

End JsonPlaceholderMock.

(** Modelled from the spec: a GET request to /posts served by the process
    of [main] on the buffers [h], with [up] installed in the package
    variable [GetPosts] and [cp] in [CreatePost].  The handler
    [PostsResource.List] (routes/posts.go is not among the sources) makes
    the upstream call once and reads the body it gets; the result is the
    response and the buffers the next request finds. *)
Definition GET_posts (env : gmap string string) (up : Call)
    (cp : string -> exec (result http.Response.t))
    (header : gmap string string) (body : string) (h : Heap)
  : exec http.ResponseRecorder.t * Heap :=
  let '(res, h') := received up h in
  (serve (snd (main (routes.mkPackage (fun _ => res) cp) env)) "GET" "/posts" header body, h').

End stream.

(** * Specification *)

(** ** Predicates the statements and proofs use *)

(** Well-formed UTF-8, as an inductive predicate: a sequence of ASCII bytes
    and of encodings of scalar values outside ASCII.  It agrees with
    [utf8.ValidString] (lemmas [ValidString_wf] and [wf_ValidString]). *)
Inductive wf_utf8 : string -> Prop :=
| wf_nil : wf_utf8 EmptyString
| wf_ascii c s : code c < 0x80 -> wf_utf8 s -> wf_utf8 (String c s)
| wf_rune r s :
    utf8.scalar r -> 0x80 <= r -> wf_utf8 s -> wf_utf8 (utf8.EncodeRune r ++ s).

(** The byte sequences of two, three and four bytes that [utf8.DecodeRune]
    accepts, and the runes they stand for. *)
Definition ok2 (p0 b1 : Z) : Prop := 0xC2 <= p0 < 0xE0 /\ 0x80 <= b1 <= 0xBF.
Definition ok3 (p0 b1 b2 : Z) : Prop :=
  0xE0 <= p0 < 0xF0 /\ 0x80 <= b1 <= 0xBF /\ (p0 = 0xE0 -> 0xA0 <= b1) /\
  (p0 = 0xED -> b1 <= 0x9F) /\ 0x80 <= b2 <= 0xBF.
Definition ok4 (p0 b1 b2 b3 : Z) : Prop :=
  0xF0 <= p0 <= 0xF4 /\ 0x80 <= b1 <= 0xBF /\ (p0 = 0xF0 -> 0x90 <= b1) /\
  (p0 = 0xF4 -> b1 <= 0x8F) /\ 0x80 <= b2 <= 0xBF /\ 0x80 <= b3 <= 0xBF.
Definition val2 (p0 b1 : Z) : Z := (p0 - 0xC0) * 64 + (b1 - 0x80).
Definition val3 (p0 b1 b2 : Z) : Z := (p0 - 0xE0) * 4096 + (b1 - 0x80) * 64 + (b2 - 0x80).
Definition val4 (p0 b1 b2 b3 : Z) : Z :=
  (p0 - 0xF0) * 262144 + (b1 - 0x80) * 4096 + (b2 - 0x80) * 64 + (b3 - 0x80).

(** A string of decimal digits. *)
Fixpoint all_digits (s : string) : bool :=
  match s with
  | EmptyString => true
  | String c r => strconv.isDigit c && all_digits r
  end.

(** The bytes that follow a value inside an array or an object. *)
Definition closer (c : ascii) : Prop := c = ","%char \/ c = "}"%char \/ c = "]"%char.

(** A record that [Marshal] prints without loss: its integers are in the
    range of [int] and its strings are valid UTF-8. *)
Definition wf_Post (p : Post.t) : Prop :=
  int64_range (Post.Id p) /\ int64_range (Post.UserId p) /\
  utf8.ValidString (Post.Title p) = true /\ utf8.ValidString (Post.Body p) = true.

Definition wf_PostWithoutId (p : PostWithoutId.t) : Prop :=
  int64_range (PostWithoutId.UserId p) /\
  utf8.ValidString (PostWithoutId.Title p) = true /\
  utf8.ValidString (PostWithoutId.Body p) = true.

(** The same with the inductive predicate. *)
Definition wfp_Post (p : Post.t) : Prop :=
  int64_range (Post.Id p) /\ int64_range (Post.UserId p) /\
  wf_utf8 (Post.Title p) /\ wf_utf8 (Post.Body p).

Definition wfp_PostWithoutId (p : PostWithoutId.t) : Prop :=
  int64_range (PostWithoutId.UserId p) /\
  wf_utf8 (PostWithoutId.Title p) /\ wf_utf8 (PostWithoutId.Body p).

(** The JSON value [json.encode_Post] denotes. *)
Definition value_of_Post (p : Post.t) : json.value :=
  json.Object [ ("Id", json.Number (strconv.FormatInt (Post.Id p)));
                ("UserId", json.Number (strconv.FormatInt (Post.UserId p)));
                ("Title", json.Str (Post.Title p));
                ("Body", json.Str (Post.Body p)) ].

(** The strings directly inside a value are valid UTF-8. *)
Definition member_ok (kv : string * json.value) : Prop :=
  match snd kv with
  | json.Str x => wf_utf8 x
  | _ => True
  end.

Definition value_ok (v : json.value) : Prop :=
  match v with
  | json.Str x => wf_utf8 x
  | json.Object ms => Forall member_ok ms
  | _ => True
  end.

(** ** The objects the claims speak of *)

(** The package variables with both fixtures installed. *)
Definition mock : routes.Package :=
  routes.mkPackage routes.JsonPlaceholderMock.GetPosts routes.JsonPlaceholderMock.CreatePost.

(** The request body of [TestCreatePost]:
    [json.Marshal(PostWithoutId{UserId: 1, Title: "Hello World", Body: "Foo Bar"})]. *)
Definition testReqBody : string :=
  json.encode_PostWithoutId (PostWithoutId.mk 1 "Hello World" "Foo Bar").

(** The paths under which [main] registers a route: the root, and the mount
    point of the posts resource with and without a final slash. *)
Definition registered (path : string) : bool :=
  (path =? "/")%string || (path =? "/posts")%string || (path =? "/posts/")%string.

(** The field of [PostWithoutId] an object key addresses, by its name. *)
Definition fieldName (k : string) : option string :=
  json.findField (map (fun nf => (fst nf, fst nf)) json.fields_PostWithoutId) k.

(** No member of the object addresses the field [name]. *)
Definition missing (name : string) (ms : list (string * json.value)) : bool :=
  forallb (fun kv => negb (bool_decide (fieldName (fst kv) = Some name))) ms.

(** A request that names an Id of its own. *)
Definition bodyWithId : string :=
  "{" ++ json.key "Id" ++ "7," ++ json.key "UserId" ++ "1}".

(** An object whose only member gives UserId a string. *)
Definition bodyBadUserId : string :=
  "{" ++ json.key "UserId" ++ json.appendString "abc" ++ "}".

(** An object with a Title only, under a key in lower case. *)
Definition bodyTitleOnly : string :=
  "{" ++ json.key "title" ++ json.appendString "Hello" ++ "}".

(** ** Further objects of the statements *)

(** The record the fixture [CreatePost] builds from a decoded request. *)
Definition created (p : PostWithoutId.t) : Post.t :=
  Post.mk 101 (PostWithoutId.UserId p) (PostWithoutId.Title p) (PostWithoutId.Body p).

(** What a [PostWithoutId] has in common with a [Post]. *)
Definition withoutId (p : Post.t) : PostWithoutId.t :=
  PostWithoutId.mk (Post.UserId p) (Post.Title p) (Post.Body p).

(** The JSON value [json.encode_PostWithoutId] denotes. *)
Definition value_of_PostWithoutId (p : PostWithoutId.t) : json.value :=
  json.Object [ ("UserId", json.Number (strconv.FormatInt (PostWithoutId.UserId p)));
                ("Title", json.Str (PostWithoutId.Title p));
                ("Body", json.Str (PostWithoutId.Body p)) ].

(** A member whose key addresses a field of [PostWithoutId] and whose value
    the field cannot hold. *)
Definition mismatch (kv : string * json.value) : bool :=
  match fieldName (fst kv) with
  | Some name =>
      if (name =? "UserId")%string
      then match json.store_int (snd kv) 0 with None => true | Some _ => false end
      else match json.store_string (snd kv) EmptyString with None => true | Some _ => false end
  | None => false
  end.

(** A value that is neither an object nor [null]. *)
Definition notStruct (v : json.value) : bool :=
  match v with
  | json.Object _ | json.Null => false
  | _ => true
  end.

(** The members of a request that address a field of [PostWithoutId], in
    their order; [null] stands for no member, and a value that is neither an
    object nor [null] has none to offer. *)
Definition addresses (kv : string * json.value) : bool :=
  match fieldName (fst kv) with
  | Some _ => true
  | None => false
  end.

Definition addressed (v : json.value) : option (list (string * json.value)) :=
  match v with
  | json.Object ms => Some (List.filter addresses ms)
  | json.Null => Some []
  | _ => None
  end.

(** An ASCII letter in upper case; any other byte as it is. *)
Definition upper_byte (c : ascii) : ascii :=
  let n := nat_of_ascii c in
  if ((97 <=? n) && (n <=? 122))%nat then ascii_of_nat (n - 32) else c.

(** A string with its ASCII letters in upper case. *)
Fixpoint upper (s : string) : string :=
  match s with
  | EmptyString => EmptyString
  | String c r => String (upper_byte c) (upper r)
  end.

(** A string of ASCII bytes. *)
Fixpoint is_ascii (s : string) : bool :=
  match s with
  | EmptyString => true
  | String c r => (code c <? 0x80) && is_ascii r
  end.

(** The answer of [http.NotFound] on a fresh response writer. *)
Definition notFoundResponse : http.ResponseRecorder.t :=
  http.ResponseRecorder.mk http.StatusNotFound
    (<["X-Content-Type-Options" := "nosniff"]>
       (<["Content-Type" := "text/plain; charset=utf-8"]> ∅))
    ("404 page not found" ++ http.newline) true.

(** * Proofs *)

#[local] Arguments String.append !_ _ / : simpl nomatch.

(** ** Bytes and bit operations; UTF-8 *)

Lemma code_range c : 0 <= code c < 256.
Proof.
  unfold code. pose proof (N_ascii_bounded c). lia.
Qed.

Lemma chr_code c : chr (code c) = c.
Proof.
  unfold chr, code. rewrite N2Z.id. apply ascii_N_embedding.
Qed.

Lemma code_chr z : 0 <= z < 256 -> code (chr z) = z.
Proof.
  intros H. unfold chr, code. rewrite N_ascii_embedding by lia. lia.
Qed.

Lemma code_inj c d : code c = code d -> c = d.
Proof.
  intros H. rewrite <- (chr_code c), <- (chr_code d). now rewrite H.
Qed.

Lemma land_pow2_low x b k :
  0 <= k -> x mod 2 ^ k = 0 -> 0 <= b < 2 ^ k -> Z.land x b = 0.
Proof.
  intros Hk Hx Hb. apply Z.bits_inj'. intros n Hn.
  rewrite Z.land_spec, Z.bits_0.
  destruct (Z.lt_ge_cases n k) as [Hlt | Hge].
  - apply Z.mod_divide in Hx; [|lia]. destruct Hx as [q ->].
    rewrite Z.mul_pow2_bits_low by lia. reflexivity.
  - destruct (Z.eq_dec b 0) as [-> | Hb0].
    + rewrite Z.bits_0. apply andb_false_r.
    + assert (Hl : Z.log2 b < k) by (apply Z.log2_lt_pow2; lia).
      rewrite (Z.bits_above_log2 b n) by lia.
      apply andb_false_r.
Qed.

Lemma lor_disjoint x b k :
  0 <= k -> x mod 2 ^ k = 0 -> 0 <= b < 2 ^ k -> Z.lor x b = x + b.
Proof.
  intros Hk Hx Hb. rewrite <- Z.add_lor_land.
  rewrite (land_pow2_low x b k) by assumption. lia.
Qed.

Lemma land_mask x k : 0 <= k -> Z.land x (2 ^ k - 1) = x mod 2 ^ k.
Proof.
  intros Hk. rewrite <- Z.land_ones by lia. rewrite Z.ones_equiv. reflexivity.
Qed.

Import utf8.

Ltac dlia := Z.div_mod_to_equations; lia.

Lemma lor_add8 x b : x mod 8 = 0 -> 0 <= b < 8 -> Z.lor x b = x + b.
Proof. apply (lor_disjoint x b 3). lia. Qed.
Lemma lor_add16 x b : x mod 16 = 0 -> 0 <= b < 16 -> Z.lor x b = x + b.
Proof. apply (lor_disjoint x b 4). lia. Qed.
Lemma lor_add32 x b : x mod 32 = 0 -> 0 <= b < 32 -> Z.lor x b = x + b.
Proof. apply (lor_disjoint x b 5). lia. Qed.
Lemma lor_add64 x b : x mod 64 = 0 -> 0 <= b < 64 -> Z.lor x b = x + b.
Proof. apply (lor_disjoint x b 6). lia. Qed.

Lemma lor_add4096 x b : x mod 4096 = 0 -> 0 <= b < 4096 -> Z.lor x b = x + b.
Proof. apply (lor_disjoint x b 12). lia. Qed.
Lemma lor_add262144 x b : x mod 262144 = 0 -> 0 <= b < 262144 -> Z.lor x b = x + b.
Proof. apply (lor_disjoint x b 18). lia. Qed.

Ltac bits :=
  unfold t2, t3, t4, tx, maskx, mask2, mask3, mask4, locb, hicb, to_byte in *;
  change 0x3F with (2 ^ 6 - 1) in *;
  change 0x1F with (2 ^ 5 - 1) in *;
  change 0x0F with (2 ^ 4 - 1) in *;
  change 0x07 with (2 ^ 3 - 1) in *;
  rewrite ?land_mask in * by lia;
  rewrite ?Z.shiftl_mul_pow2, ?Z.shiftr_div_pow2 in * by lia;
  change (2 ^ 3) with 8 in *; change (2 ^ 4) with 16 in *;
  change (2 ^ 5) with 32 in *; change (2 ^ 6) with 64 in *;
  change (2 ^ 12) with 4096 in *; change (2 ^ 18) with 262144 in *.

Ltac bytes_eq :=
  repeat match goal with
         | |- String _ _ = String _ _ => apply (f_equal2 String)
         | |- chr _ = chr _ => apply (f_equal chr)
         end; try reflexivity; try dlia.

Lemma mod32_small r : 0 <= r < 2 ^ 32 -> r mod 2 ^ 32 = r.
Proof. intros. apply Z.mod_small. lia. Qed.

(** EncodeRune in arithmetic form. *)
Lemma EncodeRune_1 r : 0 <= r <= 0x7F -> EncodeRune r = String (chr r) EmptyString.
Proof.
  intros H. unfold EncodeRune. rewrite mod32_small by lia.
  unfold rune1Max. destruct (Z.leb_spec r 0x7F); [|lia].
  unfold to_byte. rewrite Z.mod_small by lia. reflexivity.
Qed.

Lemma EncodeRune_2 r : 0x80 <= r <= 0x7FF ->
  EncodeRune r = String (chr (0xC0 + r / 64)) (String (chr (0x80 + r mod 64)) EmptyString).
Proof.
  intros H. unfold EncodeRune. rewrite mod32_small by lia.
  unfold rune1Max, rune2Max.
  destruct (Z.leb_spec r 0x7F); [lia|]. destruct (Z.leb_spec r 0x7FF); [|lia].
  bits. rewrite (lor_add32 192) by dlia. rewrite (lor_add64 128) by dlia.
  bytes_eq.
Qed.

Lemma encode3_arith r : 0x800 <= r <= 0xFFFF ->
  encode3 r = String (chr (0xE0 + r / 4096))
             (String (chr (0x80 + (r / 64) mod 64))
             (String (chr (0x80 + r mod 64)) EmptyString)).
Proof.
  intros H. unfold encode3. bits.
  rewrite (lor_add16 224) by dlia. rewrite !(lor_add64 128) by dlia.
  bytes_eq.
Qed.

Lemma EncodeRune_3 r : 0x800 <= r <= 0xFFFF -> ~ (0xD800 <= r <= 0xDFFF) ->
  EncodeRune r = String (chr (0xE0 + r / 4096))
                (String (chr (0x80 + (r / 64) mod 64))
                (String (chr (0x80 + r mod 64)) EmptyString)).
Proof.
  intros H Hs. unfold EncodeRune. rewrite mod32_small by lia.
  unfold rune1Max, rune2Max, rune3Max, MaxRune, surrogateMin, surrogateMax.
  destruct (Z.leb_spec r 0x7F); [lia|]. destruct (Z.leb_spec r 0x7FF); [lia|].
  destruct (Z.ltb_spec 0x10FFFF r); [lia|].
  destruct (Z.leb_spec 0xD800 r); destruct (Z.leb_spec r 0xDFFF); try lia; simpl;
    (destruct (Z.leb_spec r 0xFFFF); [|lia]); apply encode3_arith; lia.
Qed.

Lemma EncodeRune_4 r : 0x10000 <= r <= 0x10FFFF ->
  EncodeRune r = String (chr (0xF0 + r / 262144))
                (String (chr (0x80 + (r / 4096) mod 64))
                (String (chr (0x80 + (r / 64) mod 64))
                (String (chr (0x80 + r mod 64)) EmptyString))).
Proof.
  intros H. unfold EncodeRune. rewrite mod32_small by lia.
  unfold rune1Max, rune2Max, rune3Max, MaxRune, surrogateMin, surrogateMax.
  destruct (Z.leb_spec r 0x7F); [lia|]. destruct (Z.leb_spec r 0x7FF); [lia|].
  destruct (Z.ltb_spec 0x10FFFF r); [lia|].
  destruct (Z.leb_spec 0xD800 r); destruct (Z.leb_spec r 0xDFFF); try lia; simpl;
    (destruct (Z.leb_spec r 0xFFFF); [lia|]);
    bits; rewrite (lor_add8 240) by dlia; rewrite !(lor_add64 128) by dlia;
    bytes_eq.
Qed.

Lemma EncodeRune_bad r : 0 <= r < 2 ^ 32 -> 0x10FFFF < r \/ 0xD800 <= r <= 0xDFFF ->
  EncodeRune r = EncodeRune RuneError.
Proof.
  intros H Hs. unfold EncodeRune at 1. rewrite mod32_small by lia.
  unfold rune1Max, rune2Max, rune3Max, MaxRune, surrogateMin, surrogateMax.
  destruct (Z.leb_spec r 0x7F); [lia|]. destruct (Z.leb_spec r 0x7FF); [lia|].
  destruct (Z.ltb_spec 0x10FFFF r); [reflexivity|].
  destruct (Z.leb_spec 0xD800 r); destruct (Z.leb_spec r 0xDFFF); try lia.
  reflexivity.
Qed.

Lemma first_cases p0 :
  0 <= p0 < 256 ->
  (p0 < 0x80 /\ first p0 = as_) \/
  ((0x80 <= p0 < 0xC2 \/ 0xF5 <= p0) /\ first p0 = xx) \/
  (0xC2 <= p0 < 0xE0 /\ first p0 = sz 2 0x80 0xBF) \/
  (p0 = 0xE0 /\ first p0 = sz 3 0xA0 0xBF) \/
  ((0xE1 <= p0 < 0xED \/ 0xEE <= p0 < 0xF0) /\ first p0 = sz 3 0x80 0xBF) \/
  (p0 = 0xED /\ first p0 = sz 3 0x80 0x9F) \/
  (p0 = 0xF0 /\ first p0 = sz 4 0x90 0xBF) \/
  (0xF1 <= p0 < 0xF4 /\ first p0 = sz 4 0x80 0xBF) \/
  (p0 = 0xF4 /\ first p0 = sz 4 0x80 0x8F).
Proof.
  intros H. unfold first, locb, hicb.
  repeat match goal with
         | |- context [if ?a <? ?b then _ else _] => destruct (Z.ltb_spec a b)
         | |- context [if ?a =? ?b then _ else _] => destruct (Z.eqb_spec a b)
         end;
  let rec pick :=
    first [ split; [lia | reflexivity]
          | left; split; [lia | reflexivity]
          | right; pick ] in
  pick.
Qed.

Lemma DecodeRune_ascii c r : code c < 0x80 -> DecodeRune (String c r) = (code c, 1%nat).
Proof.
  intros H. unfold DecodeRune.
  destruct (first_cases (code c) (code_range c)) as [[_ ->] | H']; [reflexivity|].
  exfalso. decompose [or and] H'; lia.
Qed.

Ltac first_case p0 :=
  let H := fresh "Hf" in
  let R := fresh "Hr" in
  destruct (first_cases p0) as [[R H] | [[R H] | [[R H] | [[R H] | [[R H] | [[R H] | [[R H] | [[R H] | [R H]]]]]]]]];
  [ try dlia | try (exfalso; dlia) .. ].

Ltac cmp_cases :=
  repeat match goal with
         | |- context [?a <? ?b] => destruct (Z.ltb_spec a b); try (exfalso; dlia)
         | |- context [?a <=? ?b] => destruct (Z.leb_spec a b); try (exfalso; dlia)
         | |- context [?a =? ?b] => destruct (Z.eqb_spec a b); try (exfalso; dlia)
         end.

Lemma DecodeRune_2 c0 c1 rest :
  0xC2 <= code c0 < 0xE0 -> 0x80 <= code c1 <= 0xBF ->
  DecodeRune (String c0 (String c1 rest)) = ((code c0 - 0xC0) * 64 + (code c1 - 0x80), 2%nat).
Proof.
  intros H0 H1. unfold DecodeRune.
  pose proof (code_range c0). first_case (code c0).
  rewrite Hf. cbn [String.length Nat.ltb Nat.leb].
  cmp_cases. cbn [orb Nat.leb].
  f_equal. bits. rewrite (lor_add64 _ (code c1 mod 64)) by dlia. dlia.
Qed.

Lemma DecodeRune_3 c0 c1 c2 rest :
  ok3 (code c0) (code c1) (code c2) ->
  DecodeRune (String c0 (String c1 (String c2 rest)))
  = (val3 (code c0) (code c1) (code c2), 3%nat).
Proof.
  unfold ok3, val3. intros H. unfold DecodeRune.
  pose proof (code_range c0). first_case (code c0);
  rewrite Hf; cbn [String.length Nat.ltb Nat.leb]; unfold locb, hicb;
  cmp_cases; cbn [orb Nat.leb];
  f_equal; bits;
  rewrite (lor_add4096 (_ * 4096) (_ * 64)) by dlia;
  rewrite (lor_add64 _ (code c2 mod 64)) by dlia; dlia.
Qed.

Lemma DecodeRune_4 c0 c1 c2 c3 rest :
  ok4 (code c0) (code c1) (code c2) (code c3) ->
  DecodeRune (String c0 (String c1 (String c2 (String c3 rest))))
  = (val4 (code c0) (code c1) (code c2) (code c3), 4%nat).
Proof.
  unfold ok4, val4. intros H. unfold DecodeRune.
  pose proof (code_range c0). first_case (code c0);
  rewrite Hf; cbn [String.length Nat.ltb Nat.leb]; unfold locb, hicb;
  cmp_cases; cbn [orb Nat.leb];
  f_equal; bits;
  rewrite (lor_add262144 (_ * 262144) (_ * 4096)) by dlia;
  rewrite (lor_add4096 _ (_ * 64)) by dlia;
  rewrite (lor_add64 _ (code c3 mod 64)) by dlia; dlia.
Qed.

Ltac three_bytes :=
  match goal with
  | |- context [String ?c1 ?r1] =>
      destruct r1 as [|?c2 ?r2]; [left; reflexivity|];
      cbn [String.length Nat.ltb Nat.leb];
      cmp_cases; cbn [orb]; try (left; reflexivity);
      right; right; left; do 3 eexists; split; [reflexivity|]; unfold ok3; lia
  end.

Ltac four_bytes :=
  match goal with
  | |- context [String ?c1 ?r1] =>
      destruct r1 as [|?c2 [|?c3 ?r3]]; [left; reflexivity| |];
      cbn [String.length Nat.ltb Nat.leb];
      cmp_cases; cbn [orb]; try (left; reflexivity);
      right; right; right; do 4 eexists; split; [reflexivity|]; unfold ok4; lia
  end.

(** What [DecodeRune] returns on a first byte outside ASCII. *)
Lemma DecodeRune_inv c0 r0 :
  0x80 <= code c0 ->
  DecodeRune (String c0 r0) = (RuneError, 1%nat) \/
  (exists c1 rest, r0 = String c1 rest /\ ok2 (code c0) (code c1)) \/
  (exists c1 c2 rest, r0 = String c1 (String c2 rest) /\ ok3 (code c0) (code c1) (code c2)) \/
  (exists c1 c2 c3 rest, r0 = String c1 (String c2 (String c3 rest)) /\
                         ok4 (code c0) (code c1) (code c2) (code c3)).
Proof.
  intros H0. unfold DecodeRune.
  pose proof (code_range c0).
  first_case (code c0); rewrite Hf; try (left; reflexivity).
  all: destruct r0 as [|c1 r1]; [left; reflexivity|].
  all: cbn [String.length Nat.ltb Nat.leb]; unfold locb, hicb.
  all: pose proof (code_range c1).
  - (* two bytes *)
    cmp_cases; cbn [orb]; try (left; reflexivity).
    right; left. exists c1, r1. split; [reflexivity|]. unfold ok2. lia.
  - three_bytes.
  - three_bytes.
  - three_bytes.
  - four_bytes.
  - four_bytes.
  - four_bytes.
Qed.

Lemma chr_eq z c : z = code c -> chr z = c.
Proof. intros ->. apply chr_code. Qed.

Ltac chars_eq :=
  repeat match goal with
         | |- String _ _ = String _ _ => apply (f_equal2 String)
         | |- chr _ = _ => apply chr_eq
         end; try reflexivity; try dlia.

Lemma EncodeRune_val2 c0 c1 :
  ok2 (code c0) (code c1) ->
  EncodeRune (val2 (code c0) (code c1)) = String c0 (String c1 EmptyString)
  /\ 0x80 <= val2 (code c0) (code c1) <= 0x7FF.
Proof.
  unfold ok2, val2. intros H. split; [|dlia].
  rewrite EncodeRune_2 by dlia. chars_eq.
Qed.

Lemma EncodeRune_val3 c0 c1 c2 :
  ok3 (code c0) (code c1) (code c2) ->
  EncodeRune (val3 (code c0) (code c1) (code c2))
  = String c0 (String c1 (String c2 EmptyString))
  /\ 0x800 <= val3 (code c0) (code c1) (code c2) <= 0xFFFF
  /\ ~ (0xD800 <= val3 (code c0) (code c1) (code c2) <= 0xDFFF).
Proof.
  unfold ok3, val3. intros H.
  assert (Hr : 0x800 <= (code c0 - 224) * 4096 + (code c1 - 128) * 64 + (code c2 - 128) <= 0xFFFF
          /\ ~ (0xD800 <= (code c0 - 224) * 4096 + (code c1 - 128) * 64 + (code c2 - 128) <= 0xDFFF))
    by lia.
  split; [|exact Hr].
  rewrite EncodeRune_3 by tauto. chars_eq.
Qed.

Lemma EncodeRune_val4 c0 c1 c2 c3 :
  ok4 (code c0) (code c1) (code c2) (code c3) ->
  EncodeRune (val4 (code c0) (code c1) (code c2) (code c3))
  = String c0 (String c1 (String c2 (String c3 EmptyString)))
  /\ 0x10000 <= val4 (code c0) (code c1) (code c2) (code c3) <= 0x10FFFF.
Proof.
  unfold ok4, val4. intros H.
  assert (Hr : 0x10000 <= (code c0 - 240) * 262144 + (code c1 - 128) * 4096
                          + (code c2 - 128) * 64 + (code c3 - 128) <= 0x10FFFF) by lia.
  split; [|exact Hr].
  rewrite EncodeRune_4 by exact Hr. chars_eq.
Qed.

(** A multi-byte sequence that [DecodeRune] accepts is the encoding of the
    rune it returns. *)
Lemma DecodeRune_spec c0 r0 :
  0x80 <= code c0 ->
  DecodeRune (String c0 r0) = (RuneError, 1%nat) \/
  exists r enc rest,
    scalar r /\ 0x80 <= r /\ EncodeRune r = String c0 enc /\ r0 = enc ++ rest /\
    (1 <= String.length enc <= 3)%nat /\
    DecodeRune (String c0 r0) = (r, S (String.length enc)).
Proof.
  intros H0.
  destruct (DecodeRune_inv c0 r0 H0)
    as [He | [(c1 & rest & -> & Hok) | [(c1 & c2 & rest & -> & Hok)
                                       | (c1 & c2 & c3 & rest & -> & Hok)]]].
  - left. exact He.
  - right. destruct (EncodeRune_val2 _ _ Hok) as [He Hr].
    exists (val2 (code c0) (code c1)), (String c1 EmptyString), rest.
    unfold scalar, MaxRune, surrogateMin, surrogateMax.
    repeat split; try (cbn; lia); try exact He; try reflexivity.
    apply DecodeRune_2; apply Hok.
  - right. destruct (EncodeRune_val3 _ _ _ Hok) as (He & Hr & Hs).
    exists (val3 (code c0) (code c1) (code c2)), (String c1 (String c2 EmptyString)), rest.
    unfold scalar, MaxRune, surrogateMin, surrogateMax.
    repeat split; try (cbn; lia); try exact He; try exact Hs; try reflexivity.
    apply DecodeRune_3; apply Hok.
  - right. destruct (EncodeRune_val4 _ _ _ _ Hok) as (He & Hr).
    exists (val4 (code c0) (code c1) (code c2) (code c3)),
           (String c1 (String c2 (String c3 EmptyString))), rest.
    unfold scalar, MaxRune, surrogateMin, surrogateMax.
    repeat split; try (cbn; lia); try exact He; try reflexivity.
    apply DecodeRune_4; apply Hok.
Qed.

(** The encoding of a scalar value outside ASCII decodes to that value. *)
Lemma EncodeRune_spec r :
  scalar r -> 0x80 <= r ->
  exists c0 enc,
    EncodeRune r = String c0 enc /\ 0x80 <= code c0 /\
    (1 <= String.length enc <= 3)%nat /\
    forall rest, DecodeRune (String c0 (enc ++ rest)) = (r, S (String.length enc)).
Proof.
  unfold scalar, MaxRune, surrogateMin, surrogateMax. intros [Hr Hs] H80.
  destruct (Z_le_gt_dec r 0x7FF) as [H2 | H2];
    [| destruct (Z_le_gt_dec r 0xFFFF) as [H3 | H3]].
  - rewrite EncodeRune_2 by lia. do 2 eexists. split; [reflexivity|].
    rewrite !code_chr by dlia. split; [dlia|]. split; [simpl; lia|].
    intros rest. cbn [String.append String.length].
    rewrite DecodeRune_2 by (rewrite !code_chr by dlia; dlia).
    rewrite !code_chr by dlia. f_equal. dlia.
  - rewrite EncodeRune_3 by lia. do 2 eexists. split; [reflexivity|].
    rewrite !code_chr by dlia. split; [dlia|]. split; [simpl; lia|].
    intros rest. cbn [String.append String.length].
    rewrite DecodeRune_3 by (unfold ok3; rewrite !code_chr by dlia; dlia).
    unfold val3. rewrite !code_chr by dlia. f_equal. dlia.
  - rewrite EncodeRune_4 by lia. do 2 eexists. split; [reflexivity|].
    rewrite !code_chr by dlia. split; [dlia|]. split; [simpl; lia|].
    intros rest. cbn [String.append String.length].
    rewrite DecodeRune_4 by (unfold ok4; rewrite !code_chr by dlia; dlia).
    unfold val4. rewrite !code_chr by dlia. f_equal. dlia.
Qed.

(** ** JSON strings: what [appendString] writes, [parse_string] reads *)

Import utf8.

Lemma sapp_assoc (a b c : string) : (a ++ b) ++ c = a ++ (b ++ c).
Proof. induction a as [|x a IH]; simpl; [reflexivity | now rewrite IH]. Qed.

Lemma sapp_nil_r (a : string) : a ++ "" = a.
Proof. induction a as [|x a IH]; simpl; [reflexivity | now rewrite IH]. Qed.

Lemma slength_app (a b : string) :
  String.length (a ++ b) = (String.length a + String.length b)%nat.
Proof. induction a as [|x a IH]; simpl; [reflexivity | now rewrite IH]. Qed.

Lemma substring_app (a b : string) : substring 0 (String.length a) (a ++ b) = a.
Proof. induction a as [|x a IH]; simpl; [now destruct b | now rewrite IH]. Qed.

Lemma eqb_code c d : (c =? d)%char = (code c =? code d).
Proof.
  destruct (Ascii.eqb_spec c d) as [-> | Hne].
  - now rewrite Z.eqb_refl.
  - symmetry. apply Z.eqb_neq. intros H. apply Hne. now apply code_inj.
Qed.

Import json.

Lemma parse_string_multibyte c0 r0 :
  0x80 <= code c0 ->
  parse_string (String c0 r0) =
    let '(rr, size) := utf8.DecodeRune (String c0 r0) in
    prepend (utf8.EncodeRune rr)
      match size, r0 with
      | 2%nat, String _ r1 => parse_string r1
      | 3%nat, String _ (String _ r2) => parse_string r2
      | 4%nat, String _ (String _ (String _ r3)) => parse_string r3
      | _, _ => parse_string r0
      end.
Proof.
  intros H. cbn [parse_string].
  rewrite !eqb_code. change (code dquote) with 34. change (code backslash) with 92.
  unfold RuneSelf.
  destruct (Z.eqb_spec (code c0) 34); [lia|].
  destruct (Z.eqb_spec (code c0) 92); [lia|].
  destruct (Z.ltb_spec (code c0) 32); [lia|].
  destruct (Z.ltb_spec (code c0) 128); [lia|].
  reflexivity.
Qed.

Lemma parse_string_ascii c r :
  0x20 <= code c < 0x80 -> code c <> 34 -> code c <> 92 ->
  parse_string (String c r) = prepend (String c EmptyString) (parse_string r).
Proof.
  intros H H1 H2. cbn [parse_string].
  rewrite !eqb_code. change (code dquote) with 34. change (code backslash) with 92.
  unfold RuneSelf.
  destruct (Z.eqb_spec (code c) 34); [lia|].
  destruct (Z.eqb_spec (code c) 92); [lia|].
  destruct (Z.ltb_spec (code c) 32); [lia|].
  destruct (Z.ltb_spec (code c) 128); [|lia].
  reflexivity.
Qed.

Lemma parse_string_escape e d r1 :
  unescape e = Some d ->
  parse_string (String backslash (String e r1)) = prepend (String d EmptyString) (parse_string r1).
Proof.
  intros H. cbn [parse_string]. rewrite H. reflexivity.
Qed.

Lemma parse_string_u4 h1 h2 h3 h4 rr r2 :
  getu4 h1 h2 h3 h4 = Some rr -> utf16.IsSurrogate rr = false ->
  parse_string (String backslash (String "u" (String h1 (String h2 (String h3 (String h4 r2))))))
  = prepend (EncodeRune rr) (parse_string r2).
Proof.
  intros H Hs. cbn [parse_string]. rewrite H, Hs. reflexivity.
Qed.

Lemma hexval_hex n : 0 <= n < 16 -> hexval (hex n) = Some n.
Proof.
  intros H. unfold hex, hexval.
  change (code "0") with 48. change (code "9") with 57.
  change (code "a") with 97. change (code "f") with 102.
  destruct (Z.ltb_spec n 10) as [Hd | Hl]; rewrite code_chr by lia.
  - destruct (Z.leb_spec 48 (48 + n)); [|lia].
    destruct (Z.leb_spec (48 + n) 57); [|lia].
    cbn [andb]. f_equal. lia.
  - destruct (Z.leb_spec (97 + (n - 10)) 57); [lia|]. rewrite andb_false_r.
    destruct (Z.leb_spec 97 (97 + (n - 10))); [|lia].
    destruct (Z.leb_spec (97 + (n - 10)) 102); [|lia].
    cbn [andb]. f_equal. lia.
Qed.

(** One ASCII byte, as [appendString] writes it, is read back by
    [parse_string]. *)
Lemma parse_string_step c Y :
  code c < 0x80 ->
  parse_string ((if htmlSafeSet (code c) then String c EmptyString else escape c) ++ Y)
  = prepend (String c EmptyString) (parse_string Y).
Proof.
  intros H. pose proof (code_range c) as Hc.
  destruct (htmlSafeSet (code c)) eqn:Hsafe.
  - unfold htmlSafeSet, RuneSelf in Hsafe.
    change (code dquote) with 34 in Hsafe. change (code backslash) with 92 in Hsafe.
    apply andb_true_iff in Hsafe. destruct Hsafe as [Hsafe Hneg].
    apply negb_true_iff in Hneg. repeat (apply orb_false_iff in Hneg; destruct Hneg as [Hneg ?]).
    apply andb_true_iff in Hsafe. destruct Hsafe as [Hlo Hhi].
    cbn [String.append]. apply parse_string_ascii; lia.
  - unfold escape. change (code dquote) with 34. change (code backslash) with 92.
    destruct (Z.eqb_spec (code c) 92) as [E | _].
    { assert (c = backslash) as -> by (apply code_inj; exact E). reflexivity. }
    destruct (Z.eqb_spec (code c) 34) as [E | _].
    { assert (c = dquote) as -> by (apply code_inj; exact E). reflexivity. }
    cbn [orb].
    destruct (Z.eqb_spec (code c) 8) as [E | _].
    { assert (c = "008"%char) as -> by (apply code_inj; exact E). reflexivity. }
    destruct (Z.eqb_spec (code c) 12) as [E | _].
    { assert (c = "012"%char) as -> by (apply code_inj; exact E). reflexivity. }
    destruct (Z.eqb_spec (code c) 10) as [E | _].
    { assert (c = "010"%char) as -> by (apply code_inj; exact E). reflexivity. }
    destruct (Z.eqb_spec (code c) 13) as [E | _].
    { assert (c = "013"%char) as -> by (apply code_inj; exact E). reflexivity. }
    destruct (Z.eqb_spec (code c) 9) as [E | _].
    { assert (c = "009"%char) as -> by (apply code_inj; exact E). reflexivity. }
    cbn [String.append].
    rewrite (parse_string_u4 _ _ _ _ (code c)).
    + rewrite EncodeRune_1 by lia. now rewrite chr_code.
    + unfold getu4. change (hexval "0") with (Some 0).
      rewrite Z.shiftr_div_pow2 by lia. change 0xF with (2 ^ 4 - 1).
      rewrite land_mask by lia.
      rewrite !hexval_hex by dlia. f_equal. dlia.
    + unfold utf16.IsSurrogate, utf16.surr1. destruct (Z.leb_spec 0xD800 (code c)); [lia|].
      reflexivity.
Qed.

Lemma parse_string_u2028 Y :
  parse_string ((String backslash "u202" ++ String (hex (Z.land 0x2028 0xF)) EmptyString) ++ Y)
  = prepend (EncodeRune 0x2028) (parse_string Y).
Proof. apply parse_string_u4; reflexivity. Qed.

Lemma parse_string_u2029 Y :
  parse_string ((String backslash "u202" ++ String (hex (Z.land 0x2029 0xF)) EmptyString) ++ Y)
  = prepend (EncodeRune 0x2029) (parse_string Y).
Proof. apply parse_string_u4; reflexivity. Qed.

Ltac enc_cases enc H :=
  destruct enc as [|? [|? [|? [|? ?]]]]; cbn [String.length] in H; try (exfalso; lia).

(** Round trip of a string: what [appendString] writes, [parse_string]
    reads back. *)
Lemma parse_string_appendString s :
  wf_utf8 s ->
  forall rest,
    parse_string (appendString_loop s ++ String dquote rest) = Some (s, rest).
Proof.
  induction 1 as [| c s Hc Hs IH | r s Hr H80 Hs IH]; intros rest.
  - reflexivity.
  - cbn [appendString_loop]. unfold RuneSelf.
    destruct (Z.ltb_spec (code c) 128); [|lia].
    replace ((if htmlSafeSet (code c) then String c (appendString_loop s)
              else escape c ++ appendString_loop s) ++ String dquote rest)
      with ((if htmlSafeSet (code c) then String c EmptyString else escape c)
            ++ (appendString_loop s ++ String dquote rest)).
    + rewrite parse_string_step by lia. rewrite IH. reflexivity.
    + destruct (htmlSafeSet (code c)); [reflexivity | now rewrite sapp_assoc].
  - destruct (EncodeRune_spec r Hr H80) as (c0 & enc & He & Hc0 & Hlen & Hdec).
    rewrite He. change (String c0 enc ++ s) with (String c0 (enc ++ s)).
    cbn [appendString_loop]. unfold RuneSelf.
    destruct (Z.ltb_spec (code c0) 128); [lia|].
    rewrite Hdec.
    replace ((S (String.length enc) =? 1)%nat) with false
      by (symmetry; apply Nat.eqb_neq; lia).
    rewrite andb_false_r.
    assert (Hadv : match S (String.length enc), enc ++ s with
                   | 2%nat, String _ r1 => appendString_loop r1
                   | 3%nat, String _ (String _ r2) => appendString_loop r2
                   | 4%nat, String _ (String _ (String _ r3)) => appendString_loop r3
                   | _, _ => appendString_loop (enc ++ s)
                   end = appendString_loop s).
    { enc_cases enc Hlen; reflexivity. }
    rewrite Hadv. clear Hadv.
    assert (Hparse : forall Y, parse_string (String c0 (enc ++ Y))
                               = prepend (String c0 enc) (parse_string Y)).
    { intros Y. rewrite parse_string_multibyte by lia. rewrite Hdec, He.
      f_equal. enc_cases enc Hlen; reflexivity. }
    destruct ((r =? 0x2028) || (r =? 0x2029)) eqn:Hsep.
    + apply orb_true_iff in Hsep. destruct Hsep as [E | E]; apply Z.eqb_eq in E; subst r.
      * rewrite sapp_assoc, parse_string_u2028, IH, He. reflexivity.
      * rewrite sapp_assoc, parse_string_u2029, IH, He. reflexivity.
    + replace (substring 0 (S (String.length enc)) (String c0 (enc ++ s)))
        with (String c0 enc)
        by (symmetry; apply (substring_app (String c0 enc) s)).
      cbn [String.append]. rewrite sapp_assoc, Hparse, IH. reflexivity.
Qed.

(** ** Valid UTF-8; the strings [parse_string] yields *)

Import utf8 json.

Lemma ValidString_wf_aux n :
  forall s, (String.length s <= n)%nat -> ValidString s = true -> wf_utf8 s.
Proof.
  induction n as [|n IH]; intros s Hn Hv.
  - destruct s; [constructor | simpl in Hn; lia].
  - destruct s as [|c r]; [constructor|].
    cbn [String.length] in Hn. cbn [ValidString] in Hv. unfold RuneSelf in Hv.
    destruct (Z.ltb_spec (code c) 128) as [Hc | Hc].
    + apply wf_ascii; [lia|]. apply IH; [lia | exact Hv].
    + destruct (DecodeRune_spec c r Hc)
        as [He | (rr & enc & rest & Hsc & H80 & Henc & -> & Hlen & Hdec)].
      * rewrite He in Hv. destruct r as [|? [|? [|? ?]]]; discriminate Hv.
      * rewrite Hdec in Hv.
        change (String c (enc ++ rest)) with (String c enc ++ rest). rewrite <- Henc.
        apply wf_rune; [exact Hsc | exact H80 |].
        rewrite slength_app in Hn.
        apply IH; [lia|].
        enc_cases enc Hlen; exact Hv.
Qed.

Lemma ValidString_wf s : ValidString s = true -> wf_utf8 s.
Proof. apply (ValidString_wf_aux (String.length s)). lia. Qed.

Lemma wf_ValidString s : wf_utf8 s -> ValidString s = true.
Proof.
  induction 1 as [| c s Hc Hs IH | r s Hr H80 Hs IH].
  - reflexivity.
  - cbn [ValidString]. unfold RuneSelf.
    destruct (Z.ltb_spec (code c) 128); [exact IH | lia].
  - destruct (EncodeRune_spec r Hr H80) as (c0 & enc & He & Hc0 & Hlen & Hdec).
    rewrite He. change (String c0 enc ++ s) with (String c0 (enc ++ s)).
    cbn [ValidString]. unfold RuneSelf.
    destruct (Z.ltb_spec (code c0) 128); [lia|].
    rewrite Hdec. enc_cases enc Hlen; exact IH.
Qed.

Lemma wf_app a b : wf_utf8 a -> wf_utf8 b -> wf_utf8 (a ++ b).
Proof.
  induction 1; intros Hb; cbn [String.append].
  - exact Hb.
  - apply wf_ascii; auto.
  - rewrite sapp_assoc. apply wf_rune; auto.
Qed.

(** Whatever rune below 2^32 is encoded, the bytes are well formed. *)
Lemma EncodeRune_wf r : 0 <= r < 2 ^ 32 -> wf_utf8 (EncodeRune r).
Proof.
  intros H.
  assert (Hfffd : wf_utf8 (EncodeRune RuneError)).
  { rewrite <- (sapp_nil_r (EncodeRune RuneError)).
    apply wf_rune; [unfold scalar, RuneError, MaxRune, surrogateMin, surrogateMax; lia
                   | unfold RuneError; lia | constructor]. }
  destruct (Z_le_gt_dec r 0x7F) as [H1 | H1].
  - rewrite EncodeRune_1 by lia. apply wf_ascii; [rewrite code_chr; lia | constructor].
  - destruct (Z_le_gt_dec r 0x10FFFF) as [H2 | H2];
      [destruct (Z_lt_ge_dec r 0xD800) as [H3 | H3];
       [| destruct (Z_le_gt_dec r 0xDFFF) as [H4 | H4]] |].
    + rewrite <- (sapp_nil_r (EncodeRune r)).
      apply wf_rune; [unfold scalar, MaxRune, surrogateMin, surrogateMax; lia | lia | constructor].
    + rewrite EncodeRune_bad by lia. exact Hfffd.
    + rewrite <- (sapp_nil_r (EncodeRune r)).
      apply wf_rune; [unfold scalar, MaxRune, surrogateMin, surrogateMax; lia | lia | constructor].
    + rewrite EncodeRune_bad by lia. exact Hfffd.
Qed.

Lemma prepend_wf pre res out rest :
  wf_utf8 pre ->
  (forall o r, res = Some (o, r) -> wf_utf8 o) ->
  prepend pre res = Some (out, rest) -> wf_utf8 out.
Proof.
  intros Hp Hr. destruct res as [[o r]|]; cbn; intros E; [|discriminate].
  injection E as <- <-. apply wf_app; eauto.
Qed.

Lemma hexval_range c v : hexval c = Some v -> 0 <= v < 16.
Proof.
  unfold hexval. change (code "0") with 48. change (code "9") with 57.
  change (code "a") with 97. change (code "f") with 102.
  change (code "A") with 65. change (code "F") with 70.
  destruct (Z.leb_spec 48 (code c)); destruct (Z.leb_spec (code c) 57); cbn [andb];
    try (intros E; injection E as <-; lia);
  destruct (Z.leb_spec 97 (code c)); destruct (Z.leb_spec (code c) 102); cbn [andb];
    try (intros E; injection E as <-; lia);
  destruct (Z.leb_spec 65 (code c)); destruct (Z.leb_spec (code c) 70); cbn [andb];
    try (intros E; injection E as <-; lia); discriminate.
Qed.

Lemma getu4_range h1 h2 h3 h4 v : getu4 h1 h2 h3 h4 = Some v -> 0 <= v < 65536.
Proof.
  unfold getu4.
  destruct (hexval h1) eqn:E1; [|discriminate].
  destruct (hexval h2) eqn:E2; [|discriminate].
  destruct (hexval h3) eqn:E3; [|discriminate].
  destruct (hexval h4) eqn:E4; [|discriminate].
  apply hexval_range in E1, E2, E3, E4. intros E; injection E as <-. lia.
Qed.

Lemma utf16_DecodeRune_range r1 r2 :
  0 <= utf16.DecodeRune r1 r2 < 2 ^ 32.
Proof.
  unfold utf16.DecodeRune, utf16.surr1, utf16.surr2, utf16.surr3, utf16.surrSelf,
    utf16.replacementChar.
  destruct (Z.leb_spec 0xD800 r1); destruct (Z.ltb_spec r1 0xDC00);
    destruct (Z.leb_spec 0xDC00 r2); destruct (Z.ltb_spec r2 0xE000); cbn [andb]; try lia.
  rewrite Z.shiftl_mul_pow2 by lia.
  rewrite (lor_disjoint _ _ 10) by (try lia; dlia). lia.
Qed.

Lemma unescape_ascii e d : unescape e = Some d -> wf_utf8 (String d EmptyString).
Proof.
  unfold unescape.
  repeat match goal with
         | |- context [if ?b then _ else _] => destruct b
         end; intros E; try discriminate E; injection E as <-;
    (apply wf_ascii; [vm_compute; reflexivity | constructor]).
Qed.

Lemma parse_string_wf_aux n :
  forall s out rest,
    (String.length s <= n)%nat -> parse_string s = Some (out, rest) -> wf_utf8 out.
Proof.
  induction n as [|n IH]; intros s out rest Hn H.
  - destruct s; [discriminate H | simpl in Hn; lia].
  - destruct s as [|c r]; [discriminate H|].
    cbn [String.length] in Hn. cbn [parse_string] in H.
    assert (IHr : forall t, (String.length t <= String.length r)%nat ->
                  forall o r', parse_string t = Some (o, r') -> wf_utf8 o).
    { intros t Ht o r' E. apply (IH t o r'); [lia | exact E]. }
    clear IH.
    destruct (c =? dquote)%char.
    { injection H as <- <-. constructor. }
    destruct (c =? backslash)%char.
    { destruct r as [|e r1]; [discriminate H|].
      destruct (unescape e) eqn:Hun.
      { eapply prepend_wf; [eapply unescape_ascii; exact Hun | | exact H].
        apply IHr. simpl; lia. }
      destruct (e =? "u")%char; [|discriminate H].
      destruct r1 as [|h1 [|h2 [|h3 [|h4 r2]]]]; try discriminate H.
      destruct (getu4 h1 h2 h3 h4) as [rr|] eqn:Hu; [|discriminate H].
      pose proof (getu4_range _ _ _ _ _ Hu) as Hrr.
      assert (Hrep : wf_utf8 (EncodeRune utf16.replacementChar))
        by (apply EncodeRune_wf; unfold utf16.replacementChar; lia).
      assert (IH2 : forall o r', parse_string r2 = Some (o, r') -> wf_utf8 o)
        by (apply IHr; simpl; lia).
      destruct (utf16.IsSurrogate rr).
      - destruct r2 as [|b [|u [|g1 [|g2 [|g3 [|g4 r3]]]]]];
          try (eapply prepend_wf; [exact Hrep | exact IH2 | exact H]).
        destruct (if (b =? backslash)%char && (u =? "u")%char
                  then getu4 g1 g2 g3 g4 else None) as [rr1|].
        + destruct (utf16.DecodeRune rr rr1 =? utf16.replacementChar).
          * eapply prepend_wf; [exact Hrep | exact IH2 | exact H].
          * eapply prepend_wf; [| | exact H].
            -- apply EncodeRune_wf. apply utf16_DecodeRune_range.
            -- apply IHr. simpl; lia.
        + eapply prepend_wf; [exact Hrep | exact IH2 | exact H].
      - eapply prepend_wf; [apply EncodeRune_wf | exact IH2 | exact H]. clear - Hrr. lia. }
    destruct (code c <? 32); [discriminate H|].
    unfold RuneSelf in H.
    destruct (Z.ltb_spec (code c) 128) as [Hc | Hc].
    { eapply prepend_wf; [| | exact H].
      - apply wf_ascii; [lia | constructor].
      - apply IHr. lia. }
    destruct (DecodeRune_spec c r Hc)
      as [He | (rr & enc & rest' & Hsc & H80 & Henc & -> & Hlen & Hdec)].
    + rewrite He in H.
      eapply prepend_wf; [| | exact H].
      * apply EncodeRune_wf. unfold RuneError; lia.
      * destruct r as [|? [|? [|? ?]]]; apply IHr; simpl; lia.
    + rewrite Hdec in H.
      eapply prepend_wf; [| | exact H].
      * apply EncodeRune_wf. unfold scalar, MaxRune in Hsc. lia.
      * enc_cases enc Hlen; apply IHr; simpl; rewrite ?slength_app; lia.
Qed.

Lemma parse_string_wf s out rest : parse_string s = Some (out, rest) -> wf_utf8 out.
Proof. apply (parse_string_wf_aux (String.length s)). lia. Qed.

(** ** Integers: [FormatInt] and [ParseInt] *)

Import strconv json.

Lemma isDigit_code c : isDigit c = true <-> 48 <= code c <= 57.
Proof.
  unfold isDigit. change (code "0") with 48. change (code "9") with 57.
  rewrite andb_true_iff, !Z.leb_le. tauto.
Qed.

Lemma isDigit_digit k : 0 <= k < 10 -> isDigit (digit k) = true.
Proof.
  intros H. apply isDigit_code. unfold digit. change (code "0") with 48.
  rewrite code_chr by lia. lia.
Qed.

Lemma code_digit k : 0 <= k < 10 -> code (digit k) = 48 + k.
Proof.
  intros H. unfold digit. change (code "0") with 48. now rewrite code_chr by lia.
Qed.

Lemma all_digits_app a b : all_digits (a ++ b) = all_digits a && all_digits b.
Proof.
  induction a as [|x a IH]; cbn [String.append all_digits]; [reflexivity|].
  now rewrite IH, andb_assoc.
Qed.

Lemma parseDigits_app a b acc :
  parseDigits (a ++ b) acc =
  match parseDigits a acc with
  | Some acc' => parseDigits b acc'
  | None => None
  end.
Proof.
  revert acc. induction a as [|x a IH]; intros acc; cbn [String.append parseDigits];
    [reflexivity|].
  destruct (isDigit x); [apply IH | reflexivity].
Qed.

(** The digits [formatBits] writes: at least one, no leading zero except
    for zero itself, and [parseDigits] reads the number back. *)
Lemma formatBits_spec fuel :
  forall u acc,
    (0 < fuel)%nat -> 0 <= u < 10 ^ Z.of_nat fuel ->
    exists d ds,
      formatBits fuel u acc = String d (ds ++ acc) /\
      isDigit d = true /\ all_digits ds = true /\
      (1 <= u -> code d <> 48) /\ (u = 0 -> ds = EmptyString) /\
      forall a, parseDigits (String d ds) a
                = Some (a * 10 ^ Z.of_nat (S (String.length ds)) + u).
Proof.
  induction fuel as [|f IH]; intros u acc Hf Hu; [lia|].
  cbn [formatBits].
  destruct (Z.ltb_spec u 10) as [Hlt | Hge].
  - exists (digit (u mod 10)), EmptyString.
    assert (Hm : u mod 10 = u) by (apply Z.mod_small; lia). rewrite Hm.
    repeat split.
    + apply isDigit_digit; lia.
    + rewrite code_digit by lia. lia.
    + intros a. cbn [parseDigits]. rewrite isDigit_digit by lia.
      rewrite code_digit by lia. change (code "0") with 48.
      cbn [String.length]. f_equal. change (10 ^ Z.of_nat 1) with 10. lia.
  - assert (Hf' : (0 < f)%nat).
    { destruct f; [|lia]. change (10 ^ Z.of_nat 1) with 10 in Hu. lia. }
    assert (Hu' : 0 <= u / 10 < 10 ^ Z.of_nat f).
    { rewrite Nat2Z.inj_succ, Z.pow_succ_r in Hu by lia. dlia. }
    destruct (IH (u / 10) (String (digit (u mod 10)) acc) Hf' Hu')
      as (d & ds & E & Hd & Hds & Hnz & _ & Hp).
    exists d, (ds ++ String (digit (u mod 10)) EmptyString).
    assert (Hmod : 0 <= u mod 10 < 10) by dlia.
    repeat split.
    + rewrite E, sapp_assoc. reflexivity.
    + exact Hd.
    + rewrite all_digits_app, Hds. cbn [all_digits]. rewrite isDigit_digit by lia. reflexivity.
    + intros _. apply Hnz. dlia.
    + intros ->. lia.
    + intros a.
      change (String d (ds ++ String (digit (u mod 10)) EmptyString))
        with (String d ds ++ String (digit (u mod 10)) EmptyString).
      rewrite parseDigits_app, Hp. cbn [parseDigits].
      rewrite isDigit_digit by lia. rewrite code_digit by lia. change (code "0") with 48.
      f_equal. rewrite slength_app. cbn [String.length].
      replace (Z.of_nat (S (String.length ds + 1)))
        with (Z.succ (Z.of_nat (S (String.length ds)))) by lia.
      rewrite Z.pow_succ_r by lia. dlia.
Qed.

Lemma FormatInt_nonneg z :
  0 <= z < 2 ^ 63 ->
  exists d ds,
    FormatInt z = String d ds /\ isDigit d = true /\ all_digits ds = true /\
    (code d = 48 -> ds = EmptyString) /\ ParseUint (String d ds) = Some z.
Proof.
  intros H. unfold FormatInt. destruct (Z.ltb_spec z 0); [lia|].
  destruct (formatBits_spec 20 z EmptyString) as (d & ds & E & Hd & Hds & Hnz & Hz & Hp);
    [lia | change (10 ^ Z.of_nat 20) with 100000000000000000000; lia |].
  exists d, ds. rewrite E, sapp_nil_r. repeat split; auto.
  - intros Hc. apply Hz. destruct (Z_le_gt_dec 1 z); [|lia]. exfalso. now apply Hnz.
  - unfold ParseUint. rewrite Hp. f_equal; lia.
Qed.

Lemma FormatInt_neg z :
  - 2 ^ 63 <= z < 0 ->
  exists d ds,
    FormatInt z = String "-" (String d ds) /\ isDigit d = true /\ all_digits ds = true /\
    code d <> 48 /\ ParseUint (String d ds) = Some (- z).
Proof.
  intros H. unfold FormatInt. destruct (Z.ltb_spec z 0); [|lia].
  destruct (formatBits_spec 20 (- z) EmptyString) as (d & ds & E & Hd & Hds & Hnz & Hz & Hp);
    [lia | change (10 ^ Z.of_nat 20) with 100000000000000000000; lia |].
  exists d, ds. rewrite E, sapp_nil_r. repeat split; auto.
  - apply Hnz. lia.
  - unfold ParseUint. rewrite Hp. f_equal; lia.
Qed.

(** Round trip of an [int]. *)
Lemma ParseInt_FormatInt z : int64_range z -> ParseInt (FormatInt z) = Some z.
Proof.
  unfold int64_range. intros H.
  destruct (Z_lt_ge_dec z 0) as [Hneg | Hpos].
  - destruct (FormatInt_neg z) as (d & ds & -> & Hd & Hds & Hnz & Hp); [lia|].
    unfold ParseInt. change ("-" =? "-")%char with true. rewrite orb_true_r, Hp.
    cbn [negb andb].
    destruct (Z.ltb_spec (2 ^ 63) (- z)); [lia|]. f_equal. lia.
  - destruct (FormatInt_nonneg z) as (d & ds & -> & Hd & Hds & Hnz & Hp); [lia|].
    unfold ParseInt. apply isDigit_code in Hd.
    rewrite !eqb_code. change (code "-") with 45. change (code "+") with 43.
    destruct (Z.eqb_spec (code d) 45); [lia|]. destruct (Z.eqb_spec (code d) 43); [lia|].
    cbn [orb]. rewrite Hp. cbn [negb andb].
    destruct (Z.leb_spec (2 ^ 63) z); [lia|]. reflexivity.
Qed.

Lemma ParseInt_range s z : ParseInt s = Some z -> int64_range z.
Proof.
  unfold ParseInt, int64_range. destruct s as [|c r]; [discriminate|].
  destruct (ParseUint _) as [un|] eqn:E; [|discriminate].
  assert (Hun : 0 <= un).
  { unfold ParseUint in E.
    assert (G : forall t a v, 0 <= a -> parseDigits t a = Some v -> 0 <= v).
    { induction t as [|x t IH]; intros a v Ha; cbn [parseDigits].
      - intros [= <-]. exact Ha.
      - destruct (isDigit x) eqn:Hx; [|discriminate].
        apply isDigit_code in Hx. change (code "0") with 48.
        apply IH. lia. }
    destruct (if (c =? "+")%char || (c =? "-")%char then r else String c r);
      [discriminate | eapply G; [|exact E]; lia]. }
  destruct (c =? "-")%char; cbn [negb andb].
  - destruct (Z.ltb_spec (2 ^ 63) un); [discriminate|]. intros [= <-]. lia.
  - destruct (Z.leb_spec (2 ^ 63) un); [discriminate|]. intros [= <-]. lia.
Qed.

(** ** Printed values under the scanner *)

Import strconv json.

Lemma span_digits_app ds c rest :
  all_digits ds = true -> isDigit c = false ->
  span_digits (ds ++ String c rest) = (ds, String c rest).
Proof.
  intros Hds Hc. induction ds as [|x ds IH]; cbn [String.append span_digits].
  - rewrite Hc. reflexivity.
  - cbn [all_digits] in Hds. apply andb_true_iff in Hds. destruct Hds as [Hx Hds].
    rewrite Hx, (IH Hds). reflexivity.
Qed.

Lemma closer_code c : closer c -> code c = 44 \/ code c = 125 \/ code c = 93.
Proof. intros [-> | [-> | ->]]; vm_compute; tauto. Qed.

Lemma scan_tail c rest :
  closer c ->
  isDigit c = false /\ scan_frac (String c rest) = Some (EmptyString, String c rest)
  /\ scan_exp (String c rest) = Some (EmptyString, String c rest).
Proof. intros [-> | [-> | ->]]; repeat split; reflexivity. Qed.

Lemma scan_digits d ds c rest :
  isDigit d = true -> all_digits ds = true -> (code d = 48 -> ds = EmptyString) ->
  closer c ->
  scan_int (String d (ds ++ String c rest)) = Some (String d ds, String c rest).
Proof.
  intros Hd Hds Hz Hc. destruct (scan_tail c rest Hc) as (Hnd & _ & _).
  unfold scan_int. rewrite eqb_code. change (code "0") with 48.
  destruct (Z.eqb_spec (code d) 48) as [E | E].
  - rewrite (Hz E). reflexivity.
  - rewrite Hd, span_digits_app by assumption. reflexivity.
Qed.

Lemma scan_number_FormatInt z c rest :
  int64_range z -> closer c ->
  scan_number (FormatInt z ++ String c rest) = Some (FormatInt z, String c rest).
Proof.
  unfold int64_range. intros H Hc.
  destruct (scan_tail c rest Hc) as (Hnd & Hfrac & Hexp).
  destruct (Z_lt_ge_dec z 0) as [Hneg | Hpos].
  - destruct (FormatInt_neg z) as (d & ds & -> & Hd & Hds & Hnz & _); [lia|].
    cbn [String.append]. unfold scan_number.
    change ("-" =? "-")%char with true. cbv iota beta.
    rewrite scan_digits by (try assumption; intros; contradiction).
    rewrite Hfrac, Hexp. rewrite !sapp_nil_r. reflexivity.
  - destruct (FormatInt_nonneg z) as (d & ds & -> & Hd & Hds & Hnz & _); [lia|].
    cbn [String.append]. unfold scan_number.
    pose proof (proj1 (isDigit_code d) Hd) as Hcd.
    rewrite eqb_code. change (code "-") with 45.
    destruct (Z.eqb_spec (code d) 45); [lia|]. cbv iota beta.
    rewrite scan_digits by assumption.
    rewrite Hfrac, Hexp. rewrite !sapp_nil_r. reflexivity.
Qed.

Lemma FormatInt_head z :
  int64_range z ->
  exists x xs, FormatInt z = String x xs /\ (code x = 45 \/ 48 <= code x <= 57).
Proof.
  unfold int64_range. intros H.
  destruct (Z_lt_ge_dec z 0) as [Hneg | Hpos].
  - destruct (FormatInt_neg z) as (d & ds & -> & _); [lia|].
    do 2 eexists. split; [reflexivity|]. left. reflexivity.
  - destruct (FormatInt_nonneg z) as (d & ds & -> & Hd & _); [lia|].
    do 2 eexists. split; [reflexivity|]. right. now apply isDigit_code.
Qed.

Lemma skip_space_nonspace c r : isSpace c = false -> skip_space (String c r) = String c r.
Proof. intros H. cbn [skip_space]. now rewrite H. Qed.

Lemma isSpace_code c : 0x20 < code c -> isSpace c = false.
Proof.
  intros H. unfold isSpace. destruct (Z.leb_spec (code c) 0x20); [lia | reflexivity].
Qed.

(** An [int], as [Marshal] prints it, is read as the number literal it is. *)
Lemma parse_value_int fuel depth z c rest :
  int64_range z -> closer c ->
  parse_value (S fuel) depth (FormatInt z ++ String c rest)
  = Some (Number (FormatInt z), String c rest).
Proof.
  intros Hz Hc.
  pose proof (scan_number_FormatInt z c rest Hz Hc) as Hscan.
  destruct (FormatInt_head z Hz) as (x & xs & E & Hx).
  rewrite E in *. cbn [String.append] in *.
  cbn [parse_value]. rewrite skip_space_nonspace by (apply isSpace_code; lia).
  rewrite !eqb_code.
  change (code "{") with 123. change (code "[") with 91. change (code dquote) with 34.
  change (code "t") with 116. change (code "f") with 102. change (code "n") with 110.
  destruct (Z.eqb_spec (code x) 123); [lia|].
  destruct (Z.eqb_spec (code x) 91); [lia|].
  destruct (Z.eqb_spec (code x) 34); [lia|].
  destruct (Z.eqb_spec (code x) 116); [lia|].
  destruct (Z.eqb_spec (code x) 102); [lia|].
  destruct (Z.eqb_spec (code x) 110); [lia|].
  rewrite Hscan. reflexivity.
Qed.

(** A string, as [Marshal] prints it, is read as the string it is. *)
Lemma parse_value_string fuel depth s rest :
  wf_utf8 s ->
  parse_value (S fuel) depth (appendString s ++ rest) = Some (Str s, rest).
Proof.
  intros Hs. unfold appendString. cbn [String.append]. rewrite sapp_assoc.
  cbn [String.append parse_value].
  rewrite skip_space_nonspace by reflexivity.
  change (dquote =? "{")%char with false. change (dquote =? "[")%char with false.
  change (dquote =? dquote)%char with true. cbv iota.
  rewrite parse_string_appendString by exact Hs. reflexivity.
Qed.

(** One member of an object, followed by a comma: the member is added and
    the next one is read. *)
Lemma parse_members_comma fuel depth name txt v r4 acc :
  wf_utf8 name ->
  parse_value fuel depth (txt ++ String "," r4) = Some (v, String "," r4) ->
  parse_members (S fuel) depth (key name ++ txt ++ String "," r4) acc
  = parse_members fuel depth r4 (acc ++ [(name, v)]).
Proof.
  intros Hn Hv. unfold key, appendString. cbn [String.append].
  rewrite !sapp_assoc. cbn [String.append parse_members].
  rewrite skip_space_nonspace by reflexivity.
  change (dquote =? dquote)%char with true. cbv iota.
  rewrite parse_string_appendString by exact Hn.
  rewrite skip_space_nonspace by reflexivity.
  change (":" =? ":")%char with true. cbv iota.
  rewrite Hv. rewrite skip_space_nonspace by reflexivity.
  reflexivity.
Qed.

(** The last member of an object. *)
Lemma parse_members_close fuel depth name txt v r4 acc :
  wf_utf8 name ->
  parse_value fuel depth (txt ++ String "}" r4) = Some (v, String "}" r4) ->
  parse_members (S fuel) depth (key name ++ txt ++ String "}" r4) acc
  = Some (Object (acc ++ [(name, v)]), r4).
Proof.
  intros Hn Hv. unfold key, appendString. cbn [String.append].
  rewrite !sapp_assoc. cbn [String.append parse_members].
  rewrite skip_space_nonspace by reflexivity.
  change (dquote =? dquote)%char with true. cbv iota.
  rewrite parse_string_appendString by exact Hn.
  rewrite skip_space_nonspace by reflexivity.
  change (":" =? ":")%char with true. cbv iota.
  rewrite Hv. rewrite skip_space_nonspace by reflexivity.
  reflexivity.
Qed.

(** ** Round trips of records and slices *)

Import strconv json.

Lemma wf_literal s : utf8.ValidString s = true -> wf_utf8 s.
Proof. apply ValidString_wf. Qed.

Lemma parse_value_object fuel depth name X :
  depth + 1 <= maxNestingDepth ->
  parse_value (S fuel) depth (String "{" (key name ++ X))
  = parse_members fuel (depth + 1) (key name ++ X) [].
Proof.
  intros Hd. cbn [parse_value].
  rewrite skip_space_nonspace by reflexivity.
  change ("{" =? "{")%char with true. cbv iota.
  destruct (Z.ltb_spec maxNestingDepth (depth + 1)); [lia|].
  unfold key, appendString. cbn [String.append].
  rewrite skip_space_nonspace by reflexivity.
  reflexivity.
Qed.

Lemma parse_value_Post fuel depth p rest :
  wf_Post p -> depth + 1 <= maxNestingDepth ->
  parse_value (6 + fuel) depth (encode_Post p ++ rest) = Some (value_of_Post p, rest).
Proof.
  intros (Hid & Huid & Ht & Hb) Hdepth. apply ValidString_wf in Ht, Hb.
  unfold encode_Post. rewrite !sapp_assoc. cbn [String.append].
  change (6 + fuel)%nat with (S (S (S (S (S (S fuel)))))).
  rewrite parse_value_object by exact Hdepth.
  rewrite (parse_members_comma _ _ "Id" _ (Number (FormatInt (Post.Id p))));
    [| apply ValidString_wf; reflexivity | apply parse_value_int; [exact Hid | left; reflexivity]].
  rewrite (parse_members_comma _ _ "UserId" _ (Number (FormatInt (Post.UserId p))));
    [| apply ValidString_wf; reflexivity | apply parse_value_int; [exact Huid | left; reflexivity]].
  rewrite (parse_members_comma _ _ "Title" _ (Str (Post.Title p)));
    [| apply ValidString_wf; reflexivity | apply parse_value_string; exact Ht].
  rewrite (parse_members_close _ _ "Body" _ (Str (Post.Body p)));
    [| apply ValidString_wf; reflexivity | apply parse_value_string; exact Hb].
  reflexivity.
Qed.

Lemma decode_value_of_Post p q :
  int64_range (Post.Id p) -> int64_range (Post.UserId p) ->
  decode_struct fields_Post (value_of_Post p) q = Some p.
Proof.
  intros Hid Huid. destruct p as [i u t b]. cbn [Post.Id Post.UserId] in *.
  unfold value_of_Post, decode_struct. cbn [Post.Id Post.UserId Post.Title Post.Body].
  cbn [object].
  change (findField fields_Post "Id") with (Some (snd (nth 0 fields_Post ("", fun _ p => Some p)))).
  change (findField fields_Post "UserId") with (Some (snd (nth 1 fields_Post ("", fun _ p => Some p)))).
  change (findField fields_Post "Title") with (Some (snd (nth 2 fields_Post ("", fun _ p => Some p)))).
  change (findField fields_Post "Body") with (Some (snd (nth 3 fields_Post ("", fun _ p => Some p)))).
  cbn [nth fields_Post snd store_int store_string mbind option_bind].
  rewrite !ParseInt_FormatInt by assumption.
  reflexivity.
Qed.

Lemma encode_Post_length p : (6 <= String.length (encode_Post p))%nat.
Proof.
  unfold encode_Post. rewrite !slength_app.
  change (String.length "{") with 1%nat. change (String.length (key "Id")) with 5%nat. lia.
Qed.

Lemma encode_Post_head p : exists X, encode_Post p = String "{" X.
Proof. unfold encode_Post. cbn [String.append]. eexists. reflexivity. Qed.

(** Round trip of a record through [Marshal] and [Unmarshal]. *)
Lemma Unmarshal_encode_Post p : wf_Post p -> Unmarshal_Post (encode_Post p) = Ok p.
Proof.
  intros Hp. unfold Unmarshal_Post, Unmarshal, parse.
  pose proof (encode_Post_length p) as Hlen.
  destruct (String.length (encode_Post p)) as [|[|[|[|[|n]]]]] eqn:E; try lia.
  rewrite <- (sapp_nil_r (encode_Post p)).
  change (S (S (S (S (S (S n)))))) with (6 + n)%nat.
  rewrite parse_value_Post by (try exact Hp; unfold maxNestingDepth; lia).
  cbn [skip_space]. rewrite decode_value_of_Post by apply Hp. reflexivity.
Qed.

(** Round trip of a record through [Marshal] and a stream decoder. *)
Lemma Decode_encode_Post p rest : wf_Post p -> Decode_Post (encode_Post p ++ rest) = Ok p.
Proof.
  intros Hp. unfold Decode_Post, Decode, parse.
  destruct (encode_Post_head p) as [X EX].
  assert (Hsk : skip_space (encode_Post p ++ rest) = String "{" (X ++ rest))
    by (rewrite EX; reflexivity).
  rewrite Hsk.
  pose proof (encode_Post_length p) as Hlen.
  remember (S (String.length (encode_Post p ++ rest))) as fuel eqn:Ef.
  assert (Hfuel : (6 <= fuel)%nat) by (rewrite Ef, slength_app; lia).
  replace fuel with (6 + (fuel - 6))%nat by lia.
  rewrite parse_value_Post by (try exact Hp; unfold maxNestingDepth; lia).
  rewrite decode_value_of_Post by apply Hp. reflexivity.
Qed.

Lemma encode_elems_cons p ps :
  ps <> [] -> encode_elems (p :: ps) = encode_Post p ++ "," ++ encode_elems ps.
Proof. destruct ps; [congruence | reflexivity]. Qed.

Lemma parse_elements_Posts ps :
  forall fuel depth acc rest,
    ps <> [] -> Forall wf_Post ps -> depth + 1 <= maxNestingDepth ->
    (List.length ps + 6 <= fuel)%nat ->
    parse_elements fuel depth (encode_elems ps ++ String "]" rest) acc
    = Some (Array (acc ++ map value_of_Post ps), rest).
Proof.
  induction ps as [|p ps IH]; intros fuel depth acc rest Hne Hwf Hd Hf; [congruence|].
  inversion Hwf as [|? ? Hp Hps]; subst.
  destruct fuel as [|fuel]; [cbn in Hf; lia|]. cbn [List.length] in Hf.
  destruct ps as [|q ps'].
  - cbn [encode_elems map]. cbn [parse_elements].
    replace fuel with (6 + (fuel - 6))%nat by lia.
    rewrite parse_value_Post by assumption.
    rewrite skip_space_nonspace by reflexivity. reflexivity.
  - rewrite encode_elems_cons by congruence. rewrite !sapp_assoc. cbn [String.append].
    cbn [parse_elements].
    replace fuel with (6 + (fuel - 6))%nat at 1 by (cbn [List.length] in Hf; lia).
    rewrite parse_value_Post by assumption.
    rewrite skip_space_nonspace by reflexivity.
    change ("," =? ",")%char with true. cbv iota.
    rewrite IH; [| congruence | assumption | assumption | lia].
    rewrite <- app_assoc. reflexivity.
Qed.

Lemma decode_elems_Posts ps :
  Forall wf_Post ps ->
  decode_elems fields_Post Post.zero (map value_of_Post ps) = Some ps.
Proof.
  induction 1 as [|p ps Hp Hps IH]; [reflexivity|].
  cbn [map decode_elems]. rewrite decode_value_of_Post by apply Hp. rewrite IH. reflexivity.
Qed.

Lemma encode_elems_length ps :
  (6 * List.length ps <= String.length (encode_elems ps))%nat.
Proof.
  induction ps as [|p ps IH]; [cbn; lia|].
  destruct ps as [|q ps'].
  - cbn [encode_elems List.length]. pose proof (encode_Post_length p). lia.
  - rewrite encode_elems_cons by congruence. rewrite !slength_app.
    pose proof (encode_Post_length p). cbn [List.length] in *. lia.
Qed.

Lemma parse_encode_Posts ps rest :
  Forall wf_Post ps ->
  parse_value (S (String.length (encode_Posts ps ++ rest))) 0 (encode_Posts ps ++ rest)
  = Some (Array (map value_of_Post ps), rest).
Proof.
  intros Hwf. unfold encode_Posts. rewrite !sapp_assoc. cbn [String.append].
  cbn [parse_value]. rewrite skip_space_nonspace by reflexivity.
  change ("[" =? "{")%char with false. change ("[" =? "[")%char with true. cbv iota.
  change (maxNestingDepth <? 0 + 1) with false. cbv iota.
  destruct ps as [|p ps].
  - reflexivity.
  - remember (p :: ps) as l eqn:El.
    assert (Hne : l <> []) by (subst; congruence).
    assert (Hhead : exists X, encode_elems l ++ String "]" rest = String "{" X).
    { subst l. destruct ps.
      - cbn [encode_elems]. destruct (encode_Post_head p) as [X ->]. eexists; reflexivity.
      - rewrite encode_elems_cons by congruence.
        destruct (encode_Post_head p) as [X ->]. eexists; reflexivity. }
    destruct Hhead as [X EX]. rewrite EX.
    rewrite skip_space_nonspace by reflexivity.
    change ("{" =? "]")%char with false. cbv iota. rewrite <- EX.
    rewrite parse_elements_Posts; [reflexivity | exact Hne | exact Hwf
                                  | unfold maxNestingDepth; lia |].
    cbn [String.length]. rewrite slength_app.
    pose proof (encode_elems_length l).
    assert (1 <= List.length l)%nat by (subst l; cbn; lia).
    cbn [String.length]. lia.
Qed.

(** Round trip of a slice of records. *)
Lemma Unmarshal_encode_Posts ps :
  Forall wf_Post ps -> Unmarshal_Posts (encode_Posts ps) = Ok ps.
Proof.
  intros Hwf. unfold Unmarshal_Posts, Unmarshal, parse.
  pose proof (parse_encode_Posts ps EmptyString Hwf) as H.
  rewrite sapp_nil_r in H. rewrite H. cbn [skip_space decode_slice].
  rewrite decode_elems_Posts by exact Hwf. reflexivity.
Qed.

Lemma Decode_encode_Posts ps rest :
  Forall wf_Post ps -> Decode_Posts (encode_Posts ps ++ rest) = Ok ps.
Proof.
  intros Hwf. unfold Decode_Posts, Decode, parse.
  rewrite parse_encode_Posts by exact Hwf.
  unfold encode_Posts. cbn [String.append skip_space].
  change (isSpace "[") with false. cbv iota. cbn [decode_slice].
  rewrite decode_elems_Posts by exact Hwf. reflexivity.
Qed.

(** ** What [Unmarshal] stores *)

Import strconv json.

Lemma parse_shapes fuel :
  (forall depth s v rest, parse_value fuel depth s = Some (v, rest) -> value_ok v) /\
  (forall depth s acc v rest,
      parse_members fuel depth s acc = Some (v, rest) -> Forall member_ok acc -> value_ok v) /\
  (forall depth s acc v rest,
      parse_elements fuel depth s acc = Some (v, rest) -> exists l, v = Array l).
Proof.
  induction fuel as [|fuel (IHv & IHm & IHe)].
  - repeat split; intros; discriminate.
  - repeat split.
    + intros depth s v rest H. cbn [parse_value] in H.
      destruct (skip_space s) as [|c r]; [discriminate H|].
      destruct (c =? "{")%char.
      { destruct (maxNestingDepth <? depth + 1); [discriminate H|].
        destruct (skip_space r) as [|c' r']; [discriminate H|].
        destruct (c' =? "}")%char.
        - injection H as <- <-. constructor.
        - eapply IHm; [exact H | constructor]. }
      destruct (c =? "[")%char.
      { destruct (maxNestingDepth <? depth + 1); [discriminate H|].
        destruct (skip_space r) as [|c' r']; [discriminate H|].
        destruct (c' =? "]")%char.
        - injection H as <- <-. exact I.
        - destruct (IHe _ _ _ _ _ H) as [l ->]. exact I. }
      destruct (c =? dquote)%char.
      { destruct (parse_string r) as [[str r']|] eqn:E; [|discriminate H].
        injection H as <- <-. cbn. eapply parse_string_wf; exact E. }
      destruct (c =? "t")%char.
      { destruct (strip_prefix "rue" r); [|discriminate H]. injection H as <- <-. exact I. }
      destruct (c =? "f")%char.
      { destruct (strip_prefix "alse" r); [|discriminate H]. injection H as <- <-. exact I. }
      destruct (c =? "n")%char.
      { destruct (strip_prefix "ull" r); [|discriminate H]. injection H as <- <-. exact I. }
      destruct (scan_number (String c r)) as [[lit r']|]; [|discriminate H].
      injection H as <- <-. exact I.
    + intros depth s acc v rest H Hacc. cbn [parse_members] in H.
      destruct (skip_space s) as [|c r]; [discriminate H|].
      destruct (c =? dquote)%char; [|discriminate H].
      destruct (parse_string r) as [[k r1]|]; [|discriminate H].
      destruct (skip_space r1) as [|c1 r2]; [discriminate H|].
      destruct (c1 =? ":")%char; [|discriminate H].
      destruct (parse_value fuel depth r2) as [[v' r3]|] eqn:Ev; [|discriminate H].
      assert (Hm : Forall member_ok (acc ++ [(k, v')])).
      { apply Forall_app. split; [exact Hacc|]. constructor; [|constructor].
        apply IHv in Ev. unfold member_ok. cbn. destruct v'; try exact I. exact Ev. }
      destruct (skip_space r3) as [|c3 r4]; [discriminate H|].
      destruct (c3 =? ",")%char.
      * eapply IHm; [exact H | exact Hm].
      * destruct (c3 =? "}")%char; [|discriminate H].
        injection H as <- <-. exact Hm.
    + intros depth s acc v rest H. cbn [parse_elements] in H.
      destruct (parse_value fuel depth s) as [[v' r1]|]; [|discriminate H].
      destruct (skip_space r1) as [|c r2]; [discriminate H|].
      destruct (c =? ",")%char.
      * eapply IHe; exact H.
      * destruct (c =? "]")%char; [|discriminate H].
        injection H as <- <-. eexists; reflexivity.
Qed.

Lemma parse_value_ok data v rest : parse data = Some (v, rest) -> value_ok v.
Proof. unfold parse. apply (proj1 (parse_shapes _)). Qed.

Lemma store_int_range v old n :
  store_int v old = Some n -> int64_range old -> int64_range n.
Proof.
  destruct v; cbn; try discriminate.
  - intros [= <-]. auto.
  - intros H _. eapply ParseInt_range; exact H.
Qed.

Lemma store_string_wf k v old s :
  store_string v old = Some s -> member_ok (k, v) -> wf_utf8 old -> wf_utf8 s.
Proof.
  destruct v; cbn; try discriminate.
  - intros [= <-]. auto.
  - intros [= <-]. auto.
Qed.

Lemma findField_In {F : Type} (fields : list (string * F)) k f :
  findField fields k = Some f -> exists n, In (n, f) fields.
Proof.
  unfold findField.
  destruct (List.find _ fields) as [[n f']|] eqn:E1.
  - intros [= <-]. exists n. eapply find_some; exact E1.
  - destruct (List.find (fun nf => (foldName (fst nf) =? foldName k)%string) fields)
      as [[n f']|] eqn:E2; [|discriminate].
    intros [= <-]. exists n. eapply find_some; exact E2.
Qed.

Lemma object_preserves {T : Type} (P : T -> Prop)
    (fields : list (string * (value -> T -> option T))) :
  (forall n set k v p q, In (n, set) fields -> member_ok (k, v) -> P p -> set v p = Some q -> P q) ->
  forall ms p q, Forall member_ok ms -> P p -> object fields ms p = Some q -> P q.
Proof.
  intros Hset. induction ms as [|[k v] ms IH]; intros p q Hms Hp H.
  - injection H as <-. exact Hp.
  - inversion Hms as [|? ? Hkv Hms']; subst. cbn [object] in H.
    destruct (findField fields k) as [set|] eqn:Ef.
    + destruct (set v p) as [p'|] eqn:Es; [|discriminate H].
      destruct (findField_In _ _ _ Ef) as [n Hin].
      eapply IH; [exact Hms' | | exact H].
      eapply Hset; eauto.
    + eapply IH; eauto.
Qed.

Lemma int64_zero : int64_range 0.
Proof. unfold int64_range. lia. Qed.

Lemma fields_PostWithoutId_wf n set k v p q :
  In (n, set) fields_PostWithoutId -> member_ok (k, v) -> wfp_PostWithoutId p ->
  set v p = Some q -> wfp_PostWithoutId q.
Proof.
  intros Hin Hkv (Hu & Ht & Hb) H.
  cbn [fields_PostWithoutId In] in Hin.
  destruct Hin as [E | [E | [E | []]]]; injection E as <- <-;
    cbn [mbind option_bind] in H.
  - destruct (store_int v _) eqn:Es; [|discriminate H]. injection H as <-.
    apply store_int_range in Es; [|exact Hu]. unfold wfp_PostWithoutId, wfp_Post; cbn; auto.
  - destruct (store_string v _) eqn:Es; [|discriminate H]. injection H as <-.
    eapply store_string_wf in Es; [| exact Hkv | exact Ht]. unfold wfp_PostWithoutId, wfp_Post; cbn; auto.
  - destruct (store_string v _) eqn:Es; [|discriminate H]. injection H as <-.
    eapply store_string_wf in Es; [| exact Hkv | exact Hb]. unfold wfp_PostWithoutId, wfp_Post; cbn; auto.
Qed.

Lemma fields_Post_wf n set k v p q :
  In (n, set) fields_Post -> member_ok (k, v) -> wfp_Post p ->
  set v p = Some q -> wfp_Post q.
Proof.
  intros Hin Hkv (Hi & Hu & Ht & Hb) H.
  cbn [fields_Post In] in Hin.
  destruct Hin as [E | [E | [E | [E | []]]]]; injection E as <- <-;
    cbn [mbind option_bind] in H.
  - destruct (store_int v _) eqn:Es; [|discriminate H]. injection H as <-.
    apply store_int_range in Es; [|exact Hi]. unfold wfp_PostWithoutId, wfp_Post; cbn; auto.
  - destruct (store_int v _) eqn:Es; [|discriminate H]. injection H as <-.
    apply store_int_range in Es; [|exact Hu]. unfold wfp_PostWithoutId, wfp_Post; cbn; auto.
  - destruct (store_string v _) eqn:Es; [|discriminate H]. injection H as <-.
    eapply store_string_wf in Es; [| exact Hkv | exact Ht]. unfold wfp_PostWithoutId, wfp_Post; cbn; auto.
  - destruct (store_string v _) eqn:Es; [|discriminate H]. injection H as <-.
    eapply store_string_wf in Es; [| exact Hkv | exact Hb]. unfold wfp_PostWithoutId, wfp_Post; cbn; auto.
Qed.

Lemma Unmarshal_inv {T : Type} (decode : value -> option T) data x :
  Unmarshal decode data = Ok x ->
  exists v rest, parse data = Some (v, rest) /\ skip_space rest = EmptyString /\ decode v = Some x.
Proof.
  unfold Unmarshal. destruct (parse data) as [[v rest]|]; [|discriminate].
  destruct (skip_space rest) eqn:E; [|discriminate].
  destruct (decode v) eqn:D; [|discriminate].
  intros [= <-]. eauto.
Qed.

(** What [Unmarshal] stores is within the range of [int] and valid UTF-8. *)
Lemma Unmarshal_PostWithoutId_wf body p :
  Unmarshal_PostWithoutId body = Ok p -> wf_PostWithoutId p.
Proof.
  intros H. apply Unmarshal_inv in H. destruct H as (v & rest & Hp & _ & Hd).
  apply parse_value_ok in Hp.
  assert (G : wfp_PostWithoutId p).
  { destruct v; cbn [decode_struct] in Hd; try discriminate Hd.
    - injection Hd as <-. unfold wfp_PostWithoutId, wfp_Post; cbn; auto using int64_zero, wf_nil.
    - eapply (object_preserves wfp_PostWithoutId); [apply fields_PostWithoutId_wf
                                                   | exact Hp | | exact Hd].
      unfold wfp_PostWithoutId, wfp_Post; cbn; auto using int64_zero, wf_nil. }
  destruct G as (Hu & Ht & Hb). unfold wf_PostWithoutId; auto using wf_ValidString.
Qed.

Lemma Unmarshal_Post_wf body p : Unmarshal_Post body = Ok p -> wf_Post p.
Proof.
  intros H. apply Unmarshal_inv in H. destruct H as (v & rest & Hp & _ & Hd).
  apply parse_value_ok in Hp.
  assert (G : wfp_Post p).
  { destruct v; cbn [decode_struct] in Hd; try discriminate Hd.
    - injection Hd as <-. unfold wfp_PostWithoutId, wfp_Post; cbn; auto using int64_zero, wf_nil.
    - eapply (object_preserves wfp_Post); [apply fields_Post_wf | exact Hp | | exact Hd].
      unfold wfp_PostWithoutId, wfp_Post; cbn; auto using int64_zero, wf_nil. }
  destruct G as (Hi & Hu & Ht & Hb). unfold wf_Post; auto 6 using wf_ValidString.
Qed.

Lemma Unmarshal_Decode {T : Type} (decode : value -> option T) data x :
  Unmarshal decode data = Ok x -> Decode decode data = Ok x.
Proof.
  intros H. apply Unmarshal_inv in H. destruct H as (v & rest & Hp & _ & Hd).
  unfold Decode. rewrite Hp, Hd.
  unfold parse in Hp. cbn [parse_value] in Hp.
  destruct (skip_space data); [discriminate Hp | reflexivity].
Qed.

(** ** The fuel of the parser *)

Import json.

Lemma skip_space_len s : (String.length (skip_space s) <= String.length s)%nat.
Proof.
  induction s as [|c s IH]; cbn [skip_space]; [lia|].
  destruct (isSpace c); cbn [String.length] in *; lia.
Qed.

Lemma skip_space_cons s c r : skip_space s = String c r -> (String.length r < String.length s)%nat.
Proof. intros H. pose proof (skip_space_len s) as L. rewrite H in L. cbn in L. lia. Qed.

Lemma strip_prefix_len pre s rest : strip_prefix pre s = Some rest -> (String.length rest <= String.length s)%nat.
Proof.
  revert s. induction pre as [|a pre IH]; intros s; cbn [strip_prefix].
  - intros [= ->]. lia.
  - destruct s as [|b s]; [discriminate|]. destruct (a =? b)%char; [|discriminate].
    intros H. apply IH in H. cbn [String.length]. lia.
Qed.

Lemma prepend_rest pre res out rest :
  prepend pre res = Some (out, rest) -> exists o, res = Some (o, rest).
Proof. destruct res as [[o r]|]; cbn; [|discriminate]. intros [= <- <-]. eauto. Qed.

Lemma parse_string_len_aux n :
  forall s out rest,
    (String.length s <= n)%nat -> parse_string s = Some (out, rest) -> (String.length rest < String.length s)%nat.
Proof.
  induction n as [|n IH]; intros s out rest Hn H.
  - destruct s; [discriminate H | simpl in Hn; lia].
  - destruct s as [|c r]; [discriminate H|].
    cbn [String.length] in Hn. cbn [parse_string] in H.
    assert (IHr : forall t o, (String.length t <= String.length r)%nat ->
                  parse_string t = Some (o, rest) -> (String.length rest < String.length t)%nat).
    { intros t o Ht E. apply (IH t o rest); [lia | exact E]. }
    clear IH. cbn [String.length].
    assert (Step : forall pre t, (String.length t <= String.length r)%nat ->
                   prepend pre (parse_string t) = Some (out, rest) -> (String.length rest < S (String.length r))%nat).
    { intros pre t Ht E. apply prepend_rest in E. destruct E as [o E].
      apply IHr in E; [lia | exact Ht]. }
    destruct (c =? dquote)%char.
    { injection H as <- <-. lia. }
    destruct (c =? backslash)%char.
    { destruct r as [|e r1]; [discriminate H|].
      destruct (unescape e).
      { eapply Step; [|exact H]. cbn; lia. }
      destruct (e =? "u")%char; [|discriminate H].
      destruct r1 as [|h1 [|h2 [|h3 [|h4 r2]]]]; try discriminate H.
      destruct (getu4 h1 h2 h3 h4) as [rr|]; [|discriminate H].
      destruct (utf16.IsSurrogate rr).
      - destruct r2 as [|b [|u [|g1 [|g2 [|g3 [|g4 r3]]]]]];
          try (eapply Step; [|exact H]; cbn; lia).
        destruct (if (b =? backslash)%char && (u =? "u")%char
                  then getu4 g1 g2 g3 g4 else None) as [rr1|].
        + destruct (utf16.DecodeRune rr rr1 =? utf16.replacementChar);
            (eapply Step; [|exact H]; cbn; lia).
        + eapply Step; [|exact H]; cbn; lia.
      - eapply Step; [|exact H]; cbn; lia. }
    destruct (code c <? 32); [discriminate H|].
    destruct (code c <? utf8.RuneSelf).
    { eapply Step; [|exact H]. lia. }
    destruct (utf8.DecodeRune (String c r)) as [rr size].
    destruct size as [|[|[|[|[|size]]]]];
      try (eapply Step; [|exact H]; lia);
      destruct r as [|c1 [|c2 [|c3 r3]]];
      try (eapply Step; [|exact H]; cbn; lia).
Qed.

Lemma parse_string_len s out rest :
  parse_string s = Some (out, rest) -> (String.length rest < String.length s)%nat.
Proof. apply (parse_string_len_aux (String.length s)). lia. Qed.

Lemma span_digits_len s ds rest : span_digits s = (ds, rest) -> (String.length rest <= String.length s)%nat.
Proof.
  revert ds rest. induction s as [|c s IH]; intros ds rest; cbn [span_digits].
  - intros [= <- <-]. lia.
  - destruct (strconv.isDigit c).
    + destruct (span_digits s) as [ds' rest'] eqn:E. intros [= <- <-].
      specialize (IH _ _ eq_refl). cbn [String.length]. lia.
    + intros [= <- <-]. lia.
Qed.

Lemma scan_int_len s ip rest : scan_int s = Some (ip, rest) -> (String.length rest < String.length s)%nat.
Proof.
  unfold scan_int. destruct s as [|c r]; [discriminate|].
  destruct (c =? "0")%char.
  - intros [= <- <-]. cbn; lia.
  - destruct (strconv.isDigit c); [|discriminate].
    destruct (span_digits r) as [ds rest'] eqn:E. intros [= <- <-].
    apply span_digits_len in E. cbn; lia.
Qed.

Lemma scan_frac_len s fp rest : scan_frac s = Some (fp, rest) -> (String.length rest <= String.length s)%nat.
Proof.
  unfold scan_frac. destruct s as [|c r]; [intros [= <- <-]; lia|].
  destruct (c =? ".")%char.
  - destruct (span_digits r) as [ds rest'] eqn:E. apply span_digits_len in E.
    destruct ds; [discriminate|]. intros [= <- <-]. cbn; lia.
  - intros [= <- <-]. lia.
Qed.

Lemma scan_exp_len s ep rest : scan_exp s = Some (ep, rest) -> (String.length rest <= String.length s)%nat.
Proof.
  unfold scan_exp. destruct s as [|c r]; [intros [= <- <-]; lia|].
  destruct ((c =? "e")%char || (c =? "E")%char).
  - destruct (match r with
              | String g r1 =>
                  if (g =? "+")%char || (g =? "-")%char then (String g EmptyString, r1)
                  else (EmptyString, r)
              | EmptyString => (EmptyString, r)
              end) as [sign r'] eqn:Es.
    assert (Hr' : (String.length r' <= String.length r)%nat).
    { destruct r as [|g r1]; [injection Es as <- <-; lia|].
      destruct ((g =? "+")%char || (g =? "-")%char); injection Es as <- <-; cbn; lia. }
    destruct (span_digits r') as [ds rest'] eqn:E. apply span_digits_len in E.
    destruct ds; [discriminate|]. intros [= <- <-]. cbn; lia.
  - intros [= <- <-]. lia.
Qed.

Lemma scan_number_len s lit rest : scan_number s = Some (lit, rest) -> (String.length rest < String.length s)%nat.
Proof.
  unfold scan_number.
  destruct (match s with
            | String c r => if (c =? "-")%char then (String c EmptyString, r) else (EmptyString, s)
            | EmptyString => (EmptyString, s)
            end) as [sign s1] eqn:Es.
  assert (Hs1 : (String.length s1 <= String.length s)%nat).
  { destruct s as [|c r]; [injection Es as <- <-; lia|].
    destruct (c =? "-")%char; injection Es as <- <-; cbn; lia. }
  destruct (scan_int s1) as [[ip s2]|] eqn:E1; [|discriminate].
  destruct (scan_frac s2) as [[fp s3]|] eqn:E2; [|discriminate].
  destruct (scan_exp s3) as [[ep s4]|] eqn:E3; [|discriminate].
  intros [= <- <-].
  apply scan_int_len in E1. apply scan_frac_len in E2. apply scan_exp_len in E3. lia.
Qed.

Ltac refuel f :=
  destruct f as [|f]; [cbn [String.length] in *; lia|];
  cbn [parse_value parse_members parse_elements];
  repeat match goal with
         | H : ?x = _ |- context [?x] => rewrite H
         end.

(** A value that some amount of fuel finds is found, with the same rest, by
    every amount of fuel that is at least the number of bytes the value
    takes. *)
Lemma parse_fuel_stable F :
  (forall d s v rest,
      parse_value F d s = Some (v, rest) ->
      (String.length rest < String.length s)%nat /\
      forall f, (String.length s - String.length rest <= f)%nat -> parse_value f d s = Some (v, rest)) /\
  (forall d s acc v rest,
      parse_members F d s acc = Some (v, rest) ->
      (String.length rest < String.length s)%nat /\
      forall f, (String.length s - String.length rest <= f)%nat -> parse_members f d s acc = Some (v, rest)) /\
  (forall d s acc v rest,
      parse_elements F d s acc = Some (v, rest) ->
      (String.length rest < String.length s)%nat /\
      forall f, (String.length s - String.length rest <= f)%nat -> parse_elements f d s acc = Some (v, rest)).
Proof.
  induction F as [|F (IHv & IHm & IHe)].
  - repeat split; intros; discriminate.
  - split; [|split].
    + intros d s v rest H. cbn [parse_value] in H.
      destruct (skip_space s) as [|c r] eqn:Esk; [discriminate H|].
      pose proof (skip_space_cons _ _ _ Esk) as L.
      destruct (c =? "{")%char eqn:E1.
      { destruct (maxNestingDepth <? d + 1) eqn:Ed; [discriminate H|].
        destruct (skip_space r) as [|c' r'] eqn:Esk'; [discriminate H|].
        pose proof (skip_space_cons _ _ _ Esk') as L'.
        destruct (c' =? "}")%char eqn:E2.
        - injection H as <- <-. split; [lia|]. intros f Hf. refuel f. reflexivity.
        - destruct (IHm _ _ _ _ _ H) as [Lr Hr]. cbn [String.length] in Lr.
          split; [lia|]. intros f Hf. refuel f. apply Hr. cbn [String.length]. lia. }
      destruct (c =? "[")%char eqn:E2.
      { destruct (maxNestingDepth <? d + 1) eqn:Ed; [discriminate H|].
        destruct (skip_space r) as [|c' r'] eqn:Esk'; [discriminate H|].
        pose proof (skip_space_cons _ _ _ Esk') as L'.
        destruct (c' =? "]")%char eqn:E3.
        - injection H as <- <-. split; [lia|]. intros f Hf. refuel f. reflexivity.
        - destruct (IHe _ _ _ _ _ H) as [Lr Hr]. cbn [String.length] in Lr.
          split; [lia|]. intros f Hf. refuel f. apply Hr. cbn [String.length]. lia. }
      destruct (c =? dquote)%char eqn:E3.
      { destruct (parse_string r) as [[str r']|] eqn:Es; [|discriminate H].
        injection H as <- <-. apply parse_string_len in Es as Ls.
        split; [lia|]. intros f Hf. refuel f. reflexivity. }
      destruct (c =? "t")%char eqn:E4.
      { destruct (strip_prefix "rue" r) as [r'|] eqn:Es; [|discriminate H].
        injection H as <- <-. apply strip_prefix_len in Es as Ls.
        split; [lia|]. intros f Hf. refuel f. reflexivity. }
      destruct (c =? "f")%char eqn:E5.
      { destruct (strip_prefix "alse" r) as [r'|] eqn:Es; [|discriminate H].
        injection H as <- <-. apply strip_prefix_len in Es as Ls.
        split; [lia|]. intros f Hf. refuel f. reflexivity. }
      destruct (c =? "n")%char eqn:E6.
      { destruct (strip_prefix "ull" r) as [r'|] eqn:Es; [|discriminate H].
        injection H as <- <-. apply strip_prefix_len in Es as Ls.
        split; [lia|]. intros f Hf. refuel f. reflexivity. }
      destruct (scan_number (String c r)) as [[lit r']|] eqn:Es; [|discriminate H].
      injection H as <- <-. apply scan_number_len in Es as Ls. cbn [String.length] in Ls.
      split; [lia|]. intros f Hf. refuel f. reflexivity.
    + intros d s acc v rest H. cbn [parse_members] in H.
      destruct (skip_space s) as [|c r] eqn:Esk; [discriminate H|].
      pose proof (skip_space_cons _ _ _ Esk) as L.
      destruct (c =? dquote)%char eqn:E1; [|discriminate H].
      destruct (parse_string r) as [[k r1]|] eqn:Es; [|discriminate H].
      apply parse_string_len in Es as Ls.
      destruct (skip_space r1) as [|c1 r2] eqn:Esk1; [discriminate H|].
      pose proof (skip_space_cons _ _ _ Esk1) as L1.
      destruct (c1 =? ":")%char eqn:E2; [|discriminate H].
      destruct (parse_value F d r2) as [[v' r3]|] eqn:Ev; [|discriminate H].
      destruct (IHv _ _ _ _ Ev) as [Lv Hv].
      destruct (skip_space r3) as [|c3 r4] eqn:Esk3; [discriminate H|].
      pose proof (skip_space_cons _ _ _ Esk3) as L3.
      destruct (c3 =? ",")%char eqn:E3.
      * destruct (IHm _ _ _ _ _ H) as [Lr Hr].
        split; [lia|]. intros f Hf. refuel f.
        rewrite (Hv f) by lia. rewrite Esk3, E3. apply Hr. lia.
      * destruct (c3 =? "}")%char eqn:E4; [|discriminate H].
        injection H as <- <-.
        split; [lia|]. intros f Hf. refuel f.
        rewrite (Hv f) by lia. rewrite Esk3, E3, E4. reflexivity.
    + intros d s acc v rest H. cbn [parse_elements] in H.
      destruct (parse_value F d s) as [[v' r1]|] eqn:Ev; [|discriminate H].
      destruct (IHv _ _ _ _ Ev) as [Lv Hv].
      destruct (skip_space r1) as [|c r2] eqn:Esk; [discriminate H|].
      pose proof (skip_space_cons _ _ _ Esk) as L.
      destruct (c =? ",")%char eqn:E1.
      * destruct (IHe _ _ _ _ _ H) as [Lr Hr].
        split; [lia|]. intros f Hf. refuel f.
        rewrite (Hv f) by lia. rewrite Esk, E1. apply Hr. lia.
      * destruct (c =? "]")%char eqn:E2; [|discriminate H].
        injection H as <- <-.
        split; [lia|]. intros f Hf. refuel f.
        rewrite (Hv f) by lia. rewrite Esk, E1, E2. reflexivity.
Qed.

(** The fuel [parse] takes is enough: whatever value any amount of fuel
    finds at the head of [data], [parse] finds it. *)
Lemma parse_fuel_enough data F v rest :
  parse_value F 0 data = Some (v, rest) -> parse data = Some (v, rest).
Proof.
  intros H. destruct (proj1 (parse_fuel_stable F) _ _ _ _ H) as [_ Hf].
  apply Hf. lia.
Qed.

(** ** The fixtures, the handlers and [main] *)

Import http routes.

Lemma GetPosts_mock :
  JsonPlaceholderMock.GetPosts tt
  = Done (Ok (Response.mk StatusOK (json.encode_Posts [Post.mk 1 2 "Hello World" "Foo Bar"]))).
Proof. reflexivity. Qed.

(** [CreatePost] returns exactly when the body decodes, and then with the
    record it built. *)
Lemma CreatePost_mock_Ok body reqPost :
  json.Unmarshal_PostWithoutId body = Ok reqPost ->
  JsonPlaceholderMock.CreatePost body
  = Done (Ok (Response.mk StatusOK
                (json.encode_Post (Post.mk 101 (PostWithoutId.UserId reqPost)
                                           (PostWithoutId.Title reqPost)
                                           (PostWithoutId.Body reqPost))))).
Proof. intros H. unfold JsonPlaceholderMock.CreatePost. rewrite H. reflexivity. Qed.

Lemma CreatePost_mock_Err body e :
  json.Unmarshal_PostWithoutId body = Err e ->
  JsonPlaceholderMock.CreatePost body = Panic (Panicf "Error decoding request body: %v" e).
Proof. intros H. unfold JsonPlaceholderMock.CreatePost. rewrite H. reflexivity. Qed.

(** Whenever the fixture returns, the body decoded and the response holds
    the record with Id 101. *)
Lemma CreatePost_mock_inv body x :
  JsonPlaceholderMock.CreatePost body = Done x ->
  exists reqPost,
    json.Unmarshal_PostWithoutId body = Ok reqPost /\
    x = Ok (Response.mk StatusOK
              (json.encode_Post (Post.mk 101 (PostWithoutId.UserId reqPost)
                                         (PostWithoutId.Title reqPost)
                                         (PostWithoutId.Body reqPost)))).
Proof.
  unfold JsonPlaceholderMock.CreatePost.
  destruct (json.Unmarshal_PostWithoutId body) as [reqPost | e]; [|discriminate].
  cbn [json.Marshal_Post]. intros [= <-]. exists reqPost. split; reflexivity.
Qed.

Lemma created_wf reqPost :
  wf_PostWithoutId reqPost ->
  wf_Post (Post.mk 101 (PostWithoutId.UserId reqPost) (PostWithoutId.Title reqPost)
                   (PostWithoutId.Body reqPost)).
Proof.
  intros (Hu & Ht & Hb). unfold wf_Post. cbn. repeat split; try assumption.
  all: unfold int64_range in *; lia.
Qed.

(** The response of the fixture decodes to the record it built. *)
Lemma CreatePost_mock_decodes body reqPost :
  json.Unmarshal_PostWithoutId body = Ok reqPost ->
  exists resp,
    JsonPlaceholderMock.CreatePost body = Done (Ok resp) /\
    Response.StatusCode resp = StatusOK /\
    json.Unmarshal_Post (Response.Body resp)
    = Ok (Post.mk 101 (PostWithoutId.UserId reqPost) (PostWithoutId.Title reqPost)
                  (PostWithoutId.Body reqPost)).
Proof.
  intros H. eexists. split; [apply CreatePost_mock_Ok; exact H|].
  split; [reflexivity|]. cbn [Response.Body].
  apply Unmarshal_encode_Post, created_wf.
  eapply Unmarshal_PostWithoutId_wf; exact H.
Qed.

(** C3. Round trip: for every creation request body that decodes to a
    [PostWithoutId], the fixture [CreatePost] returns a response whose body
    decodes to a [Post] with the UserId, Title and Body of the request
    payload, unmodified. *)
Theorem C3_CreatePost_round_trip body reqPost :
  json.Unmarshal_PostWithoutId body = Ok reqPost ->
  exists resp post,
    JsonPlaceholderMock.CreatePost body = Done (Ok resp) /\
    json.Unmarshal_Post (Response.Body resp) = Ok post /\
    Post.UserId post = PostWithoutId.UserId reqPost /\
    Post.Title post = PostWithoutId.Title reqPost /\
    Post.Body post = PostWithoutId.Body reqPost.
Proof.
  intros H. destruct (CreatePost_mock_decodes body reqPost H) as (resp & Hc & _ & Hd).
  exists resp. eexists. split; [exact Hc|]. split; [exact Hd|].
  repeat split; reflexivity.
Qed.

Lemma C3_witness :
  exists resp post,
    JsonPlaceholderMock.CreatePost testReqBody = Done (Ok resp) /\
    json.Unmarshal_Post (Response.Body resp) = Ok post /\
    Post.UserId post = 1 /\ Post.Title post = "Hello World" /\ Post.Body post = "Foo Bar".
Proof.
  apply (C3_CreatePost_round_trip testReqBody (PostWithoutId.mk 1 "Hello World" "Foo Bar")).
  vm_compute. reflexivity.
Defined.

(** The text of the test's request body: an object with the members
    [UserId], [Title] and [Body] in this order. *)
Lemma testReqBody_text :
  testReqBody
  = "{" ++ json.appendString "UserId" ++ ":1,"
        ++ json.appendString "Title" ++ ":" ++ json.appendString "Hello World" ++ ","
        ++ json.appendString "Body" ++ ":" ++ json.appendString "Foo Bar" ++ "}".
Proof. vm_compute. reflexivity. Qed.

(** The body [json.Marshal] prints for one well-formed record decodes to
    that record. *)
Lemma Marshal_single_post p :
  wf_Post p -> json.Unmarshal_Posts (json.encode_Posts [p]) = Ok [p].
Proof. intros Hp. apply Unmarshal_encode_Posts. constructor; [exact Hp | constructor]. Qed.

Lemma Unmarshal_invalid {T : Type} (decode : json.value -> option T) data :
  json.checkValid data = false -> json.Unmarshal decode data = Err SyntaxError.
Proof.
  unfold json.checkValid, json.Unmarshal.
  destruct (json.parse data) as [[v rest]|]; [|reflexivity].
  destruct (json.skip_space rest); [discriminate | reflexivity].
Qed.

Section Server.

Context (pkg : Package) (env : gmap string string).

(** What [main]'s router does with the requests the claims speak of. *)
Lemma serve_GET_posts hdr body r :
  serve (snd (main pkg env)) "GET" "/posts" hdr body = PostsResource.List pkg NewRecorder r.
Proof. reflexivity. Qed.

Lemma serve_POST_posts hdr body :
  serve (snd (main pkg env)) "POST" "/posts" hdr body
  = PostsResource.Create pkg NewRecorder
      (Request.mk "POST" "/posts" hdr body (Some (Context.mk "/" EmptyString))).
Proof. reflexivity. Qed.

Lemma serve_GET_root hdr body :
  serve (snd (main pkg env)) "GET" "/" hdr body
  = Done (ResponseRecorder.mk 200 ∅ "Hello World!" true).
Proof. reflexivity. Qed.

Lemma List_Ok w r body ps :
  GetPosts pkg tt = Done (Ok (Response.mk StatusOK body)) ->
  json.Unmarshal_Posts body = Ok ps ->
  ResponseRecorder.wroteHeader w = false ->
  PostsResource.List pkg w r
  = Done (ResponseRecorder.mk StatusOK
            (<["Content-Type" := "application/json"]> (ResponseRecorder.HeaderMap w))
            (ResponseRecorder.Body w ++ body) true).
Proof.
  intros Hup Hdec Hw. unfold PostsResource.List. rewrite Hup. cbn [mbind exec_bind].
  cbn [Response.Body Response.StatusCode]. rewrite Hdec.
  unfold WriteHeader, Write, WriteHeader, SetHeader. cbn [ResponseRecorder.wroteHeader].
  rewrite Hw. reflexivity.
Qed.

(** C1. For a GET request to the posts path, when the upstream [GetPosts]
    returns status 200 and a body that holds a single post record, the
    [List] handler, called directly as in the test or through the router of
    [main], responds with status 200 and a body that decodes as an array of
    length 1 holding that record unchanged. *)
Theorem C1_List_single_post hdr reqBody body p :
  GetPosts pkg tt = Done (Ok (Response.mk StatusOK body)) ->
  json.Unmarshal_Posts body = Ok [p] ->
  exists rr,
    (forall r, PostsResource.List pkg NewRecorder r = Done rr) /\
    serve (snd (main pkg env)) "GET" "/posts" hdr reqBody = Done rr /\
    ResponseRecorder.Code rr = StatusOK /\
    exists posts,
      json.Decode_Posts (ResponseRecorder.Body rr) = Ok posts /\
      List.length posts = 1%nat /\ posts = [p].
Proof.
  intros Hup Hdec.
  assert (HL : forall r, PostsResource.List pkg NewRecorder r
                         = Done (ResponseRecorder.mk StatusOK
                                   (<["Content-Type" := "application/json"]> ∅) body true)).
  { intros r. rewrite (List_Ok NewRecorder r body [p] Hup Hdec eq_refl). reflexivity. }
  eexists. split; [exact HL|]. split.
  - rewrite (serve_GET_posts hdr reqBody (NewRequest "GET" "/posts" EmptyString)).
    apply HL.
  - split; [reflexivity|]. exists [p]. cbn [ResponseRecorder.Body].
    split; [|split; reflexivity].
    apply Unmarshal_Decode. exact Hdec.
Qed.

Lemma Create_Ok w r reqPost st body post :
  json.Unmarshal_PostWithoutId (Request.Body r) = Ok reqPost ->
  CreatePost pkg (Request.Body r) = Done (Ok (Response.mk st body)) ->
  json.Unmarshal_Post body = Ok post ->
  ResponseRecorder.wroteHeader w = false ->
  PostsResource.Create pkg w r
  = Done (ResponseRecorder.mk StatusOK
            (<["Content-Type" := "application/json"]> (ResponseRecorder.HeaderMap w))
            (ResponseRecorder.Body w ++ json.encode_Post post) true).
Proof.
  intros Hreq Hup Hdec Hw. unfold PostsResource.Create. rewrite Hreq, Hup.
  cbn [mbind exec_bind Response.Body]. rewrite Hdec. cbn [json.Marshal_Post].
  unfold WriteHeader, Write, WriteHeader, SetHeader. cbn [ResponseRecorder.wroteHeader].
  rewrite Hw. reflexivity.
Qed.

(** C2. For a POST request to the posts path with the body of the test, when
    the upstream [CreatePost] answers with an object that has Id 101 and the
    other fields of the request, the [Create] handler, called directly or
    through the router of [main], responds with status 200 and a body that
    decodes to a [Post] whose Id is 101. *)
Theorem C2_Create_test_post hdr st body :
  CreatePost pkg testReqBody = Done (Ok (Response.mk st body)) ->
  json.Unmarshal_Post body = Ok (Post.mk 101 1 "Hello World" "Foo Bar") ->
  exists rr,
    (forall ctx, PostsResource.Create pkg NewRecorder
                   (Request.mk "POST" "/posts" hdr testReqBody ctx) = Done rr) /\
    serve (snd (main pkg env)) "POST" "/posts" hdr testReqBody = Done rr /\
    ResponseRecorder.Code rr = StatusOK /\
    exists post,
      json.Decode_Post (ResponseRecorder.Body rr) = Ok post /\ Post.Id post = 101.
Proof.
  intros Hup Hdec.
  assert (Hreq : json.Unmarshal_PostWithoutId testReqBody
                 = Ok (PostWithoutId.mk 1 "Hello World" "Foo Bar"))
    by (vm_compute; reflexivity).
  assert (HC : forall ctx, PostsResource.Create pkg NewRecorder
                             (Request.mk "POST" "/posts" hdr testReqBody ctx)
                           = Done (ResponseRecorder.mk StatusOK
                                     (<["Content-Type" := "application/json"]> ∅)
                                     (json.encode_Post (Post.mk 101 1 "Hello World" "Foo Bar"))
                                     true)).
  { intros ctx.
    rewrite (Create_Ok NewRecorder (Request.mk "POST" "/posts" hdr testReqBody ctx)
               _ st body _ Hreq Hup Hdec eq_refl).
    reflexivity. }
  eexists. split; [exact HC|]. split.
  - rewrite serve_POST_posts. apply HC.
  - split; [reflexivity|]. exists (Post.mk 101 1 "Hello World" "Foo Bar").
    split; [|reflexivity]. cbn [ResponseRecorder.Body]. vm_compute. reflexivity.
Qed.

(** The round trip of C3 through the [Create] handler with the fixture
    installed: the record the client decodes has the fields of the request
    payload and Id 101. *)
Lemma Create_round_trip hdr ctx body reqPost :
  CreatePost pkg = JsonPlaceholderMock.CreatePost ->
  json.Unmarshal_PostWithoutId body = Ok reqPost ->
  exists rr,
    PostsResource.Create pkg NewRecorder (Request.mk "POST" "/posts" hdr body ctx) = Done rr /\
    ResponseRecorder.Code rr = StatusOK /\
    json.Decode_Post (ResponseRecorder.Body rr)
    = Ok (Post.mk 101 (PostWithoutId.UserId reqPost) (PostWithoutId.Title reqPost)
                  (PostWithoutId.Body reqPost)).
Proof.
  intros Hpkg H. destruct (CreatePost_mock_decodes body reqPost H) as ([st b] & Hc & _ & Hd).
  cbn [Response.Body] in Hd.
  eexists. split.
  - eapply (Create_Ok NewRecorder (Request.mk "POST" "/posts" hdr body ctx)
                      reqPost st b _ H); [rewrite Hpkg; exact Hc | exact Hd | reflexivity].
  - split; [reflexivity|]. cbn [ResponseRecorder.Body NewRecorder String.append].
    rewrite <- (sapp_nil_r (json.encode_Post _)).
    apply Decode_encode_Post. eapply Unmarshal_Post_wf; exact Hd.
Qed.

(** C5. For every [List] invocation in which the upstream call returns a
    transport-level error, or returns a body that is not valid JSON, the
    handler returns (it does not panic) and the response it wrote on the
    fresh writer has a 5xx status. *)
Theorem C5_List_upstream_failure r :
  (exists e, GetPosts pkg tt = Done (Err e)) \/
  (exists resp, GetPosts pkg tt = Done (Ok resp) /\
                json.checkValid (Response.Body resp) = false) ->
  exists rr,
    PostsResource.List pkg NewRecorder r = Done rr /\
    500 <= ResponseRecorder.Code rr <= 599.
Proof.
  intros [[e He] | (resp & He & Hbad)]; unfold PostsResource.List; rewrite He;
    cbn [mbind exec_bind].
  - eexists. split; [reflexivity|]. vm_compute. split; discriminate.
  - unfold json.Unmarshal_Posts. rewrite (Unmarshal_invalid _ _ Hbad).
    eexists. split; [reflexivity|]. vm_compute. split; discriminate.
Qed.

(** C6. A GET request to the root path, whatever its header and body, is
    answered with status 200 and the exact body [Hello World!]. *)
Theorem C6_GET_root hdr body :
  exists rr,
    serve (snd (main pkg env)) "GET" "/" hdr body = Done rr /\
    ResponseRecorder.Code rr = StatusOK /\
    ResponseRecorder.Body rr = "Hello World!".
Proof.
  eexists. split; [apply serve_GET_root|]. split; reflexivity.
Qed.

(** C7. The port comes from the environment variable PORT: when PORT is
    unset or empty the server listens on port 8080, and for every non-empty
    value of PORT it listens on that value. *)
Theorem C7_listen_port :
  ((env !! "PORT" = None \/ env !! "PORT" = Some EmptyString) ->
   Addr (snd (main pkg env)) = ":8080") /\
  (forall v, env !! "PORT" = Some v -> v <> EmptyString ->
             Addr (snd (main pkg env)) = ":" ++ v).
Proof.
  unfold main. cbn [snd Addr]. unfold port_of, os.Getenv. split.
  - intros [-> | ->]; reflexivity.
  - intros v -> Hv. cbv [default from_option id].
    destruct (String.eqb_spec v EmptyString) as [E | _]; [contradiction | reflexivity].
Qed.

(** The line [main] logs names the same port. *)
Lemma main_logs :
  fst (main pkg env) = "Starting up on http://localhost:" ++ port_of env
  /\ Addr (snd (main pkg env)) = ":" ++ port_of env.
Proof. split; reflexivity. Qed.

(** [TestGetPostsHandler] and [TestCreatePost] pass, whatever the package
    variables held before: each installs its fixture and reports nothing. *)
Lemma TestGetPostsHandler_passes :
  TestGetPostsHandler pkg = Done (mkPackage JsonPlaceholderMock.GetPosts (CreatePost pkg), []).
Proof. reflexivity. Qed.

Lemma TestCreatePost_passes :
  TestCreatePost pkg = Done (mkPackage (GetPosts pkg) JsonPlaceholderMock.CreatePost, []).
Proof. reflexivity. Qed.

End Server.

Lemma substring_all s : substring 0 (String.length s) s = s.
Proof. pose proof (substring_app s EmptyString) as H. rewrite sapp_nil_r in H. exact H. Qed.

Lemma substring_none s : forall n, substring n 0 s = EmptyString.
Proof.
  induction s as [|c s IH]; intros [|n]; cbn [substring]; try reflexivity. apply IH.
Qed.

Lemma Bytes_NewBuffer s : bytes.Bytes (bytes.NewBuffer s) = s.
Proof.
  unfold bytes.Bytes, bytes.NewBuffer. cbn [bytes.buf bytes.off].
  rewrite Nat.sub_0_r. apply substring_all.
Qed.

(** A buffer read to its end has no bytes left. *)
Lemma Bytes_read b : bytes.Bytes (snd (bytes.ReadAll b)) = EmptyString.
Proof.
  unfold bytes.Bytes, bytes.ReadAll. cbn [snd bytes.buf bytes.off].
  rewrite Nat.sub_diag. apply substring_none.
Qed.

Lemma ReadAll_new (h : stream.Heap) s :
  stream.ReadAll (h ++ [bytes.NewBuffer s])%list (List.length h)
  = (s, (h ++ [bytes.mkBuffer s (String.length s)])%list).
Proof.
  unfold stream.ReadAll, stream.Heap. rewrite list_lookup_middle by reflexivity.
  unfold bytes.ReadAll. rewrite Bytes_NewBuffer. f_equal.
  rewrite insert_app_r_alt by reflexivity. rewrite Nat.sub_diag. reflexivity.
Qed.

(** The fixture [GetPosts] through its reader, on any buffers: the handler
    has what the fixture of the package gives, and one more buffer is left
    behind, read to its end. *)
Lemma received_GetPosts (h : stream.Heap) :
  stream.received stream.JsonPlaceholderMock.GetPosts h
  = (JsonPlaceholderMock.GetPosts tt,
     (h ++ [snd (bytes.ReadAll
                   (bytes.NewBuffer
                      (json.encode_Posts [Post.mk 1 2 "Hello World" "Foo Bar"])))])%list).
Proof.
  unfold stream.received, stream.JsonPlaceholderMock.GetPosts.
  cbn [json.Marshal_Posts stream.Body stream.StatusCode].
  rewrite ReadAll_new. reflexivity.
Qed.

(** A reader is spent by its first reading: an upstream that handed out one
    and the same reader at every call would give its bytes to the first
    request and none to the second. *)
Lemma received_same_reader s :
  let up : stream.Call := fun h => Done (Ok (stream.mkResponse StatusOK 0), h) in
  fst (stream.received up [bytes.NewBuffer s]) = Done (Ok (Response.mk StatusOK s)) /\
  fst (stream.received up (snd (stream.received up [bytes.NewBuffer s])))
  = Done (Ok (Response.mk StatusOK EmptyString)).
Proof.
  cbv zeta. unfold stream.received, stream.ReadAll, bytes.ReadAll.
  cbn [stream.Body stream.StatusCode lookup list_lookup insert list_insert fst snd].
  rewrite Bytes_NewBuffer. split; [reflexivity|].
  change (bytes.mkBuffer (bytes.buf (bytes.NewBuffer s))
                         (String.length (bytes.buf (bytes.NewBuffer s))))
    with (snd (bytes.ReadAll (bytes.NewBuffer s))).
  rewrite Bytes_read. reflexivity.
Qed.

(** C4. Idempotence: with the fixture [GetPosts] installed, any two GET
    requests to /posts, whatever their headers and bodies and whatever
    buffers of the process they find (those the first request left behind,
    for the second), get the same response, status code and body bytes
    alike: status 200 and the array the fixture marshals.  The fixture
    builds a new reader at every call, so the body the first request read to
    its end is there again for the second. *)
Theorem C4_GET_posts_idempotent env cp hdr1 body1 hdr2 body2 h h' rr1 h1 rr2 h2 :
  stream.GET_posts env stream.JsonPlaceholderMock.GetPosts cp hdr1 body1 h = (rr1, h1) ->
  stream.GET_posts env stream.JsonPlaceholderMock.GetPosts cp hdr2 body2 h' = (rr2, h2) ->
  rr1 = rr2 /\
  exists rr,
    rr1 = Done rr /\
    ResponseRecorder.Code rr = StatusOK /\
    ResponseRecorder.Body rr = json.encode_Posts [Post.mk 1 2 "Hello World" "Foo Bar"].
Proof.
  unfold stream.GET_posts. rewrite !received_GetPosts.
  intros [= <- <-] [= <- <-].
  set (pkg := mkPackage (fun _ => JsonPlaceholderMock.GetPosts tt) cp).
  assert (HL : forall hdr body,
             serve (snd (main pkg env)) "GET" "/posts" hdr body
             = Done (ResponseRecorder.mk StatusOK
                       (<["Content-Type" := "application/json"]> ∅)
                       (json.encode_Posts [Post.mk 1 2 "Hello World" "Foo Bar"]) true)).
  { intros hdr body.
    rewrite (serve_GET_posts pkg env hdr body (NewRequest "GET" "/posts" EmptyString)).
    rewrite (List_Ok pkg NewRecorder _ _ [Post.mk 1 2 "Hello World" "Foo Bar"]
               GetPosts_mock); [reflexivity | | reflexivity].
    apply Marshal_single_post. unfold wf_Post, int64_range. cbn. repeat split; lia. }
  rewrite !HL. split; [reflexivity|].
  eexists. split; [reflexivity|]. split; reflexivity.
Qed.

Lemma C4_witness :
  fst (stream.GET_posts ∅ stream.JsonPlaceholderMock.GetPosts JsonPlaceholderMock.CreatePost
         ∅ EmptyString [])
  = fst (stream.GET_posts ∅ stream.JsonPlaceholderMock.GetPosts JsonPlaceholderMock.CreatePost
           ∅ "again"
           (snd (stream.GET_posts ∅ stream.JsonPlaceholderMock.GetPosts
                   JsonPlaceholderMock.CreatePost ∅ EmptyString [])))
  /\ exists rr,
       fst (stream.GET_posts ∅ stream.JsonPlaceholderMock.GetPosts
              JsonPlaceholderMock.CreatePost ∅ EmptyString []) = Done rr /\
       ResponseRecorder.Code rr = StatusOK /\
       ResponseRecorder.Body rr = json.encode_Posts [Post.mk 1 2 "Hello World" "Foo Bar"].
Proof.
  apply (C4_GET_posts_idempotent ∅ JsonPlaceholderMock.CreatePost ∅ EmptyString ∅ "again"
           [] (snd (stream.GET_posts ∅ stream.JsonPlaceholderMock.GetPosts
                      JsonPlaceholderMock.CreatePost ∅ EmptyString []))
           _ (snd (stream.GET_posts ∅ stream.JsonPlaceholderMock.GetPosts
                     JsonPlaceholderMock.CreatePost ∅ EmptyString []))
           _ (snd (stream.GET_posts ∅ stream.JsonPlaceholderMock.GetPosts
                     JsonPlaceholderMock.CreatePost ∅ "again"
                     (snd (stream.GET_posts ∅ stream.JsonPlaceholderMock.GetPosts
                             JsonPlaceholderMock.CreatePost ∅ EmptyString [])))));
    reflexivity.
Defined.

Lemma C1_witness :
  exists rr,
    (forall r, PostsResource.List mock NewRecorder r = Done rr) /\
    serve (snd (main mock ∅)) "GET" "/posts" ∅ EmptyString = Done rr /\
    ResponseRecorder.Code rr = StatusOK /\
    exists posts,
      json.Decode_Posts (ResponseRecorder.Body rr) = Ok posts /\
      List.length posts = 1%nat /\ posts = [Post.mk 1 2 "Hello World" "Foo Bar"].
Proof.
  apply (C1_List_single_post mock ∅ ∅ EmptyString
           (json.encode_Posts [Post.mk 1 2 "Hello World" "Foo Bar"])
           (Post.mk 1 2 "Hello World" "Foo Bar")).
  - reflexivity.
  - vm_compute. reflexivity.
Defined.

Lemma C2_witness :
  exists rr,
    (forall ctx, PostsResource.Create mock NewRecorder
                   (Request.mk "POST" "/posts" ∅ testReqBody ctx) = Done rr) /\
    serve (snd (main mock ∅)) "POST" "/posts" ∅ testReqBody = Done rr /\
    ResponseRecorder.Code rr = StatusOK /\
    exists post,
      json.Decode_Post (ResponseRecorder.Body rr) = Ok post /\ Post.Id post = 101.
Proof.
  apply (C2_Create_test_post mock ∅ ∅ StatusOK
           (json.encode_Post (Post.mk 101 1 "Hello World" "Foo Bar"))).
  - vm_compute. reflexivity.
  - vm_compute. reflexivity.
Defined.

Lemma C5_witness :
  exists rr,
    PostsResource.List
      (mkPackage (fun _ => Done (Ok (Response.mk StatusOK "{not json")))
                 JsonPlaceholderMock.CreatePost)
      NewRecorder (NewRequest "GET" "/posts" EmptyString) = Done rr /\
    500 <= ResponseRecorder.Code rr <= 599.
Proof.
  apply C5_List_upstream_failure.
  right. eexists. split; [reflexivity | vm_compute; reflexivity].
Defined.

Lemma C7_witness :
  Addr (snd (main mock ∅)) = ":8080" /\
  Addr (snd (main mock (<["PORT" := "3000"]> ∅))) = ":3000".
Proof.
  split.
  - apply (proj1 (C7_listen_port mock ∅)). left. reflexivity.
  - apply (proj2 (C7_listen_port mock (<["PORT" := "3000"]> ∅)) "3000").
    + vm_compute. reflexivity.
    + discriminate.
Defined.

(** ** Routing *)

Import http routes.

Lemma serve_routeHTTP srv method path hdr body :
  chi.tree (Handler srv) <> [] -> chi.middlewares (Handler srv) = [middleware.Logger] ->
  serve srv method path hdr body
  = chi.routeHTTP (Handler srv) NewRecorder
      (Request.mk method path hdr body (Some (Context.mk EmptyString EmptyString))).
Proof.
  intros Ht Hm. unfold serve, chi.ServeHTTP. destruct (chi.tree (Handler srv)); [congruence|].
  cbn [Request.RouteCtx]. rewrite Hm. reflexivity.
Qed.

Section Routing.

Context (pkg : Package) (env : gmap string string).

Lemma FindRoute_main m path :
  chi.FindRoute (Handler (snd (main pkg env))) m path
  = chi.search
      [ chi.mkRoute [chi.mGET] "/" (fun w _ => Write "Hello World!" w);
        chi.mkRoute chi.mALL "/posts" (chi.mountHandler (chi.ServeHTTP (PostsResource.Routes pkg)));
        chi.mkRoute chi.mALL "/posts/" (chi.mountHandler (chi.ServeHTTP (PostsResource.Routes pkg)));
        chi.mkRoute chi.mALL "/posts/*" (chi.mountHandler (chi.ServeHTTP (PostsResource.Routes pkg))) ]
      m path.
Proof. reflexivity. Qed.

Lemma FindRoute_posts m path :
  chi.FindRoute (PostsResource.Routes pkg) m path
  = chi.search
      [ chi.mkRoute [chi.mGET] "/" (PostsResource.List pkg);
        chi.mkRoute [chi.mPOST] "/" (PostsResource.Create pkg) ] m path.
Proof. reflexivity. Qed.

Lemma match_static pat path :
  chi.wildcardPrefix pat = None ->
  chi.match_pattern pat path = if (pat =? path)%string then Some EmptyString else None.
Proof. intros H. unfold chi.match_pattern. now rewrite H. Qed.

Lemma match_wildcard pat pre path :
  chi.wildcardPrefix pat = Some pre -> chi.match_pattern pat path = strip_prefix pre path.
Proof. intros H. unfold chi.match_pattern. now rewrite H. Qed.

Lemma strip_prefix_app pre s w : strip_prefix pre s = Some w -> s = pre ++ w.
Proof.
  revert s. induction pre as [|a pre IH]; intros s; cbn [strip_prefix].
  - intros [= ->]. reflexivity.
  - destruct s as [|b s]; [discriminate|].
    destruct (Ascii.eqb_spec a b) as [-> | _]; [|discriminate].
    intros H. cbn [String.append]. f_equal. now apply IH.
Qed.

Lemma mALL_all m : bool_decide (m ∈ chi.mALL) = true.
Proof. destruct m; reflexivity. Qed.

Lemma methodNotAllowed_code w r :
  ResponseRecorder.wroteHeader w = false ->
  exists rr, chi.methodNotAllowedHandler w r = Done rr /\
             ResponseRecorder.Code rr = StatusMethodNotAllowed.
Proof.
  intros Hw. unfold chi.methodNotAllowedHandler, WriteHeader, Write, WriteHeader.
  rewrite Hw. cbn. eexists. split; reflexivity.
Qed.

Lemma notFound_code w r :
  ResponseRecorder.wroteHeader w = false ->
  exists rr, chi.notFoundHandler w r = Done rr /\ ResponseRecorder.Code rr = StatusNotFound.
Proof.
  intros Hw. unfold chi.notFoundHandler, NotFound, Error, WriteHeader, Write, WriteHeader, SetHeader.
  cbn. rewrite Hw. cbn. eexists. split; reflexivity.
Qed.

Lemma routeHTTP_known mx w method path hdr body rp wild m :
  chi.methodMap method = Some m ->
  chi.routeHTTP mx w (Request.mk method path hdr body (Some (Context.mk rp wild)))
  = match chi.FindRoute mx m (if (rp =? "")%string then path else rp) with
    | (Some (h, wd), _) => h w (Request.mk method path hdr body (Some (Context.mk rp wd)))
    | (None, true) =>
        chi.methodNotAllowedHandler w (Request.mk method path hdr body (Some (Context.mk rp wild)))
    | (None, false) =>
        chi.notFoundHandler w (Request.mk method path hdr body (Some (Context.mk rp wild)))
    end.
Proof.
  intros Hm. unfold chi.routeHTTP.
  cbn [Request.RouteCtx Request.Method Request.Path default from_option id Context.RoutePath].
  rewrite Hm. reflexivity.
Qed.

Lemma routeHTTP_unknown mx w method path hdr body ctx :
  chi.methodMap method = None ->
  chi.routeHTTP mx w (Request.mk method path hdr body ctx)
  = chi.methodNotAllowedHandler w (Request.mk method path hdr body ctx).
Proof.
  intros Hm. unfold chi.routeHTTP. cbn [Request.Method]. rewrite Hm. reflexivity.
Qed.

(** What the mount of the posts resource does with a request: its router
    routes the path that follows the mount point. *)
Lemma mount_posts w method path hdr body rp wild :
  chi.mountHandler (chi.ServeHTTP (PostsResource.Routes pkg)) w
    (Request.mk method path hdr body (Some (Context.mk rp wild)))
  = chi.routeHTTP (PostsResource.Routes pkg) w
      (Request.mk method path hdr body (Some (Context.mk (String "/" wild) EmptyString))).
Proof. reflexivity. Qed.

Lemma search_posts_root m :
  m <> chi.mGET -> m <> chi.mPOST ->
  chi.FindRoute (PostsResource.Routes pkg) m "/" = (None, true).
Proof. intros H1 H2. rewrite FindRoute_posts. destruct m; try congruence; reflexivity. Qed.

Lemma search_posts_other m wild :
  wild <> EmptyString ->
  chi.FindRoute (PostsResource.Routes pkg) m (String "/" wild) = (None, false).
Proof.
  intros Hw. rewrite FindRoute_posts. cbn [chi.search chi.pattern].
  rewrite !match_static by reflexivity.
  destruct wild; [congruence | reflexivity].
Qed.

Lemma methodMap_GET method : chi.methodMap method = Some chi.mGET -> method = "GET".
Proof.
  unfold chi.methodMap.
  repeat match goal with
         | |- context [(method =? ?x)%string] =>
             destruct (String.eqb_spec method x); [try discriminate; try (intros _; assumption)|]
         end.
  discriminate.
Qed.

Lemma methodMap_POST method : chi.methodMap method = Some chi.mPOST -> method = "POST".
Proof.
  unfold chi.methodMap.
  repeat match goal with
         | |- context [(method =? ?x)%string] =>
             destruct (String.eqb_spec method x); [try discriminate; try (intros _; assumption)|]
         end.
  discriminate.
Qed.

Lemma serve_main method path hdr body :
  serve (snd (main pkg env)) method path hdr body
  = chi.routeHTTP (Handler (snd (main pkg env))) NewRecorder
      (Request.mk method path hdr body (Some (Context.mk EmptyString EmptyString))).
Proof. reflexivity. Qed.

Lemma serve_unknown_method method path hdr body :
  chi.methodMap method = None ->
  exists rr,
    serve (snd (main pkg env)) method path hdr body = Done rr /\
    ResponseRecorder.Code rr = StatusMethodNotAllowed.
Proof.
  intros Hm. rewrite serve_main, routeHTTP_unknown by exact Hm.
  apply methodNotAllowed_code. reflexivity.
Qed.

Lemma serve_unregistered method path hdr body m :
  chi.methodMap method = Some m -> registered path = false ->
  exists rr,
    serve (snd (main pkg env)) method path hdr body = Done rr /\
    ResponseRecorder.Code rr = StatusNotFound.
Proof.
  intros Hm Hreg. unfold registered in Hreg.
  apply orb_false_iff in Hreg. destruct Hreg as [Hreg H3].
  apply orb_false_iff in Hreg. destruct Hreg as [H1 H2].
  rewrite String.eqb_sym in H1, H2, H3.
  rewrite serve_main, (routeHTTP_known _ _ _ _ _ _ _ _ m Hm).
  rewrite FindRoute_main. cbn [String.eqb].
  cbn [chi.search chi.pattern chi.methods chi.endpoint].
  rewrite !match_static by reflexivity.
  rewrite (match_wildcard "/posts/*" "/posts/") by reflexivity.
  rewrite H1, H2, H3.
  destruct (strip_prefix "/posts/" path) as [wild|] eqn:E.
  - rewrite mALL_all. rewrite mount_posts.
    assert (Hw : wild <> EmptyString).
    { intros ->. apply strip_prefix_app in E. subst path. discriminate H3. }
    rewrite (routeHTTP_known _ _ _ _ _ _ _ _ m Hm). cbn [String.eqb].
    rewrite search_posts_other by exact Hw.
    apply notFound_code. reflexivity.
  - apply notFound_code. reflexivity.
Qed.

Lemma serve_posts_other_method method hdr body :
  method <> "GET" -> method <> "POST" ->
  exists rr,
    serve (snd (main pkg env)) method "/posts" hdr body = Done rr /\
    ResponseRecorder.Code rr = StatusMethodNotAllowed.
Proof.
  intros HG HP. destruct (chi.methodMap method) as [m|] eqn:Hm.
  - assert (H1 : m <> chi.mGET) by (intros ->; apply HG, methodMap_GET, Hm).
    assert (H2 : m <> chi.mPOST) by (intros ->; apply HP, methodMap_POST, Hm).
    rewrite serve_main, (routeHTTP_known _ _ _ _ _ _ _ _ m Hm).
    rewrite FindRoute_main. cbn [String.eqb].
    cbn [chi.search chi.pattern chi.methods chi.endpoint].
    rewrite !match_static by reflexivity.
    change ("/" =? "/posts")%string with false.
    change ("/posts" =? "/posts")%string with true. cbv iota.
    rewrite mALL_all. rewrite mount_posts.
    rewrite (routeHTTP_known _ _ _ _ _ _ _ _ m Hm). cbn [String.eqb].
    rewrite search_posts_root by assumption.
    apply methodNotAllowed_code. reflexivity.
  - apply serve_unknown_method. exact Hm.
Qed.

(** C8, as stated, fails: a request with a method the router does not know
    is answered 405 on a path that has no route. *)
Lemma C8_counterexample :
  registered "/nope" = false /\
  exists rr,
    serve (snd (main mock ∅)) "FOO" "/nope" ∅ EmptyString = Done rr /\
    ResponseRecorder.Code rr = StatusMethodNotAllowed /\
    ResponseRecorder.Code rr <> StatusNotFound.
Proof.
  split; [reflexivity|]. eexists. split; [reflexivity|]. split; [reflexivity | discriminate].
Qed.

(** C8, amended.  For every request whose method is one the router knows
    (CONNECT, DELETE, GET, HEAD, OPTIONS, PATCH, POST, PUT or TRACE), to a
    path with no registered route, the server answers 404; a request with
    any other method is answered 405 whatever its path; and every request to
    /posts with a method other than GET or POST is answered 405. *)
Theorem C8_not_found_and_method_not_allowed method path hdr body :
  (forall m, chi.methodMap method = Some m -> registered path = false ->
     exists rr,
       serve (snd (main pkg env)) method path hdr body = Done rr /\
       ResponseRecorder.Code rr = StatusNotFound) /\
  (chi.methodMap method = None ->
     exists rr,
       serve (snd (main pkg env)) method path hdr body = Done rr /\
       ResponseRecorder.Code rr = StatusMethodNotAllowed) /\
  (path = "/posts" -> method <> "GET" -> method <> "POST" ->
     exists rr,
       serve (snd (main pkg env)) method path hdr body = Done rr /\
       ResponseRecorder.Code rr = StatusMethodNotAllowed).
Proof.
  split; [|split].
  - intros m. apply serve_unregistered.
  - apply serve_unknown_method.
  - intros ->. apply serve_posts_other_method.
Qed.

End Routing.

Lemma C8_witness :
  (exists rr,
     serve (snd (main mock ∅)) "GET" "/nope" ∅ EmptyString = Done rr /\
     ResponseRecorder.Code rr = StatusNotFound) /\
  (exists rr,
     serve (snd (main mock ∅)) "FOO" "/" ∅ EmptyString = Done rr /\
     ResponseRecorder.Code rr = StatusMethodNotAllowed) /\
  (exists rr,
     serve (snd (main mock ∅)) "PUT" "/posts" ∅ EmptyString = Done rr /\
     ResponseRecorder.Code rr = StatusMethodNotAllowed).
Proof.
  split; [|split].
  - apply (proj1 (C8_not_found_and_method_not_allowed mock ∅ "GET" "/nope" ∅ EmptyString)
             chi.mGET); reflexivity.
  - apply (proj1 (proj2 (C8_not_found_and_method_not_allowed mock ∅ "FOO" "/" ∅ EmptyString)));
      reflexivity.
  - apply (proj2 (proj2 (C8_not_found_and_method_not_allowed mock ∅ "PUT" "/posts" ∅
                           EmptyString))); [reflexivity | discriminate | discriminate].
Defined.

(** ** The fixture [CreatePost] on arbitrary bodies *)

Import http routes.

Lemma find_names {F : Type} (P : string -> bool) (fields : list (string * F)) :
  List.find (fun nf => P (fst nf)) (map (fun nf => (fst nf, fst nf)) fields)
  = option_map (fun nf => (fst nf, fst nf)) (List.find (fun nf => P (fst nf)) fields).
Proof.
  induction fields as [|[n f] fields IH]; [reflexivity|].
  cbn [map List.find fst]. destruct (P n); [reflexivity | exact IH].
Qed.

Lemma findField_names {F : Type} (fields : list (string * F)) k :
  match json.findField fields k with
  | Some set =>
      exists n, json.findField (map (fun nf => (fst nf, fst nf)) fields) k = Some n /\
                In (n, set) fields
  | None => json.findField (map (fun nf => (fst nf, fst nf)) fields) k = None
  end.
Proof.
  unfold json.findField.
  rewrite (find_names (fun n => String.eqb n k)).
  rewrite (find_names (fun n => String.eqb (json.foldName n) (json.foldName k))).
  destruct (List.find (fun nf => (fst nf =? k)%string) fields) as [[n f]|] eqn:E1.
  - exists n. split; [reflexivity|]. eapply find_some; exact E1.
  - cbn [option_map].
    destruct (List.find (fun nf => (json.foldName (fst nf) =? json.foldName k)%string) fields)
      as [[n f]|] eqn:E2.
    + exists n. split; [reflexivity|]. eapply find_some; exact E2.
    + reflexivity.
Qed.

(** A field that no member addresses keeps the value it had. *)
Lemma object_keeps {A : Type} (name : string) (proj : PostWithoutId.t -> A) :
  (forall n set v p q, In (n, set) json.fields_PostWithoutId -> n <> name ->
                       set v p = Some q -> proj q = proj p) ->
  forall ms p q,
    missing name ms = true ->
    json.object json.fields_PostWithoutId ms p = Some q -> proj q = proj p.
Proof.
  intros Hset. induction ms as [|[k v] ms IH]; intros p q Hmiss H.
  - injection H as <-. reflexivity.
  - cbn [missing forallb fst] in Hmiss. apply andb_true_iff in Hmiss.
    destruct Hmiss as [Hk Hmiss]. apply negb_true_iff, bool_decide_eq_false in Hk.
    cbn [json.object] in H.
    pose proof (findField_names json.fields_PostWithoutId k) as Hn.
    destruct (json.findField json.fields_PostWithoutId k) as [set|].
    + destruct Hn as (n & Hfn & Hin).
      destruct (set v p) as [p'|] eqn:Es; [|discriminate H].
      rewrite (IH p' q Hmiss H).
      eapply Hset; [exact Hin | | exact Es].
      intros ->. apply Hk. exact Hfn.
    + apply (IH p q Hmiss H).
Qed.

Ltac setter_cases Hin H :=
  cbn [json.fields_PostWithoutId In] in Hin;
  destruct Hin as [E | [E | [E | []]]]; injection E as <- <-;
  cbn [mbind option_bind] in H;
  try congruence;
  match type of H with
  | context [json.store_int ?v ?o] => destruct (json.store_int v o); [|discriminate H]
  | context [json.store_string ?v ?o] => destruct (json.store_string v o); [|discriminate H]
  end; injection H as <-; reflexivity.

Lemma keeps_UserId n set v p q :
  In (n, set) json.fields_PostWithoutId -> n <> "UserId" -> set v p = Some q ->
  PostWithoutId.UserId q = PostWithoutId.UserId p.
Proof. intros Hin Hn H. setter_cases Hin H. Qed.

Lemma keeps_Title n set v p q :
  In (n, set) json.fields_PostWithoutId -> n <> "Title" -> set v p = Some q ->
  PostWithoutId.Title q = PostWithoutId.Title p.
Proof. intros Hin Hn H. setter_cases Hin H. Qed.

Lemma keeps_Body n set v p q :
  In (n, set) json.fields_PostWithoutId -> n <> "Body" -> set v p = Some q ->
  PostWithoutId.Body q = PostWithoutId.Body p.
Proof. intros Hin Hn H. setter_cases Hin H. Qed.

(** C9, as stated, fails: [[]] is well-formed JSON, and the fixture panics on
    it instead of returning a response. *)
Lemma C9_counterexample :
  json.checkValid "[]" = true /\
  JsonPlaceholderMock.CreatePost "[]"
  = Panic (Panicf "Error decoding request body: %v" UnmarshalTypeError) /\
  ~ exists resp, JsonPlaceholderMock.CreatePost "[]" = Done (Ok resp).
Proof.
  split; [reflexivity|]. split; [reflexivity|]. intros [resp H]. discriminate H.
Qed.

(** C9, amended.  For every request body that [json.Unmarshal] decodes into
    a [PostWithoutId], the response of the fixture [CreatePost] holds a
    [Post] whose Id is 101, whatever the body says. *)
Theorem C9_CreatePost_assigns_101 body reqPost :
  json.Unmarshal_PostWithoutId body = Ok reqPost ->
  exists resp post,
    JsonPlaceholderMock.CreatePost body = Done (Ok resp) /\
    json.Unmarshal_Post (Response.Body resp) = Ok post /\
    Post.Id post = 101.
Proof.
  intros H. destruct (CreatePost_mock_decodes body reqPost H) as (resp & Hc & _ & Hd).
  exists resp. eexists. split; [exact Hc|]. split; [exact Hd | reflexivity].
Qed.

Lemma C9_witness :
  exists resp post,
    JsonPlaceholderMock.CreatePost bodyWithId = Done (Ok resp) /\
    json.Unmarshal_Post (Response.Body resp) = Ok post /\
    Post.Id post = 101.
Proof.
  apply (C9_CreatePost_assigns_101 bodyWithId (PostWithoutId.mk 1 EmptyString EmptyString)).
  vm_compute. reflexivity.
Defined.

(** C10, as stated, fails: the object lacks Title and Body, its UserId is a
    string, and the fixture panics on it. *)
Lemma C10_counterexample :
  json.checkValid bodyBadUserId = true /\
  json.parse bodyBadUserId = Some (json.Object [("UserId", json.Str "abc")], EmptyString) /\
  missing "Title" [("UserId", json.Str "abc")] = true /\
  missing "Body" [("UserId", json.Str "abc")] = true /\
  JsonPlaceholderMock.CreatePost bodyBadUserId
  = Panic (Panicf "Error decoding request body: %v" UnmarshalTypeError).
Proof. repeat split; vm_compute; reflexivity. Qed.

(** C10, amended.  For every request body that is a JSON object and that
    [json.Unmarshal] decodes into a [PostWithoutId], the fixture [CreatePost]
    succeeds with status 200, and each of the fields UserId, Title and Body
    that no member of the object addresses has its zero value in the created
    [Post]: no validation failure is reported for a missing field. *)
Theorem C10_CreatePost_missing_fields body ms rest reqPost :
  json.parse body = Some (json.Object ms, rest) ->
  json.Unmarshal_PostWithoutId body = Ok reqPost ->
  exists resp post,
    JsonPlaceholderMock.CreatePost body = Done (Ok resp) /\
    Response.StatusCode resp = StatusOK /\
    json.Unmarshal_Post (Response.Body resp) = Ok post /\
    (missing "UserId" ms = true -> Post.UserId post = 0) /\
    (missing "Title" ms = true -> Post.Title post = EmptyString) /\
    (missing "Body" ms = true -> Post.Body post = EmptyString).
Proof.
  intros Hparse H.
  destruct (CreatePost_mock_decodes body reqPost H) as (resp & Hc & Hst & Hd).
  exists resp. eexists. split; [exact Hc|]. split; [exact Hst|]. split; [exact Hd|].
  cbn [Post.UserId Post.Title Post.Body].
  apply Unmarshal_inv in H. destruct H as (v & rest' & Hp & _ & Hdec).
  rewrite Hparse in Hp. injection Hp as <- <-. cbn [json.decode_struct] in Hdec.
  repeat split; intros Hm.
  - apply (object_keeps "UserId" PostWithoutId.UserId keeps_UserId _ _ _ Hm Hdec).
  - apply (object_keeps "Title" PostWithoutId.Title keeps_Title _ _ _ Hm Hdec).
  - apply (object_keeps "Body" PostWithoutId.Body keeps_Body _ _ _ Hm Hdec).
Qed.

Lemma C10_witness :
  exists resp post,
    JsonPlaceholderMock.CreatePost bodyTitleOnly = Done (Ok resp) /\
    Response.StatusCode resp = StatusOK /\
    json.Unmarshal_Post (Response.Body resp) = Ok post /\
    (missing "UserId" [("title", json.Str "Hello")] = true -> Post.UserId post = 0) /\
    (missing "Title" [("title", json.Str "Hello")] = true -> Post.Title post = EmptyString) /\
    (missing "Body" [("title", json.Str "Hello")] = true -> Post.Body post = EmptyString).
Proof.
  apply (C10_CreatePost_missing_fields bodyTitleOnly [("title", json.Str "Hello")] EmptyString
           (PostWithoutId.mk 0 "Hello" EmptyString)).
  - vm_compute. reflexivity.
  - vm_compute. reflexivity.
Defined.

(** ** Records under [Marshal], the fixture [CreatePost] and the router of [main] *)

Import http routes.

Lemma parse_value_PostWithoutId fuel depth p rest :
  wf_PostWithoutId p -> depth + 1 <= json.maxNestingDepth ->
  json.parse_value (5 + fuel) depth (json.encode_PostWithoutId p ++ rest)
  = Some (value_of_PostWithoutId p, rest).
Proof.
  intros (Huid & Ht & Hb) Hdepth. apply ValidString_wf in Ht, Hb.
  unfold json.encode_PostWithoutId. rewrite !sapp_assoc. cbn [String.append].
  change (5 + fuel)%nat with (S (S (S (S (S fuel))))).
  rewrite parse_value_object by exact Hdepth.
  rewrite (parse_members_comma _ _ "UserId" _
             (json.Number (strconv.FormatInt (PostWithoutId.UserId p))));
    [| apply ValidString_wf; reflexivity | apply parse_value_int; [exact Huid | left; reflexivity]].
  rewrite (parse_members_comma _ _ "Title" _ (json.Str (PostWithoutId.Title p)));
    [| apply ValidString_wf; reflexivity | apply parse_value_string; exact Ht].
  rewrite (parse_members_close _ _ "Body" _ (json.Str (PostWithoutId.Body p)));
    [| apply ValidString_wf; reflexivity | apply parse_value_string; exact Hb].
  reflexivity.
Qed.

Lemma findField_UserId :
  json.findField json.fields_PostWithoutId "UserId"
  = Some (snd (nth 0 json.fields_PostWithoutId ("", fun _ p => Some p))).
Proof. reflexivity. Qed.

Lemma findField_Title :
  json.findField json.fields_PostWithoutId "Title"
  = Some (snd (nth 1 json.fields_PostWithoutId ("", fun _ p => Some p))).
Proof. reflexivity. Qed.

Lemma findField_Body :
  json.findField json.fields_PostWithoutId "Body"
  = Some (snd (nth 2 json.fields_PostWithoutId ("", fun _ p => Some p))).
Proof. reflexivity. Qed.

(** The key [Id] addresses no field of [PostWithoutId]. *)
Lemma findField_Id : json.findField json.fields_PostWithoutId "Id" = None.
Proof. reflexivity. Qed.

Lemma decode_value_of_PostWithoutId p q :
  int64_range (PostWithoutId.UserId p) ->
  json.decode_struct json.fields_PostWithoutId (value_of_PostWithoutId p) q = Some p.
Proof.
  intros Huid. destruct p as [u t b]. cbn [PostWithoutId.UserId] in Huid.
  unfold value_of_PostWithoutId, json.decode_struct.
  cbn [PostWithoutId.UserId PostWithoutId.Title PostWithoutId.Body json.object].
  rewrite findField_UserId, findField_Title, findField_Body.
  cbn [nth json.fields_PostWithoutId snd json.store_int json.store_string mbind option_bind].
  rewrite ParseInt_FormatInt by assumption.
  reflexivity.
Qed.

(** A printed [Post] read as a [PostWithoutId]: the member [Id] is skipped. *)
Lemma decode_Post_withoutId p q :
  int64_range (Post.UserId p) ->
  json.decode_struct json.fields_PostWithoutId (value_of_Post p) q = Some (withoutId p).
Proof.
  intros Huid. destruct p as [i u t b]. cbn [Post.UserId] in Huid.
  unfold value_of_Post, json.decode_struct, withoutId.
  cbn [Post.Id Post.UserId Post.Title Post.Body json.object].
  rewrite findField_Id, findField_UserId, findField_Title, findField_Body.
  cbn [nth json.fields_PostWithoutId snd json.store_int json.store_string mbind option_bind].
  rewrite ParseInt_FormatInt by assumption.
  reflexivity.
Qed.

Lemma encode_PostWithoutId_length p : (5 <= String.length (json.encode_PostWithoutId p))%nat.
Proof.
  unfold json.encode_PostWithoutId. rewrite !slength_app.
  change (String.length "{") with 1%nat. change (String.length (json.key "UserId")) with 9%nat.
  lia.
Qed.

Lemma Unmarshal_encode_PostWithoutId p :
  wf_PostWithoutId p -> json.Unmarshal_PostWithoutId (json.encode_PostWithoutId p) = Ok p.
Proof.
  intros Hp. unfold json.Unmarshal_PostWithoutId, json.Unmarshal, json.parse.
  pose proof (encode_PostWithoutId_length p) as Hlen.
  remember (S (String.length (json.encode_PostWithoutId p))) as fuel eqn:Ef.
  replace fuel with (5 + (fuel - 5))%nat by lia.
  rewrite <- (sapp_nil_r (json.encode_PostWithoutId p)).
  rewrite parse_value_PostWithoutId by (try exact Hp; unfold json.maxNestingDepth; lia).
  cbn [json.skip_space]. rewrite decode_value_of_PostWithoutId by apply Hp. reflexivity.
Qed.

Lemma Unmarshal_PostWithoutId_encode_Post p :
  wf_Post p -> json.Unmarshal_PostWithoutId (json.encode_Post p) = Ok (withoutId p).
Proof.
  intros Hp. unfold json.Unmarshal_PostWithoutId, json.Unmarshal, json.parse.
  pose proof (encode_Post_length p) as Hlen.
  remember (S (String.length (json.encode_Post p))) as fuel eqn:Ef.
  replace fuel with (6 + (fuel - 6))%nat by lia.
  rewrite <- (sapp_nil_r (json.encode_Post p)).
  rewrite parse_value_Post by (try exact Hp; unfold json.maxNestingDepth; lia).
  cbn [json.skip_space]. rewrite decode_Post_withoutId by apply Hp. reflexivity.
Qed.

(** X1.  [Post] under [json.Marshal] and back.  A record comes
    back from what [Marshal] prints, through [Unmarshal] and through a stream
    decoder that finds more data behind it, exactly when its integers are
    in the range of [int] and its strings are valid UTF-8. *)
Theorem Post_round_trip p :
  (json.Unmarshal_Post (json.encode_Post p) = Ok p <-> wf_Post p) /\
  (wf_Post p -> forall rest, json.Decode_Post (json.encode_Post p ++ rest) = Ok p).
Proof.
  split; [split|].
  - apply Unmarshal_Post_wf.
  - apply Unmarshal_encode_Post.
  - intros Hp rest. apply Decode_encode_Post. exact Hp.
Qed.

Lemma Post_round_trip_witness :
  json.Decode_Post (json.encode_Post (Post.mk 101 1 "Hello World" "Foo Bar") ++ "{}")
  = Ok (Post.mk 101 1 "Hello World" "Foo Bar").
Proof.
  apply (proj2 (Post_round_trip (Post.mk 101 1 "Hello World" "Foo Bar"))).
  unfold wf_Post, int64_range. cbn. repeat split; lia.
Defined.

(** X2.  [PostWithoutId]: the same round trip for the request
    payload of [TestCreatePost]. *)
Theorem PostWithoutId_round_trip p :
  json.Unmarshal_PostWithoutId (json.encode_PostWithoutId p) = Ok p <-> wf_PostWithoutId p.
Proof.
  split.
  - apply Unmarshal_PostWithoutId_wf.
  - apply Unmarshal_encode_PostWithoutId.
Qed.

(** X3.  A slice of posts, as the fixture [GetPosts] marshals one and
    [TestGetPostsHandler] decodes it: every slice of well-formed records
    comes back element by element, in order, through [Unmarshal] and
    through a stream decoder. *)
Theorem Posts_round_trip ps rest :
  Forall wf_Post ps ->
  json.Unmarshal_Posts (json.encode_Posts ps) = Ok ps /\
  json.Decode_Posts (json.encode_Posts ps ++ rest) = Ok ps.
Proof.
  intros Hps. split.
  - apply Unmarshal_encode_Posts. exact Hps.
  - apply Decode_encode_Posts. exact Hps.
Qed.

Lemma Posts_round_trip_witness :
  json.Unmarshal_Posts (json.encode_Posts [Post.mk 1 2 "Hello World" "Foo Bar"; Post.zero])
  = Ok [Post.mk 1 2 "Hello World" "Foo Bar"; Post.zero] /\
  json.Decode_Posts (json.encode_Posts [Post.mk 1 2 "Hello World" "Foo Bar"; Post.zero] ++ "[]")
  = Ok [Post.mk 1 2 "Hello World" "Foo Bar"; Post.zero].
Proof.
  apply (Posts_round_trip [Post.mk 1 2 "Hello World" "Foo Bar"; Post.zero] "[]").
  repeat constructor; unfold int64_range; cbn; lia.
Defined.

(** X4.  The fixture [CreatePost], whenever it returns: the error is nil,
    the status is 200, and the body is the encoding of a [Post] with Id
    101 and the fields of the decoded request; that record has integers in
    range and valid UTF-8 strings, whatever bytes the request had, so the
    body decodes back to it. *)
Theorem CreatePost_postcondition body x :
  JsonPlaceholderMock.CreatePost body = Done x ->
  exists reqPost,
    json.Unmarshal_PostWithoutId body = Ok reqPost /\
    x = Ok (Response.mk StatusOK (json.encode_Post (created reqPost))) /\
    wf_Post (created reqPost) /\
    json.Unmarshal_Post (json.encode_Post (created reqPost)) = Ok (created reqPost).
Proof.
  intros H. destruct (CreatePost_mock_inv body x H) as (reqPost & Hreq & ->).
  exists reqPost. split; [exact Hreq|]. split; [reflexivity|].
  assert (Hwf : wf_Post (created reqPost))
    by (apply created_wf; eapply Unmarshal_PostWithoutId_wf; exact Hreq).
  split; [exact Hwf|]. apply Unmarshal_encode_Post. exact Hwf.
Qed.

Lemma CreatePost_postcondition_witness :
  exists reqPost,
    json.Unmarshal_PostWithoutId testReqBody = Ok reqPost /\
    Ok (Response.mk StatusOK (json.encode_Post (Post.mk 101 1 "Hello World" "Foo Bar")))
    = Ok (Response.mk StatusOK (json.encode_Post (created reqPost))) /\
    wf_Post (created reqPost) /\
    json.Unmarshal_Post (json.encode_Post (created reqPost)) = Ok (created reqPost).
Proof.
  apply (CreatePost_postcondition testReqBody).
  vm_compute. reflexivity.
Defined.

(** X5.  [CreatePost] after [json.Marshal], as [TestCreatePost] composes them, for
    every payload: the request that [Marshal] prints
    for a well-formed [PostWithoutId] is answered with the encoding of the
    [Post] with Id 101 and the same three fields. *)
Theorem CreatePost_of_Marshal p :
  wf_PostWithoutId p ->
  JsonPlaceholderMock.CreatePost (json.encode_PostWithoutId p)
  = Done (Ok (Response.mk StatusOK (json.encode_Post (created p)))).
Proof.
  intros Hp. apply CreatePost_mock_Ok. apply Unmarshal_encode_PostWithoutId. exact Hp.
Qed.

Lemma CreatePost_of_Marshal_witness :
  JsonPlaceholderMock.CreatePost (json.encode_PostWithoutId (PostWithoutId.mk (-7) "a<b" ""))
  = Done (Ok (Response.mk StatusOK (json.encode_Post (Post.mk 101 (-7) "a<b" "")))).
Proof.
  apply (CreatePost_of_Marshal (PostWithoutId.mk (-7) "a<b" "")).
  unfold wf_PostWithoutId, int64_range. cbn. repeat split; lia.
Defined.

(** X6.  Posting a created post again: the body [CreatePost] answers is itself a
    request body it accepts (the member Id addresses no field of
    [PostWithoutId] and is skipped), and the answer to it is the same
    response. *)
Theorem CreatePost_resubmit body resp :
  JsonPlaceholderMock.CreatePost body = Done (Ok resp) ->
  JsonPlaceholderMock.CreatePost (Response.Body resp) = Done (Ok resp).
Proof.
  intros H. destruct (CreatePost_mock_inv body _ H) as (reqPost & Hreq & E).
  injection E as ->. cbn [Response.Body].
  assert (Hwf : wf_Post (created reqPost))
    by (apply created_wf; eapply Unmarshal_PostWithoutId_wf; exact Hreq).
  exact (CreatePost_mock_Ok _ _ (Unmarshal_PostWithoutId_encode_Post _ Hwf)).
Qed.

Lemma CreatePost_resubmit_witness :
  JsonPlaceholderMock.CreatePost (json.encode_Post (Post.mk 101 1 "Hello World" "Foo Bar"))
  = Done (Ok (Response.mk StatusOK (json.encode_Post (Post.mk 101 1 "Hello World" "Foo Bar")))).
Proof.
  apply (CreatePost_resubmit testReqBody
           (Response.mk StatusOK (json.encode_Post (Post.mk 101 1 "Hello World" "Foo Bar")))).
  vm_compute. reflexivity.
Defined.

Lemma parse_blank body : json.skip_space body = EmptyString -> json.parse body = None.
Proof. intros H. unfold json.parse. cbn [json.parse_value]. rewrite H. reflexivity. Qed.

(** X7.  [CreatePost] takes exactly one JSON value: on an empty body, on a body
    of white space only, and on a body that has anything but white space
    behind its first value, [json.Unmarshal] reports a syntax error and the
    fixture panics with the message of its decoding step. *)
Theorem CreatePost_syntax_error body :
  json.skip_space body = EmptyString \/
  (exists v rest, json.parse body = Some (v, rest) /\ json.skip_space rest <> EmptyString) ->
  JsonPlaceholderMock.CreatePost body
  = Panic (Panicf "Error decoding request body: %v" SyntaxError).
Proof.
  intros H. apply CreatePost_mock_Err. apply Unmarshal_invalid.
  unfold json.checkValid. destruct H as [H | (v & rest & Hp & Hr)].
  - rewrite (parse_blank body H). reflexivity.
  - rewrite Hp. destruct (json.skip_space rest); [congruence | reflexivity].
Qed.

Lemma CreatePost_syntax_error_witness :
  JsonPlaceholderMock.CreatePost EmptyString
  = Panic (Panicf "Error decoding request body: %v" SyntaxError) /\
  JsonPlaceholderMock.CreatePost (testReqBody ++ testReqBody)
  = Panic (Panicf "Error decoding request body: %v" SyntaxError).
Proof.
  split.
  - apply (CreatePost_syntax_error EmptyString). left. reflexivity.
  - apply (CreatePost_syntax_error (testReqBody ++ testReqBody)). right.
    exists (value_of_PostWithoutId (PostWithoutId.mk 1 "Hello World" "Foo Bar")), testReqBody.
    split; [vm_compute; reflexivity | discriminate].
Defined.

Lemma object_mismatch ms :
  forall p, existsb mismatch ms = true ->
            json.object json.fields_PostWithoutId ms p = None.
Proof.
  induction ms as [|[k v] ms IH]; intros p H; [discriminate H|].
  cbn [existsb] in H. cbn [json.object].
  pose proof (findField_names json.fields_PostWithoutId k) as Hn.
  destruct (json.findField json.fields_PostWithoutId k) as [set|].
  - destruct Hn as (n & Hfn & Hin).
    destruct (set v p) as [p'|] eqn:Es; [|reflexivity].
    apply orb_true_iff in H. destruct H as [H | H]; [|apply IH; exact H].
    exfalso. unfold mismatch, fieldName in H. cbn [fst snd] in H. rewrite Hfn in H.
    cbn [json.fields_PostWithoutId In] in Hin.
    destruct Hin as [E | [E | [E | []]]]; injection E as <- <-;
      cbn [String.eqb Ascii.eqb Bool.eqb] in H; cbn [mbind option_bind] in Es;
      destruct v; cbn [json.store_int json.store_string] in H, Es; try discriminate.
    destruct (strconv.ParseInt lit); discriminate.
  - apply orb_true_iff in H. destruct H as [H | H]; [|apply IH; exact H].
    unfold mismatch, fieldName in H. cbn [fst] in H. rewrite Hn in H. discriminate H.
Qed.

(** X8.  The types [CreatePost] insists on.  A body that is one JSON value
    makes the fixture panic with an [UnmarshalTypeError] when the value
    is an array, a string, a number or a boolean, and when it is an object
    one of whose members addresses UserId without being an integer literal
    in range (or [null]), or addresses Title or Body without being a string
    (or [null]); the other members do not matter. *)
Theorem CreatePost_type_error body v rest :
  json.parse body = Some (v, rest) -> json.skip_space rest = EmptyString ->
  notStruct v = true \/ (exists ms, v = json.Object ms /\ existsb mismatch ms = true) ->
  JsonPlaceholderMock.CreatePost body
  = Panic (Panicf "Error decoding request body: %v" UnmarshalTypeError).
Proof.
  intros Hp Hr H. apply CreatePost_mock_Err.
  unfold json.Unmarshal_PostWithoutId, json.Unmarshal. rewrite Hp, Hr.
  destruct H as [H | (ms & -> & H)].
  - destruct v; try discriminate H; reflexivity.
  - cbn [json.decode_struct]. rewrite (object_mismatch ms _ H). reflexivity.
Qed.

Lemma CreatePost_type_error_witness :
  JsonPlaceholderMock.CreatePost "42"
  = Panic (Panicf "Error decoding request body: %v" UnmarshalTypeError) /\
  JsonPlaceholderMock.CreatePost ("{" ++ json.key "Title" ++ "1," ++ json.key "Title"
                                  ++ json.appendString "x" ++ "}")
  = Panic (Panicf "Error decoding request body: %v" UnmarshalTypeError).
Proof.
  split.
  - apply (CreatePost_type_error "42" (json.Number "42") EmptyString);
      [reflexivity | reflexivity | left; reflexivity].
  - apply (CreatePost_type_error _ (json.Object [("Title", json.Number "1");
                                                 ("Title", json.Str "x")]) EmptyString);
      [vm_compute; reflexivity | reflexivity |].
    right. eexists. split; reflexivity.
Defined.

Lemma findField_fieldName k :
  json.findField json.fields_PostWithoutId k = None <-> fieldName k = None.
Proof.
  pose proof (findField_names json.fields_PostWithoutId k) as Hn.
  fold (fieldName k) in Hn.
  destruct (json.findField json.fields_PostWithoutId k) as [set|].
  - destruct Hn as (n & Hn & _). rewrite Hn. split; discriminate.
  - rewrite Hn. split; reflexivity.
Qed.

Lemma object_addressed ms :
  forall p,
    json.object json.fields_PostWithoutId ms p
    = json.object json.fields_PostWithoutId (List.filter addresses ms) p.
Proof.
  induction ms as [|[k v] ms IH]; intros p; [reflexivity|].
  cbn [List.filter]. unfold addresses at 1. cbn [fst].
  destruct (fieldName k) as [n|] eqn:Hk.
  - cbn [json.object]. destruct (json.findField json.fields_PostWithoutId k) as [set|] eqn:E.
    + destruct (set v p); [apply IH | reflexivity].
    + apply findField_fieldName in E. congruence.
  - apply findField_fieldName in Hk. cbn [json.object]. rewrite Hk. apply IH.
Qed.

Lemma decode_addressed v p :
  json.decode_struct json.fields_PostWithoutId v p
  = match addressed v with
    | Some ms => json.object json.fields_PostWithoutId ms p
    | None => None
    end.
Proof. destruct v; try reflexivity. apply object_addressed. Qed.

(** X15.  The answer of [CreatePost] depends on the members of the request
    that address UserId, Title or Body and on nothing else: two bodies,
    each one JSON value, that agree on these members in their order get the
    same outcome, response or panic.  A member Id, any other unknown
    member and the white space of the text change nothing, and [null] is
    taken like the empty object. *)
Theorem CreatePost_addressed_members body1 v1 rest1 body2 v2 rest2 :
  json.parse body1 = Some (v1, rest1) -> json.skip_space rest1 = EmptyString ->
  json.parse body2 = Some (v2, rest2) -> json.skip_space rest2 = EmptyString ->
  addressed v1 = addressed v2 ->
  JsonPlaceholderMock.CreatePost body1 = JsonPlaceholderMock.CreatePost body2.
Proof.
  intros Hp1 Hr1 Hp2 Hr2 Hm.
  unfold JsonPlaceholderMock.CreatePost, json.Unmarshal_PostWithoutId, json.Unmarshal.
  rewrite Hp1, Hr1, Hp2, Hr2, !decode_addressed, Hm. reflexivity.
Qed.

Lemma CreatePost_addressed_members_witness :
  JsonPlaceholderMock.CreatePost bodyWithId
  = JsonPlaceholderMock.CreatePost ("{ " ++ json.key "UserId" ++ " 1 }")
  /\ JsonPlaceholderMock.CreatePost "null" = JsonPlaceholderMock.CreatePost "{}".
Proof.
  split.
  - apply (CreatePost_addressed_members
             bodyWithId (json.Object [("Id", json.Number "7"); ("UserId", json.Number "1")])
             EmptyString
             ("{ " ++ json.key "UserId" ++ " 1 }") (json.Object [("UserId", json.Number "1")])
             EmptyString); reflexivity.
  - apply (CreatePost_addressed_members "null" json.Null EmptyString
             "{}" (json.Object []) EmptyString); reflexivity.
Defined.

Lemma foldName_UserId : json.foldName "UserId" = "USERID".
Proof. reflexivity. Qed.

Lemma foldName_Title : json.foldName "Title" = "TITLE".
Proof. reflexivity. Qed.

Lemma foldName_Body : json.foldName "Body" = "BODY".
Proof. reflexivity. Qed.

(** A key addresses the field whose name has the same folded name. *)
Lemma fieldName_foldName k name :
  fieldName k = Some name <->
  In name ["UserId"; "Title"; "Body"] /\ json.foldName k = json.foldName name.
Proof.
  unfold fieldName, json.findField.
  cbn [map json.fields_PostWithoutId fst List.find].
  rewrite foldName_UserId, foldName_Title, foldName_Body.
  destruct (String.eqb_spec "UserId" k) as [<- | N1].
  { split.
    - intros [= <-]. split; [left; reflexivity | reflexivity].
    - intros [[<- | [<- | [<- | []]]] H]; [reflexivity | discriminate H | discriminate H]. }
  destruct (String.eqb_spec "Title" k) as [<- | N2].
  { split.
    - intros [= <-]. split; [right; left; reflexivity | reflexivity].
    - intros [[<- | [<- | [<- | []]]] H]; [discriminate H | reflexivity | discriminate H]. }
  destruct (String.eqb_spec "Body" k) as [<- | N3].
  { split.
    - intros [= <-]. split; [right; right; left; reflexivity | reflexivity].
    - intros [[<- | [<- | [<- | []]]] H]; [discriminate H | discriminate H | reflexivity]. }
  destruct (String.eqb_spec "USERID" (json.foldName k)) as [E1 | F1].
  { split.
    - intros [= <-]. split; [left; reflexivity | rewrite foldName_UserId; congruence].
    - intros [[<- | [<- | [<- | []]]] H]; [reflexivity | |];
        rewrite <- E1 in H; discriminate H. }
  destruct (String.eqb_spec "TITLE" (json.foldName k)) as [E2 | F2].
  { split.
    - intros [= <-]. split; [right; left; reflexivity | rewrite foldName_Title; congruence].
    - intros [[<- | [<- | [<- | []]]] H]; [| reflexivity |];
        rewrite <- E2 in H; discriminate H. }
  destruct (String.eqb_spec "BODY" (json.foldName k)) as [E3 | F3].
  { split.
    - intros [= <-]. split; [right; right; left; reflexivity | rewrite foldName_Body; congruence].
    - intros [[<- | [<- | [<- | []]]] H]; [| | reflexivity];
        rewrite <- E3 in H; discriminate H. }
  split; [discriminate|].
  intros [[<- | [<- | [<- | []]]] H]; exfalso.
  - apply F1. rewrite H. reflexivity.
  - apply F2. rewrite H. reflexivity.
  - apply F3. rewrite H. reflexivity.
Qed.

Lemma upper_byte_ascii c :
  code c < 0x80 ->
  (if (code "a" <=? code c) && (code c <=? code "z")
   then chr (code c - (code "a" - code "A")) else c) = upper_byte c.
Proof.
  destruct c as [[] [] [] [] [] [] [] []]; intros H; try reflexivity;
    vm_compute in H; discriminate H.
Qed.

(** On ASCII names the folding of [json.foldName] is upper case. *)
Lemma foldName_ascii s : is_ascii s = true -> json.foldName s = upper s.
Proof.
  induction s as [|c s IH]; [reflexivity|].
  cbn [is_ascii]. intros H. apply andb_true_iff in H. destruct H as [Hc Hs].
  apply Z.ltb_lt in Hc. cbn [json.foldName upper].
  change utf8.RuneSelf with 0x80.
  destruct (Z.ltb_spec (code c) 0x80) as [_ | ?]; [|lia].
  rewrite (upper_byte_ascii c Hc), (IH Hs). reflexivity.
Qed.

(** X9.  The keys of a request are matched without regard to letter case:
    a key of ASCII bytes addresses the field of [PostWithoutId] whose name
    it equals once both are put in upper case, and no field when there is
    none; so [userid], [USERID] and [UserId] all address UserId, and [Id]
    and [user_id] address nothing. *)
Theorem request_keys_ignore_case k name :
  is_ascii k = true ->
  fieldName k = Some name <->
  In name ["UserId"; "Title"; "Body"] /\ upper k = upper name.
Proof.
  intros Hk. rewrite fieldName_foldName, (foldName_ascii k Hk).
  split; intros [Hin H]; (split; [exact Hin|]);
    destruct Hin as [<- | [<- | [<- | []]]]; exact H.
Qed.

Lemma request_keys_ignore_case_witness :
  fieldName "userid" = Some "UserId" /\ fieldName "USERID" = Some "UserId" /\
  fieldName "tItLe" = Some "Title" /\
  (fieldName "Id" = Some "UserId" <->
   In "UserId" ["UserId"; "Title"; "Body"] /\ upper "Id" = upper "UserId").
Proof.
  split; [|split; [|split]].
  - apply (proj2 (request_keys_ignore_case "userid" "UserId" eq_refl)).
    split; [left; reflexivity | reflexivity].
  - apply (proj2 (request_keys_ignore_case "USERID" "UserId" eq_refl)).
    split; [left; reflexivity | reflexivity].
  - apply (proj2 (request_keys_ignore_case "tItLe" "Title" eq_refl)).
    split; [right; left; reflexivity | reflexivity].
  - apply (request_keys_ignore_case "Id" "UserId"). reflexivity.
Defined.

Lemma object_app {T : Type} (fields : list (string * (json.value -> T -> option T))) ms ms' :
  forall p,
    json.object fields (ms ++ ms')%list p
    = match json.object fields ms p with
      | Some p' => json.object fields ms' p'
      | None => None
      end.
Proof.
  induction ms as [|[k v] ms IH]; intros p; [reflexivity|].
  cbn [app json.object]. destruct (json.findField fields k) as [set|]; [|apply IH].
  destruct (set v p); [apply IH | reflexivity].
Qed.

(** X10.  Repeated keys: the last member of a request object decides.  When the
    fixture returns on an object whose last member addresses a field, the
    created post has that member's value in the field, whatever the members
    before it gave. *)
Theorem CreatePost_last_member_wins body ms k v rest resp :
  json.parse body = Some (json.Object (ms ++ [(k, v)])%list, rest) ->
  JsonPlaceholderMock.CreatePost body = Done (Ok resp) ->
  exists post,
    json.Unmarshal_Post (Response.Body resp) = Ok post /\
    (fieldName k = Some "UserId" ->
     forall lit, v = json.Number lit -> strconv.ParseInt lit = Some (Post.UserId post)) /\
    (fieldName k = Some "Title" -> forall s, v = json.Str s -> Post.Title post = s) /\
    (fieldName k = Some "Body" -> forall s, v = json.Str s -> Post.Body post = s).
Proof.
  intros Hparse H.
  destruct (CreatePost_mock_inv body _ H) as (reqPost & Hreq & E).
  injection E as ->. exists (created reqPost).
  split; [apply Unmarshal_encode_Post, created_wf; eapply Unmarshal_PostWithoutId_wf; exact Hreq|].
  cbn [created Post.UserId Post.Title Post.Body].
  apply Unmarshal_inv in Hreq. destruct Hreq as (v' & rest' & Hp & _ & Hobj).
  rewrite Hparse in Hp. injection Hp as <- <-.
  cbn [json.decode_struct] in Hobj. rewrite object_app in Hobj.
  destruct (json.object json.fields_PostWithoutId ms PostWithoutId.zero) as [p|];
    [|discriminate Hobj].
  cbn [json.object] in Hobj.
  pose proof (findField_names json.fields_PostWithoutId k) as Hn.
  destruct (json.findField json.fields_PostWithoutId k) as [set|].
  - destruct Hn as (n & Hfn & Hin). fold (fieldName k) in Hfn. rewrite Hfn.
    destruct (set v p) as [q|] eqn:Es; [|discriminate Hobj]. injection Hobj as ->.
    cbn [json.fields_PostWithoutId In] in Hin.
    destruct Hin as [E | [E | [E | []]]]; injection E as <- <-;
      (split; [|split]); intros [=]; intros x ->;
      cbn [mbind option_bind json.store_int json.store_string] in Es.
    + destruct (strconv.ParseInt x); [|discriminate Es]. injection Es as <-. reflexivity.
    + injection Es as <-. reflexivity.
    + injection Es as <-. reflexivity.
  - fold (fieldName k) in Hn. rewrite Hn. repeat split; discriminate.
Qed.

Lemma CreatePost_last_member_wins_witness :
  exists post,
    json.Unmarshal_Post
      (Response.Body (Response.mk StatusOK (json.encode_Post (Post.mk 101 0 "second" ""))))
    = Ok post /\
    (fieldName "title" = Some "UserId" ->
     forall lit, json.Str "second" = json.Number lit ->
                 strconv.ParseInt lit = Some (Post.UserId post)) /\
    (fieldName "title" = Some "Title" ->
     forall s, json.Str "second" = json.Str s -> Post.Title post = s) /\
    (fieldName "title" = Some "Body" ->
     forall s, json.Str "second" = json.Str s -> Post.Body post = s).
Proof.
  apply (CreatePost_last_member_wins
           ("{" ++ json.key "Title" ++ json.appendString "first" ++ ","
                ++ json.key "title" ++ json.appendString "second" ++ "}")
           [("Title", json.Str "first")] "title" (json.Str "second") EmptyString).
  - vm_compute. reflexivity.
  - vm_compute. reflexivity.
Defined.

Lemma notFound_fresh r : chi.notFoundHandler NewRecorder r = Done notFoundResponse.
Proof. reflexivity. Qed.

Section MainRouter.

Context (pkg : Package) (env : gmap string string).

(** X11.  The route [main] registers for the root path is bound to GET alone: a request to the
    root path with any other method, HEAD included, is answered 405 with
    an empty body, and never with the greeting. *)
Theorem root_answers_GET_only method hdr body :
  method <> "GET" ->
  serve (snd (main pkg env)) method "/" hdr body
  = Done (ResponseRecorder.mk StatusMethodNotAllowed ∅ EmptyString true).
Proof.
  intros HG. rewrite serve_main.
  destruct (chi.methodMap method) as [m|] eqn:Hm.
  - assert (H1 : m <> chi.mGET) by (intros ->; apply HG, methodMap_GET, Hm).
    rewrite (routeHTTP_known _ _ _ _ _ _ _ _ m Hm), FindRoute_main.
    destruct m; try congruence; reflexivity.
  - rewrite routeHTTP_unknown by exact Hm. reflexivity.
Qed.

(** X12.  The [r.Mount] of [main] hands every request for /posts, /posts/ and the
    paths below to the router of the posts resource, whatever its method
    (of those chi knows), with the mount point cut off the path to route:
    / for /posts and /posts/, and /rest for /posts/rest. *)
Theorem Mount_cuts_the_prefix method m rest hdr body :
  chi.methodMap method = Some m ->
  serve (snd (main pkg env)) method "/posts" hdr body
  = chi.ServeHTTP (PostsResource.Routes pkg) NewRecorder
      (Request.mk method "/posts" hdr body (Some (Context.mk "/" EmptyString)))
  /\ serve (snd (main pkg env)) method ("/posts/" ++ rest) hdr body
     = chi.ServeHTTP (PostsResource.Routes pkg) NewRecorder
         (Request.mk method ("/posts/" ++ rest) hdr body
            (Some (Context.mk ("/" ++ rest) EmptyString))).
Proof.
  intros Hm. split; rewrite serve_main, (routeHTTP_known _ _ _ _ _ _ _ _ m Hm), FindRoute_main.
  - destruct m; reflexivity.
  - destruct rest; destruct m; reflexivity.
Qed.

(** X13.  The whole answer to a request that has no route (its method one chi
    knows): status 404, the body [404 page not found] with a newline, as
    plain text with sniffing off; nothing of the request is echoed. *)
Theorem unrouted_request_answer method m path hdr body :
  chi.methodMap method = Some m -> registered path = false ->
  serve (snd (main pkg env)) method path hdr body = Done notFoundResponse.
Proof.
  intros Hm Hreg. unfold registered in Hreg.
  apply orb_false_iff in Hreg. destruct Hreg as [Hreg H3].
  apply orb_false_iff in Hreg. destruct Hreg as [H1 H2].
  rewrite String.eqb_sym in H1, H2, H3.
  rewrite serve_main, (routeHTTP_known _ _ _ _ _ _ _ _ m Hm).
  rewrite FindRoute_main. cbn [String.eqb].
  cbn [chi.search chi.pattern chi.methods chi.endpoint].
  rewrite !match_static by reflexivity.
  rewrite (match_wildcard "/posts/*" "/posts/") by reflexivity.
  rewrite H1, H2, H3.
  destruct (strip_prefix "/posts/" path) as [wild|] eqn:E.
  - rewrite mALL_all. rewrite mount_posts.
    assert (Hw : wild <> EmptyString).
    { intros ->. apply strip_prefix_app in E. subst path. discriminate H3. }
    rewrite (routeHTTP_known _ _ _ _ _ _ _ _ m Hm). cbn [String.eqb].
    rewrite search_posts_other by exact Hw.
    apply notFound_fresh.
  - apply notFound_fresh.
Qed.

(** X14.  The port [main] selects is never empty: for every environment
    [main] listens on a colon followed by a non-empty port, and the line it
    logs names that same port. *)
Theorem port_never_empty :
  exists port,
    port <> EmptyString /\
    Addr (snd (main pkg env)) = ":" ++ port /\
    fst (main pkg env) = "Starting up on http://localhost:" ++ port.
Proof.
  exists (port_of env). split; [|split; reflexivity].
  unfold port_of. destruct (String.eqb_spec (os.Getenv env "PORT") EmptyString) as [E | N].
  - discriminate.
  - exact N.
Qed.

End MainRouter.

Lemma root_answers_GET_only_witness :
  serve (snd (main mock ∅)) "HEAD" "/" ∅ EmptyString
  = Done (ResponseRecorder.mk StatusMethodNotAllowed ∅ EmptyString true).
Proof. apply (root_answers_GET_only mock ∅ "HEAD"). discriminate. Defined.

Lemma Mount_cuts_the_prefix_witness :
  serve (snd (main mock ∅)) "GET" "/posts" ∅ EmptyString
  = chi.ServeHTTP (PostsResource.Routes mock) NewRecorder
      (Request.mk "GET" "/posts" ∅ EmptyString (Some (Context.mk "/" EmptyString)))
  /\ serve (snd (main mock ∅)) "GET" ("/posts/" ++ "7/comments") ∅ EmptyString
     = chi.ServeHTTP (PostsResource.Routes mock) NewRecorder
         (Request.mk "GET" ("/posts/" ++ "7/comments") ∅ EmptyString
            (Some (Context.mk ("/" ++ "7/comments") EmptyString))).
Proof. apply (Mount_cuts_the_prefix mock ∅ "GET" chi.mGET). reflexivity. Defined.

Lemma unrouted_request_answer_witness :
  serve (snd (main mock ∅)) "DELETE" "/posts/7" ∅ testReqBody = Done notFoundResponse.
Proof.
  apply (unrouted_request_answer mock ∅ "DELETE" chi.mDELETE); reflexivity.
Defined.
